(** * Entry validation of the Unified Context Protocol core

    A shallow embedding of [packages/core/src/types/index.ts] (the zod
    schemas of the memory entries) and of
    [packages/core/src/validation/index.ts] (the validators and the
    aggregator [UCPValidator.validateMemoryEntry]), with the properties of
    the validation engine proved over it.

    JavaScript values are trees: [undefined], [null], booleans, IEEE-754
    doubles, BigInts, strings (sequences of UTF-16 code units), arrays and
    plain objects (their own enumerable string keys, in enumeration order,
    pairwise distinct).  Exceptions are explicit: a computation either
    completes normally or throws. *)

From Stdlib Require Import List ZArith NArith Bool Ascii String Lia.
From Stdlib Require Import SpecFloat DecimalString DecimalN.
Import ListNotations.

Set Implicit Arguments.
Local Open Scope N_scope.

(* ------------------------------------------------------------------ *)
(** ** JavaScript strings *)

Module JsString.

(** A string is its sequence of UTF-16 code units. *)
Definition jsstring := list N.

Definition js (s : string) : jsstring :=
  map N_of_ascii (list_ascii_of_string s).

Fixpoint eqb (a b : jsstring) : bool :=
  match a, b with
  | [], [] => true
  | x :: a', y :: b' => N.eqb x y && eqb a' b'
  | _, _ => false
  end.

(** [s.length] *)
Definition length (s : jsstring) : N := N.of_nat (List.length s).

(** [s.startsWith(p)] *)
Fixpoint startsWith (s p : jsstring) : bool :=
  match p, s with
  | [], _ => true
  | x :: p', y :: s' => N.eqb x y && startsWith s' p'
  | _ :: _, [] => false
  end.

(** [s.endsWith(p)] *)
Definition endsWith (s p : jsstring) : bool :=
  startsWith (rev s) (rev p).

(** [s.includes(p)] *)
Fixpoint includes (s p : jsstring) : bool :=
  startsWith s p ||
  match s with
  | [] => false
  | _ :: s' => includes s' p
  end.

(** [parts.join(sep)] on strings *)
Fixpoint join (sep : jsstring) (parts : list jsstring) : jsstring :=
  match parts with
  | [] => []
  | [p] => p
  | p :: rest => p ++ sep ++ join sep rest
  end.

(** [String(n)] for a non-negative integer [n] below 2^53. *)
Definition ofN (n : N) : jsstring :=
  js (NilEmpty.string_of_uint (N.to_uint n)).

(** Decimal rendering of an integer ([BigInt.prototype.toString]). *)
Definition ofZ (z : Z) : jsstring :=
  match z with
  | Zneg p => js "-" ++ ofN (Npos p)
  | _ => ofN (Z.to_N z)
  end.

(** *** Character classes of the source's regular expressions *)

Definition in_range (lo hi c : N) : bool := (lo <=? c) && (c <=? hi).
Definition is_digit (c : N) : bool := in_range 48 57 c.
Definition is_upper (c : N) : bool := in_range 65 90 c.
Definition is_lower (c : N) : bool := in_range 97 122 c.
Definition is_hex (c : N) : bool :=
  is_digit c || in_range 65 70 c || in_range 97 102 c.

(** [/^[cls]+$/.test(s)]: a non-empty string all of whose code units lie
    in the class. *)
Definition all_in_class (cls : N -> bool) (s : jsstring) : bool :=
  match s with
  | [] => false
  | _ => forallb cls s
  end.

(** *** UTF-8 ([TextEncoder.encode]) *)

Definition is_high_surrogate (c : N) : bool := in_range 55296 56319 c.
Definition is_low_surrogate (c : N) : bool := in_range 56320 57343 c.

(** Number of bytes of [new TextEncoder().encode(s)]: the string is read
    as UTF-16, a lone surrogate becoming U+FFFD (three bytes). *)
Fixpoint utf8_length (s : jsstring) : N :=
  match s with
  | [] => 0
  | c :: rest =>
      if c <? 128 then 1 + utf8_length rest
      else if c <? 2048 then 2 + utf8_length rest
      else if is_high_surrogate c then
        match rest with
        | d :: rest' =>
            if is_low_surrogate d then 4 + utf8_length rest'
            else 3 + utf8_length rest
        | [] => 3
        end
      else 3 + utf8_length rest
  end.

(** *** [QuoteJSONString] *)

Definition hex_digit (n : N) : N :=
  if n <? 10 then 48 + n else 87 + n.

(** [\uXXXX], four lower-case hexadecimal digits. *)
Definition unicode_escape (c : N) : jsstring :=
  [92; 117; hex_digit (N.shiftr c 12 mod 16); hex_digit (N.shiftr c 8 mod 16);
   hex_digit (N.shiftr c 4 mod 16); hex_digit (c mod 16)].

Fixpoint quote_body (s : jsstring) : jsstring :=
  match s with
  | [] => []
  | c :: rest =>
      if c =? 8 then [92; 98] ++ quote_body rest
      else if c =? 9 then [92; 116] ++ quote_body rest
      else if c =? 10 then [92; 110] ++ quote_body rest
      else if c =? 12 then [92; 102] ++ quote_body rest
      else if c =? 13 then [92; 114] ++ quote_body rest
      else if c =? 34 then [92; 34] ++ quote_body rest
      else if c =? 92 then [92; 92] ++ quote_body rest
      else if c <? 32 then unicode_escape c ++ quote_body rest
      else if is_high_surrogate c then
        match rest with
        | d :: rest' =>
            if is_low_surrogate d then c :: d :: quote_body rest'
            else unicode_escape c ++ quote_body rest
        | [] => unicode_escape c
        end
      else if is_low_surrogate c then unicode_escape c ++ quote_body rest
      else c :: quote_body rest
  end.

Definition quote (s : jsstring) : jsstring :=
  [34] ++ quote_body s ++ [34].

End JsString.

Import JsString.

Declare Scope js_scope.
Delimit Scope js_scope with js.
Notation "a =? b" := (JsString.eqb a b) : js_scope.

(* ------------------------------------------------------------------ *)
(** ** JavaScript values *)

Unset Elimination Schemes.
Inductive value : Type :=
| VUndefined
| VNull
| VBool (b : bool)
| VNumber (x : spec_float)
| VBigInt (z : Z)
| VString (s : jsstring)
| VArray (items : list value)
| VObject (props : list (jsstring * value)).
Set Elimination Schemes.

Section ValueInduction.
Variable P : value -> Prop.
Hypothesis Hundef : P VUndefined.
Hypothesis Hnull : P VNull.
Hypothesis Hbool : forall b, P (VBool b).
Hypothesis Hnum : forall x, P (VNumber x).
Hypothesis Hbig : forall z, P (VBigInt z).
Hypothesis Hstr : forall s, P (VString s).
Hypothesis Harr : forall items, Forall P items -> P (VArray items).
Hypothesis Hobj :
  forall props, Forall (fun kv => P (snd kv)) props -> P (VObject props).

Fixpoint value_ind (v : value) : P v :=
  match v with
  | VUndefined => Hundef
  | VNull => Hnull
  | VBool b => Hbool b
  | VNumber x => Hnum x
  | VBigInt z => Hbig z
  | VString s => Hstr s
  | VArray items =>
      Harr ((fix go (l : list value) : Forall P l :=
               match l with
               | [] => Forall_nil _
               | x :: l' => Forall_cons _ (value_ind x) (go l')
               end) items)
  | VObject props =>
      Hobj ((fix go (l : list (jsstring * value))
               : Forall (fun kv => P (snd kv)) l :=
               match l with
               | [] => Forall_nil _
               | kv :: l' => Forall_cons _ (value_ind (snd kv)) (go l')
               end) props)
  end.
End ValueInduction.

(** Doubles. *)
Definition NaN : spec_float := S754_nan.
Definition Infinity : spec_float := S754_infinity false.
Definition number_of_Z (z : Z) : spec_float :=
  binary_normalize 53 1024 z 0 false.

(** [isNaN(x)] and [isFinite(x)] on a number. *)
Definition isNaN (x : spec_float) : bool :=
  match x with S754_nan => true | _ => false end.
Definition isFinite (x : spec_float) : bool :=
  match x with S754_nan | S754_infinity _ => false | _ => true end.
Definition is_zero (x : spec_float) : bool :=
  match x with S754_zero _ => true | _ => false end.

(** Own-property lookup [o[k]] and [k in o] on the property list. *)
Fixpoint lookup (k : jsstring) (props : list (jsstring * value)) : option value :=
  match props with
  | [] => None
  | (k', v) :: rest => if (k' =? k)%js then Some v else lookup k rest
  end.

Definition has (k : jsstring) (props : list (jsstring * value)) : bool :=
  match lookup k props with Some _ => true | None => false end.

Definition prop (k : jsstring) (props : list (jsstring * value)) : value :=
  match lookup k props with Some v => v | None => VUndefined end.

(** [v[k]] for a value that is known not to be [null] or [undefined]:
    a missing property reads as [undefined]. *)
Definition get (v : value) (k : jsstring) : value :=
  match v with
  | VObject props => prop k props
  | _ => VUndefined
  end.

(** The boolean coercion of [if (v)] and [!v]. *)
Definition truthy (v : value) : bool :=
  match v with
  | VUndefined | VNull => false
  | VBool b => b
  | VNumber x => negb (isNaN x || is_zero x)
  | VBigInt z => negb (Z.eqb z 0)
  | VString s => match s with [] => false | _ => true end
  | VArray _ | VObject _ => true
  end.

Definition is_undefined (v : value) : bool :=
  match v with VUndefined => true | _ => false end.

(** [v.length] of an array *)
Definition array_length (items : list value) : N := N.of_nat (List.length items).

(* ------------------------------------------------------------------ *)
(** ** The zod schema library, as far as the schemas of
       [types/index.ts] use it

    [z.string()], [z.number()], [z.unknown()], [z.literal], [z.enum],
    [z.nativeEnum], [z.array], [z.tuple], [z.record], [z.object] (unknown
    keys stripped, the default), [.optional()] and [.nullable()], with the
    issue list zod accumulates while parsing. *)

Module Zod.

(** A path element is a property name or an array index. *)
Inductive PathElem := PKey (k : jsstring) | PIndex (i : N).

Inductive ZodIssueCode :=
| invalid_type | invalid_literal | invalid_enum_value
| invalid_string | too_small | too_big.

(** The fields of an issue besides [code] and [path] that the error map
    reads. *)
Inductive IssueParams :=
| NoParams
| SizeBound (type : jsstring) (bound : spec_float) (inclusive exact : bool)
| Validation (name : jsstring)
| Options (options : list jsstring).

(** [received] and [expected] are [undefined] on the issue kinds that do
    not carry them. *)
Record ZodIssue := mkIssue {
  code : ZodIssueCode;
  path : list PathElem;
  received : value;
  expected : value;
  params : IssueParams
}.

Definition code_name (c : ZodIssueCode) : jsstring :=
  match c with
  | invalid_type => js "invalid_type"
  | invalid_literal => js "invalid_literal"
  | invalid_enum_value => js "invalid_enum_value"
  | invalid_string => js "invalid_string"
  | too_small => js "too_small"
  | too_big => js "too_big"
  end.

(** [getParsedType] *)
Definition parsedType (v : value) : jsstring :=
  match v with
  | VUndefined => js "undefined"
  | VNull => js "null"
  | VBool _ => js "boolean"
  | VNumber x => if isNaN x then js "nan" else js "number"
  | VBigInt _ => js "bigint"
  | VString _ => js "string"
  | VArray _ => js "array"
  | VObject _ => js "object"
  end.

(** [util.joinValues]: the quoted values separated by [" | "]. *)
Definition joinValues (vals : list jsstring) : jsstring :=
  join (js " | ") (map (fun v => js "'" ++ v ++ js "'") vals).

Inductive StringCheck := SMin (n : N) | SUuid | SDatetime.
Inductive NumberCheck := NMin (bound : spec_float) | NMax (bound : spec_float).

Unset Elimination Schemes.
Inductive schema :=
| ZString (checks : list StringCheck)
| ZNumber (checks : list NumberCheck)
| ZUnknown
| ZLiteral (lit : jsstring)
| ZEnum (values : list jsstring)
| ZNativeEnum (values : list jsstring)
| ZArray (element : schema)
| ZTuple (items : list schema)
| ZRecord (valueType : schema)
| ZObject (shape : list (jsstring * schema))
| ZOptional (inner : schema)
| ZNullable (inner : schema).
Set Elimination Schemes.

Section SchemaInduction.
Variable P : schema -> Prop.
Hypothesis Hstring : forall checks, P (ZString checks).
Hypothesis Hnumber : forall checks, P (ZNumber checks).
Hypothesis Hunknown : P ZUnknown.
Hypothesis Hliteral : forall lit, P (ZLiteral lit).
Hypothesis Henum : forall vals, P (ZEnum vals).
Hypothesis Hnative : forall vals, P (ZNativeEnum vals).
Hypothesis Harray : forall elt, P elt -> P (ZArray elt).
Hypothesis Htuple : forall items, Forall P items -> P (ZTuple items).
Hypothesis Hrecord : forall vt, P vt -> P (ZRecord vt).
Hypothesis Hobject :
  forall shape, Forall (fun ks => P (snd ks)) shape -> P (ZObject shape).
Hypothesis Hoptional : forall inner, P inner -> P (ZOptional inner).
Hypothesis Hnullable : forall inner, P inner -> P (ZNullable inner).

Fixpoint schema_ind (s : schema) : P s :=
  match s with
  | ZString c => Hstring c
  | ZNumber c => Hnumber c
  | ZUnknown => Hunknown
  | ZLiteral l => Hliteral l
  | ZEnum vs => Henum vs
  | ZNativeEnum vs => Hnative vs
  | ZArray e => Harray (schema_ind e)
  | ZTuple items =>
      Htuple ((fix go (l : list schema) : Forall P l :=
                 match l with
                 | [] => Forall_nil _
                 | x :: l' => Forall_cons _ (schema_ind x) (go l')
                 end) items)
  | ZRecord vt => Hrecord (schema_ind vt)
  | ZObject shape =>
      Hobject ((fix go (l : list (jsstring * schema))
                  : Forall (fun ks => P (snd ks)) l :=
                  match l with
                  | [] => Forall_nil _
                  | ks :: l' => Forall_cons _ (schema_ind (snd ks)) (go l')
                  end) shape)
  | ZOptional i => Hoptional (schema_ind i)
  | ZNullable i => Hnullable (schema_ind i)
  end.
End SchemaInduction.

(** [schema.extend(augmentation)]: [{...shape, ...augmentation}]; a key
    already in the shape keeps its position and takes the new schema, a
    new key goes to the end. *)
Fixpoint assign (shape : list (jsstring * schema)) (k : jsstring) (s : schema)
  : list (jsstring * schema) :=
  match shape with
  | [] => [(k, s)]
  | (k', s') :: rest =>
      if (k' =? k)%js then (k', s) :: rest else (k', s') :: assign rest k s
  end.

Definition extend (shape augmentation : list (jsstring * schema))
  : list (jsstring * schema) :=
  fold_left (fun sh ks => assign sh (fst ks) (snd ks)) augmentation shape.

(** What [_parse] returns: a valid value, a value with failed checks, or
    nothing. *)
Inductive ParseReturn := OK (v : value) | DIRTY (v : value) | INVALID.

Definition is_aborted (r : ParseReturn) : bool :=
  match r with INVALID => true | _ => false end.
Definition is_dirty (r : ParseReturn) : bool :=
  match r with DIRTY _ => true | _ => false end.
Definition value_of (r : ParseReturn) : value :=
  match r with OK v | DIRTY v => v | INVALID => VUndefined end.
Definition with_status (is_dirty : bool) (v : value) : ParseReturn :=
  if is_dirty then DIRTY v else OK v.

(** [ParseStatus.mergeArray] *)
Definition mergeArray (results : list ParseReturn) : ParseReturn :=
  if existsb is_aborted results then INVALID
  else with_status (existsb is_dirty results) (VArray (map value_of results)).

(** One entry of [pairs] in [ZodObject._parse] and [ZodRecord._parse]:
    the key, the parsed value and [alwaysSet]. *)
Definition pair : Type := jsstring * ParseReturn * bool.

Definition pair_entry (p : pair) : list (jsstring * value) :=
  let '(k, r, alwaysSet) := p in
  if negb (k =? js "__proto__")%js
     && (negb (is_undefined (value_of r)) || alwaysSet)
  then [(k, value_of r)] else [].

(** [ParseStatus.mergeObjectSync]; the keys of [pairs] are pairwise
    distinct, so each assignment [finalObject[key] = value] adds a
    property. *)
Definition mergeObjectSync (pairs : list pair) : ParseReturn :=
  if existsb (fun p => is_aborted (snd (fst p))) pairs then INVALID
  else with_status (existsb (fun p => is_dirty (snd (fst p))) pairs)
                   (VObject (flat_map pair_entry pairs)).

(** [l.map((x, i) => f(i, x))], the indices starting at [i]. *)
Section Indexed.
Context {A B : Type} (f : N -> A -> B).
Fixpoint mapi_from (i : N) (l : list A) : list B :=
  match l with
  | [] => []
  | x :: l' => f i x :: mapi_from (i + 1) l'
  end.
End Indexed.

(** The same over two lists, up to the end of the shorter. *)
Section Indexed2.
Context {A B C : Type} (f : N -> A -> B -> C).
Fixpoint zipi_from (i : N) (la : list A) (lb : list B) : list C :=
  match la, lb with
  | a :: la', b :: lb' => f i a b :: zipi_from (i + 1) la' lb'
  | _, _ => []
  end.
End Indexed2.

(** The parts of zod and of the JavaScript engine whose exact text
    depends on their version: the regular expressions behind [.uuid()]
    and [.datetime()], the default error map (issue to message), and
    [Number::toString] on a finite non-zero double. *)
Record Runtime := mkRuntime {
  uuidRegex_test : jsstring -> bool;
  datetimeRegex_test : jsstring -> bool;
  errorMap : ZodIssue -> jsstring;
  finite_toString : spec_float -> jsstring
}.

Section Parse.
Variable rt : Runtime.

Definition invalid_type_issue (p : list PathElem) (exp : jsstring) (v : value)
  : ZodIssue :=
  mkIssue invalid_type p (VString (parsedType v)) (VString exp) NoParams.

(** The checks of [ZodString._parse], each adding an issue when it
    fails. *)
Definition stringCheck (p : list PathElem) (s : jsstring) (c : StringCheck)
  : list ZodIssue :=
  match c with
  | SMin n =>
      if JsString.length s <? n
      then [mkIssue too_small p VUndefined VUndefined
              (SizeBound (js "string") (number_of_Z (Z.of_N n)) true false)]
      else []
  | SUuid =>
      if uuidRegex_test rt s then []
      else [mkIssue invalid_string p VUndefined VUndefined (Validation (js "uuid"))]
  | SDatetime =>
      if datetimeRegex_test rt s then []
      else [mkIssue invalid_string p VUndefined VUndefined
              (Validation (js "datetime"))]
  end.

(** The checks of [ZodNumber._parse] ([.min] and [.max], inclusive). *)
Definition numberCheck (p : list PathElem) (x : spec_float) (c : NumberCheck)
  : list ZodIssue :=
  match c with
  | NMin b =>
      if SFltb x b
      then [mkIssue too_small p VUndefined VUndefined
              (SizeBound (js "number") b true false)]
      else []
  | NMax b =>
      if SFltb b x
      then [mkIssue too_big p VUndefined VUndefined
              (SizeBound (js "number") b true false)]
      else []
  end.

Definition is_nil {A} (l : list A) : bool :=
  match l with [] => true | _ => false end.

(** [schema._parse] at path [p]: the return value and the issues added,
    in the order zod adds them. *)
Fixpoint parse (s : schema) (p : list PathElem) (v : value) {struct s}
  : ParseReturn * list ZodIssue :=
  match s with
  | ZString checks =>
      match v with
      | VString str =>
          let issues := flat_map (stringCheck p str) checks in
          (with_status (negb (is_nil issues)) v, issues)
      | _ => (INVALID, [invalid_type_issue p (js "string") v])
      end
  | ZNumber checks =>
      match v with
      | VNumber x =>
          if isNaN x then (INVALID, [invalid_type_issue p (js "number") v])
          else
            let issues := flat_map (numberCheck p x) checks in
            (with_status (negb (is_nil issues)) v, issues)
      | _ => (INVALID, [invalid_type_issue p (js "number") v])
      end
  | ZUnknown => (OK v, [])
  | ZLiteral lit =>
      match v with
      | VString str =>
          if (str =? lit)%js then (OK v, [])
          else (INVALID, [mkIssue invalid_literal p v (VString lit) NoParams])
      | _ => (INVALID, [mkIssue invalid_literal p v (VString lit) NoParams])
      end
  | ZEnum vals =>
      match v with
      | VString str =>
          if existsb (JsString.eqb str) vals then (OK v, [])
          else (INVALID, [mkIssue invalid_enum_value p v VUndefined (Options vals)])
      | _ => (INVALID, [invalid_type_issue p (joinValues vals) v])
      end
  | ZNativeEnum vals =>
      match v with
      | VString str =>
          if existsb (JsString.eqb str) vals then (OK v, [])
          else (INVALID, [mkIssue invalid_enum_value p v VUndefined (Options vals)])
      | VNumber x =>
          if isNaN x then (INVALID, [invalid_type_issue p (joinValues vals) v])
          else (INVALID, [mkIssue invalid_enum_value p v VUndefined (Options vals)])
      | _ => (INVALID, [invalid_type_issue p (joinValues vals) v])
      end
  | ZArray elt =>
      match v with
      | VArray items =>
          let item i x := parse elt (p ++ [PIndex i]) x in
          (mergeArray (mapi_from (fun i x => fst (item i x)) 0 items),
           List.concat (mapi_from (fun i x => snd (item i x)) 0 items))
      | _ => (INVALID, [invalid_type_issue p (js "array") v])
      end
  | ZTuple items =>
      match v with
      | VArray data =>
          let n := N.of_nat (List.length items) in
          if array_length data <? n
          then (INVALID, [mkIssue too_small p VUndefined VUndefined
                            (SizeBound (js "array") (number_of_Z (Z.of_N n)) true false)])
          else
            let extra :=
              if n <? array_length data
              then [mkIssue too_big p VUndefined VUndefined
                      (SizeBound (js "array") (number_of_Z (Z.of_N n)) true false)]
              else [] in
            (* the items that have a schema, each parsed by the schema
               of its index *)
            let item i si x := parse si (p ++ [PIndex i]) x in
            (match mergeArray (zipi_from (fun i si x => fst (item i si x)) 0 items data) with
             | OK a => with_status (negb (is_nil extra)) a
             | r => r
             end,
             extra ++ List.concat (zipi_from (fun i si x => snd (item i si x)) 0 items data))
      | _ => (INVALID, [invalid_type_issue p (js "array") v])
      end
  | ZRecord vt =>
      match v with
      | VObject props =>
          let entry kv := parse vt (p ++ [PKey (fst kv)]) (snd kv) in
          (mergeObjectSync (map (fun kv => (fst kv, fst (entry kv), true)) props),
           flat_map (fun kv => snd (entry kv)) props)
      | _ => (INVALID, [invalid_type_issue p (js "object") v])
      end
  | ZObject shape =>
      match v with
      | VObject props =>
          let field ks :=
            parse (snd ks) (p ++ [PKey (fst ks)]) (prop (fst ks) props) in
          (mergeObjectSync
             (map (fun ks => (fst ks, fst (field ks), has (fst ks) props)) shape),
           flat_map (fun ks => snd (field ks)) shape)
      | _ => (INVALID, [invalid_type_issue p (js "object") v])
      end
  | ZOptional inner =>
      match v with
      | VUndefined => (OK VUndefined, [])
      | _ => parse inner p v
      end
  | ZNullable inner =>
      match v with
      | VNull => (OK VNull, [])
      | _ => parse inner p v
      end
  end.

End Parse.

End Zod.

Import Zod.

(* ------------------------------------------------------------------ *)
(** ** [types/index.ts]: the schemas *)

Module Types.

(** [enum MemoryEntryType] and [enum MemoryEntryStatus]: their values. *)
Definition TASK_STATE := js "TaskState".
Definition COMMIT_DELTA := js "CommitDelta".
Definition REASONING_ENTRY := js "ReasoningEntry".
Definition SUMMARY_CHECKPOINT := js "SummaryCheckpoint".
Definition BRANCH_META := js "BranchMeta".

Definition MemoryEntryType : list jsstring :=
  [TASK_STATE; COMMIT_DELTA; REASONING_ENTRY; SUMMARY_CHECKPOINT; BRANCH_META].

Definition MemoryEntryStatus : list jsstring :=
  [js "draft"; js "verified"; js "archived"].

Definition z_string := ZString [].
Definition z_number := ZNumber [].
Definition z_datetime := ZString [SDatetime].

Definition MemoryEntryShape : list (jsstring * schema) :=
  [ (js "id", ZString [SUuid]);
    (js "type", ZNativeEnum MemoryEntryType);
    (js "project", ZString [SMin 1]);
    (js "taskId", ZNullable z_string);
    (js "branch", ZString [SMin 1]);
    (js "timestamp", z_datetime);
    (js "status", ZNativeEnum MemoryEntryStatus);
    (js "content", ZRecord ZUnknown);
    (js "metadata", ZOptional (ZRecord ZUnknown));
    (js "embedding", ZOptional (ZArray z_number));
    (js "tags", ZOptional (ZArray z_string)) ].

Definition MemoryEntrySchema : schema := ZObject MemoryEntryShape.

Definition TaskStateContentSchema : schema :=
  ZObject
    [ (js "description", z_string);
      (js "goals", ZArray z_string);
      (js "progress", ZNumber [NMin (number_of_Z 0); NMax (number_of_Z 100)]);
      (js "context", ZRecord ZUnknown);
      (js "activeFiles", ZArray z_string);
      (js "workingDirectory", z_string);
      (js "dependencies", ZOptional (ZArray z_string));
      (js "blockers", ZOptional (ZArray z_string)) ].

Definition TaskStateSchema : schema :=
  ZObject (extend MemoryEntryShape
             [ (js "type", ZLiteral TASK_STATE);
               (js "content", TaskStateContentSchema) ]).

Definition CommitDeltaContentSchema : schema :=
  ZObject
    [ (js "commitHash", z_string);
      (js "message", z_string);
      (js "author", ZObject [ (js "name", z_string); (js "email", z_string) ]);
      (js "files",
        ZArray (ZObject
                  [ (js "path", z_string);
                    (js "action",
                      ZEnum [js "added"; js "modified"; js "deleted"; js "renamed"]);
                    (js "linesAdded", ZOptional z_number);
                    (js "linesDeleted", ZOptional z_number) ]));
      (js "semantic",
        ZOptional (ZObject
                     [ (js "functions", ZOptional (ZArray z_string));
                       (js "classes", ZOptional (ZArray z_string));
                       (js "imports", ZOptional (ZArray z_string));
                       (js "configs", ZOptional (ZArray z_string)) ])) ].

Definition CommitDeltaSchema : schema :=
  ZObject (extend MemoryEntryShape
             [ (js "type", ZLiteral COMMIT_DELTA);
               (js "content", CommitDeltaContentSchema) ]).

Definition ReasoningEntryContentSchema : schema :=
  ZObject
    [ (js "threadId", z_string);
      (js "model", z_string);
      (js "query", z_string);
      (js "response", z_string);
      (js "reasoning", ZOptional z_string);
      (js "codeRefs",
        ZOptional (ZArray (ZObject
                             [ (js "file", z_string);
                               (js "lines", ZOptional (ZTuple [z_number; z_number]));
                               (js "content", ZOptional z_string) ])));
      (js "actions", ZOptional (ZArray z_string)) ].

Definition ReasoningEntrySchema : schema :=
  ZObject (extend MemoryEntryShape
             [ (js "type", ZLiteral REASONING_ENTRY);
               (js "content", ReasoningEntryContentSchema) ]).

Definition SummaryCheckpointContentSchema : schema :=
  ZObject
    [ (js "period", ZObject [ (js "start", z_datetime); (js "end", z_datetime) ]);
      (js "summary", z_string);
      (js "achievements", ZArray z_string);
      (js "decisions", ZArray z_string);
      (js "technicalDebt", ZOptional (ZArray z_string));
      (js "metrics", ZOptional (ZRecord z_number));
      (js "compressedEntries", ZOptional (ZArray z_string)) ].

Definition SummaryCheckpointSchema : schema :=
  ZObject (extend MemoryEntryShape
             [ (js "type", ZLiteral SUMMARY_CHECKPOINT);
               (js "content", SummaryCheckpointContentSchema) ]).

Definition BranchMetaContentSchema : schema :=
  ZObject
    [ (js "purpose", z_string);
      (js "parentBranch", z_string);
      (js "childBranches", ZOptional (ZArray z_string));
      (js "createdAt", z_datetime);
      (js "mergeTarget", ZOptional z_datetime);
      (js "featureFlags", ZOptional (ZArray z_string));
      (js "environment",
        ZOptional (ZEnum [js "development"; js "staging"; js "production"]));
      (js "relatedBranches", ZOptional (ZArray z_string)) ].

Definition BranchMetaSchema : schema :=
  ZObject (extend MemoryEntryShape
             [ (js "type", ZLiteral BRANCH_META);
               (js "content", BranchMetaContentSchema) ]).

End Types.

Import Types.

(* ------------------------------------------------------------------ *)
(** ** Exceptions and the parts of the JavaScript library the validators
       call *)

Inductive exn :=
| ZodError (issues : list ZodIssue)
| TypeError (message : jsstring)
| Error (message : jsstring).

Inductive completion (A : Type) :=
| Normal (a : A)
| Throw (e : exn).
Arguments Normal {A} a.
Arguments Throw {A} e.

Definition bind {A B} (c : completion A) (k : A -> completion B) : completion B :=
  match c with
  | Normal a => k a
  | Throw e => Throw e
  end.

Notation "x <- c ;; k" := (bind c (fun x => k))
  (at level 100, c at next level, right associativity).

(** [try { body } catch (error) { handler(error) }] *)
Definition try_catch {A} (body : completion A) (handler : exn -> completion A)
  : completion A :=
  match body with
  | Normal a => Normal a
  | Throw e => handler e
  end.

Section Runtime.
Variable rt : Runtime.

(** [Number::toString] *)
Definition Number_toString (x : spec_float) : jsstring :=
  match x with
  | S754_nan => js "NaN"
  | S754_infinity false => js "Infinity"
  | S754_infinity true => js "-Infinity"
  | S754_zero _ => js "0"
  | S754_finite _ _ _ => finite_toString rt x
  end.

(** [String(v)], as a template literal applies it. *)
Fixpoint ToString (v : value) : jsstring :=
  match v with
  | VUndefined => js "undefined"
  | VNull => js "null"
  | VBool true => js "true"
  | VBool false => js "false"
  | VNumber x => Number_toString x
  | VBigInt z => ofZ z
  | VString s => s
  | VArray items =>
      join (js ",")
           (map (fun x => match x with
                          | VUndefined | VNull => []
                          | _ => ToString x
                          end) items)
  | VObject _ => js "[object Object]"
  end.

(** [SerializeJSONProperty]: [None] is [undefined]; a BigInt throws.  The
    values of this development are trees, so the other TypeError of
    [JSON.stringify], for a circular structure, has no case here; the
    theorems about entries are stated for the calls that return, or for
    the calls that throw, and none concludes that a call returns from the
    absence of a BigInt. *)
Fixpoint SerializeJSONProperty (v : value) : completion (option jsstring) :=
  match v with
  | VUndefined => Normal None
  | VNull => Normal (Some (js "null"))
  | VBool true => Normal (Some (js "true"))
  | VBool false => Normal (Some (js "false"))
  | VNumber x =>
      Normal (Some (if isFinite x then Number_toString x else js "null"))
  | VBigInt _ => Throw (TypeError (js "Do not know how to serialize a BigInt"))
  | VString s => Normal (Some (quote s))
  | VArray items =>
      parts <- (fix elements (l : list value) : completion (list jsstring) :=
                  match l with
                  | [] => Normal []
                  | x :: l' =>
                      o <- SerializeJSONProperty x ;;
                      rest <- elements l' ;;
                      Normal (match o with Some s => s | None => js "null" end :: rest)
                  end) items ;;
      Normal (Some (js "[" ++ join (js ",") parts ++ js "]"))
  | VObject props =>
      parts <- (fix members (l : list (jsstring * value)) : completion (list jsstring) :=
                  match l with
                  | [] => Normal []
                  | (k, x) :: l' =>
                      o <- SerializeJSONProperty x ;;
                      rest <- members l' ;;
                      Normal (match o with
                              | Some s => (quote k ++ js ":" ++ s) :: rest
                              | None => rest
                              end)
                  end) props ;;
      Normal (Some (js "{" ++ join (js ",") parts ++ js "}"))
  end.

(** [JSON.stringify(v)] *)
Definition JSON_stringify (v : value) : completion (option jsstring) :=
  SerializeJSONProperty v.

(** [new TextEncoder().encode(s).length]; [encode(undefined)] encodes the
    empty string. *)
Definition encoded_length (s : option jsstring) : N :=
  match s with
  | Some str => utf8_length str
  | None => 0
  end.

(** [schema.parse(v)]: the parsed data, or a thrown [ZodError] holding
    the issues. *)
Definition zod_parse (s : schema) (v : value) : completion value :=
  match parse rt s [] v with
  | (OK d, _) => Normal d
  | (_, []) => Throw (Error (js "Validation failed but no issues detected."))
  | (_, issues) => Throw (ZodError issues)
  end.

End Runtime.

(* ------------------------------------------------------------------ *)
(** ** [validation/index.ts]: the validators *)

Module Validation.

(** [interface ValidationError]; [path] and [context] are optional. *)
Record ErrorContext := mkContext {
  ctx_received : value;
  ctx_expected : value
}.

Record ValidationError := mkError {
  code : jsstring;
  message : jsstring;
  path : option (list jsstring);
  context : option ErrorContext
}.

(** [interface ValidationResult]; an absent [data] reads as
    [undefined]. *)
Record ValidationResult := mkResult {
  success : bool;
  data : value;
  errors : option (list ValidationError)
}.

(** [{ success: true, data }] and [{ success: false, errors }] *)
Definition Success (d : value) : ValidationResult := mkResult true d None.
Definition Failure (errs : list ValidationError) : ValidationResult :=
  mkResult false VUndefined (Some errs).

(** [result.errors || []] *)
Definition errors_or_empty (r : ValidationResult) : list ValidationError :=
  match errors r with Some errs => errs | None => [] end.

(** A plain error [{ code, message }]. *)
Definition plain_error (c m : jsstring) : ValidationError :=
  mkError c m None None.

(** The ending shared by the field validators:
    [if (errors.length > 0) return { success: false, errors };
     return { success: true, data }]. *)
Definition finish (errs : list ValidationError) (d : value) : ValidationResult :=
  if 0 <? N.of_nat (List.length errs) then Failure errs else Success d.

(** [String(e)] of a path element. *)
Definition String_of_path (e : PathElem) : jsstring :=
  match e with
  | PKey k => k
  | PIndex i => ofN i
  end.

(** The type assertion of a field the static type [MemoryEntry] declares
    a string: the code units of the string.  After phase 1 the fields it
    is applied to are strings (lemma [validated_strings]). *)
Definition as_string (v : value) : jsstring :=
  match v with VString s => s | _ => [] end.

Section Validators.
Variable rt : Runtime.

(** *** MemoryEntryValidator *)

(** The callback of [parseZodError], applied to each zod issue. *)
Definition issue_error (err : ZodIssue) : ValidationError :=
  mkError (code_name (Zod.code err))
          (errorMap rt err)
          (Some (map String_of_path (Zod.path err)))
          (Some (mkContext (received err) (expected err))).

(** [parseZodError]: [error.errors.map(...)]; on an error that is not a
    [ZodError], [error.errors] is [undefined] and the call throws. *)
Definition parseZodError (error : exn) : completion (list ValidationError) :=
  match error with
  | ZodError issues => Normal (map issue_error issues)
  | _ => Throw (TypeError (js "Cannot read properties of undefined (reading 'map')"))
  end.

Definition catch_zod (error : exn) : completion ValidationResult :=
  errs <- parseZodError error ;;
  Normal (Failure errs).

(** [MemoryEntryValidator.validate] *)
Definition validate (entry : value) : completion ValidationResult :=
  try_catch
    (validated <- zod_parse rt MemoryEntrySchema entry ;;
     Normal (Success validated))
    catch_zod.

(** The [switch (entry.type)] of [validateByType]: the schema of the
    matching [case], or [None] for [default]. *)
Definition schema_of_type (type : value) : option schema :=
  match type with
  | VString t =>
      if (t =? TASK_STATE)%js then Some TaskStateSchema
      else if (t =? COMMIT_DELTA)%js then Some CommitDeltaSchema
      else if (t =? REASONING_ENTRY)%js then Some ReasoningEntrySchema
      else if (t =? SUMMARY_CHECKPOINT)%js then Some SummaryCheckpointSchema
      else if (t =? BRANCH_META)%js then Some BranchMetaSchema
      else None
  | _ => None
  end.

(** [MemoryEntryValidator.validateByType]; reading [entry.type] of
    [null] or [undefined] throws inside the [try]. *)
Definition validateByType (entry : value) : completion ValidationResult :=
  try_catch
    (match entry with
     | VUndefined | VNull =>
         Throw (TypeError (js "Cannot read properties of undefined (reading 'type')"))
     | _ =>
         match schema_of_type (get entry (js "type")) with
         | Some schema =>
             validated <- zod_parse rt schema entry ;;
             Normal (Success validated)
         | None =>
             Normal (Failure
               [ mkError (js "INVALID_TYPE")
                         (js "Unknown memory entry type: "
                            ++ ToString rt (get entry (js "type")))
                         (Some [js "type"])
                         None ])
         end
     end)
    catch_zod.

(** [MemoryEntryValidator.validateTyped] *)
Definition validateTyped (entry : value) : completion ValidationResult :=
  baseResult <- validate entry ;;
  if negb (success baseResult) || negb (truthy (data baseResult))
  then Normal baseResult
  else validateByType (data baseResult).

(** *** ProjectValidator *)

Definition PROJECT_NAME_REGEX_test (s : jsstring) : bool :=
  all_in_class (fun c => is_lower c || is_upper c || is_digit c
                         || (c =? 95) || (c =? 45)) s.
Definition PROJECT_MAX_LENGTH : N := 100.
Definition PROJECT_MIN_LENGTH : N := 1.

Definition ProjectValidator_validate (projectName : jsstring) : ValidationResult :=
  let errors :=
    (if JsString.length projectName <? PROJECT_MIN_LENGTH
     then [plain_error (js "TOO_SHORT")
             (js "Project name must be at least " ++ ofN PROJECT_MIN_LENGTH
                ++ js " character(s)")]
     else [])
    ++ (if PROJECT_MAX_LENGTH <? JsString.length projectName
        then [plain_error (js "TOO_LONG")
                (js "Project name must be at most " ++ ofN PROJECT_MAX_LENGTH
                   ++ js " characters")]
        else [])
    ++ (if negb (PROJECT_NAME_REGEX_test projectName)
        then [plain_error (js "INVALID_FORMAT")
                (js "Project name can only contain letters, numbers, underscores, and hyphens")]
        else []) in
  finish errors (VString projectName).

(** *** BranchValidator *)

Definition BRANCH_NAME_REGEX_test (s : jsstring) : bool :=
  all_in_class (fun c => is_lower c || is_upper c || is_digit c
                         || (c =? 47) || (c =? 95) || (c =? 45)) s.
Definition BRANCH_MAX_LENGTH : N := 250.
Definition BRANCH_MIN_LENGTH : N := 1.

Definition branch_too_short : ValidationError :=
  plain_error (js "TOO_SHORT")
    (js "Branch name must be at least " ++ ofN BRANCH_MIN_LENGTH ++ js " character(s)").
Definition branch_too_long : ValidationError :=
  plain_error (js "TOO_LONG")
    (js "Branch name must be at most " ++ ofN BRANCH_MAX_LENGTH ++ js " characters").
Definition branch_bad_format : ValidationError :=
  plain_error (js "INVALID_FORMAT") (js "Branch name contains invalid characters").
Definition branch_edge_slash : ValidationError :=
  plain_error (js "INVALID_FORMAT") (js "Branch name cannot start or end with a slash").
Definition branch_double_slash : ValidationError :=
  plain_error (js "INVALID_FORMAT") (js "Branch name cannot contain consecutive slashes").

Definition BranchValidator_validate (branchName : jsstring) : ValidationResult :=
  let errors :=
    (if JsString.length branchName <? BRANCH_MIN_LENGTH
     then [branch_too_short] else [])
    ++ (if BRANCH_MAX_LENGTH <? JsString.length branchName
        then [branch_too_long] else [])
    ++ (if negb (BRANCH_NAME_REGEX_test branchName)
        then [branch_bad_format] else [])
    ++ (if startsWith branchName (js "/") || endsWith branchName (js "/")
        then [branch_edge_slash] else [])
    ++ (if includes branchName (js "//")
        then [branch_double_slash] else []) in
  finish errors (VString branchName).

(** *** ContentSizeValidator *)

Definition MAX_CONTENT_SIZE : N := 1024 * 1024.
Definition MAX_STRING_LENGTH : N := 100000.

Definition content_too_large (sizeInBytes : N) : ValidationError :=
  plain_error (js "CONTENT_TOO_LARGE")
    (js "Content size (" ++ ofN sizeInBytes
       ++ js " bytes) exceeds maximum allowed size (" ++ ofN MAX_CONTENT_SIZE
       ++ js " bytes)").

Definition string_too_long (len : N) : ValidationError :=
  plain_error (js "STRING_TOO_LONG")
    (js "String length (" ++ ofN len
       ++ js ") exceeds maximum allowed length (" ++ ofN MAX_STRING_LENGTH
       ++ js ")").

(** [ContentSizeValidator.validate]; [JSON.stringify] is not inside a
    [try], so what it throws leaves the validator. *)
Definition ContentSizeValidator_validate (content : value)
  : completion ValidationResult :=
  serialized <- JSON_stringify rt content ;;
  let sizeInBytes := encoded_length serialized in
  let errors :=
    (if MAX_CONTENT_SIZE <? sizeInBytes
     then [content_too_large sizeInBytes] else [])
    ++ (match content with
        | VString s =>
            if MAX_STRING_LENGTH <? JsString.length s
            then [string_too_long (JsString.length s)] else []
        | _ => []
        end) in
  Normal (finish errors content).

(** *** EmbeddingValidator *)

Definition SUPPORTED_DIMENSIONS : list N := [384; 512; 768; 1024; 1536].

Definition empty_embedding : ValidationError :=
  plain_error (js "EMPTY_EMBEDDING") (js "Embedding cannot be empty").

Definition invalid_dimension (len : N) : ValidationError :=
  plain_error (js "INVALID_DIMENSION")
    (js "Embedding dimension (" ++ ofN len
       ++ js ") is not supported. Supported dimensions: "
       ++ join (js ", ") (map ofN SUPPORTED_DIMENSIONS)).

Definition invalid_value (i : N) : ValidationError :=
  mkError (js "INVALID_VALUE")
          (js "Embedding value at index " ++ ofN i ++ js " is not a valid number")
          (Some [ofN i]) None.

(** [typeof value !== 'number' || isNaN(value) || !isFinite(value)] *)
Definition bad_element (v : value) : bool :=
  match v with
  | VNumber x => isNaN x || negb (isFinite x)
  | _ => true
  end.

Definition EmbeddingValidator_validate (embedding : value) : ValidationResult :=
  match embedding with
  | VArray items =>
      let errors :=
        (if array_length items =? 0 then [empty_embedding] else [])
        ++ (if negb (existsb (N.eqb (array_length items)) SUPPORTED_DIMENSIONS)
            then [invalid_dimension (array_length items)] else [])
        ++ List.concat
             (mapi_from (fun i v => if bad_element v then [invalid_value i] else [])
                        0 items) in
      finish errors embedding
  | _ =>
      Failure [plain_error (js "INVALID_TYPE")
                 (js "Embedding must be an array of numbers")]
  end.

(** *** UCPValidator *)

(** [if (!result.success) errors.push(...(result.errors || []))] *)
Definition failed_errors (r : ValidationResult) : list ValidationError :=
  if negb (success r) then errors_or_empty r else [].

(** [UCPValidator.validateMemoryEntry] *)
Definition validateMemoryEntry (entry : value) : completion ValidationResult :=
  structureResult <- validateTyped entry ;;
  if negb (success structureResult) || negb (truthy (data structureResult))
  then Normal structureResult
  else
    let validatedEntry := data structureResult in
    let projectResult :=
      ProjectValidator_validate (as_string (get validatedEntry (js "project"))) in
    let branchResult :=
      BranchValidator_validate (as_string (get validatedEntry (js "branch"))) in
    contentResult <-
      ContentSizeValidator_validate (get validatedEntry (js "content")) ;;
    let embeddingErrors :=
      if truthy (get validatedEntry (js "embedding"))
      then failed_errors
             (EmbeddingValidator_validate (get validatedEntry (js "embedding")))
      else [] in
    let errors :=
      failed_errors projectResult ++ failed_errors branchResult
        ++ failed_errors contentResult ++ embeddingErrors in
    Normal (finish errors validatedEntry).

End Validators.

End Validation.

Import Validation.

(* ------------------------------------------------------------------ *)
(** ** A concrete runtime

    The regular expressions and the default (English) error map of zod 3,
    and [Number::toString] on the doubles the examples use.  The general
    theorems below hold for every runtime; this one evaluates the code on
    concrete entries. *)

Module Reference.

(** [^[0-9a-fA-F]{8}\b-[0-9a-fA-F]{4}\b-[0-9a-fA-F]{4}\b-[0-9a-fA-F]{4}\b-[0-9a-fA-F]{12}$] *)
Fixpoint hex_groups (groups : list nat) (s : jsstring) : bool :=
  match groups with
  | [] => match s with [] => true | _ => false end
  | n :: rest =>
      forallb is_hex (firstn n s)
      && Nat.eqb (List.length (firstn n s)) n
      && match rest, skipn n s with
         | [], [] => true
         | _ :: _, c :: s' => (c =? 45) && hex_groups rest s'
         | _, _ => false
         end
  end.

Definition uuidRegex (s : jsstring) : bool :=
  hex_groups [8; 4; 4; 4; 12]%nat s.

(** A template of the datetime expression: [d] a digit, any other code
    unit itself. *)
Fixpoint matches_template (t s : jsstring) : option jsstring :=
  match t with
  | [] => Some s
  | c :: t' =>
      match s with
      | x :: s' =>
          if (if c =? 100 then is_digit x else x =? c)
          then matches_template t' s' else None
      | [] => None
      end
  end.

Fixpoint skip_digits (s : jsstring) : jsstring :=
  match s with
  | c :: s' => if is_digit c then skip_digits s' else s
  | [] => []
  end.

(** [^\d{4}-\d{2}-\d{2}T\d{2}:\d{2}:\d{2}(\.\d+)?Z$] *)
Definition datetimeRegex (s : jsstring) : bool :=
  match matches_template (js "dddd-dd-ddTdd:dd:dd") s with
  | Some rest =>
      match rest with
      | [90] => true
      | 46 :: d :: rest' =>
          is_digit d && (skip_digits rest' =? [90])%js
      | _ => false
      end
  | None => false
  end.

(** The integer a finite double denotes when it is integral. *)
Definition integer_part (x : spec_float) : Z :=
  match x with
  | S754_finite s m e =>
      let n := if (0 <=? e)%Z then Z.shiftl (Zpos m) e else Z.shiftr (Zpos m) (- e) in
      if s then Z.opp n else n
  | _ => 0%Z
  end.

(** [Number::toString] on an integral double of magnitude at most 2^53:
    its decimal digits.  (On other doubles the digits of the shortest
    round-trip decimal are not computed here; the entries evaluated
    below hold integral numbers only.) *)
Definition integral_toString (x : spec_float) : jsstring :=
  ofZ (integer_part x).

Definition size_message (type : jsstring) (bound : jsstring) (inclusive exact big : bool)
  : jsstring :=
  if (type =? js "number")%js then
    js "Number must be "
      ++ (if exact then (if big then js "exactly " else js "exactly equal to ")
          else if inclusive
               then (if big then js "less than or equal to "
                     else js "greater than or equal to ")
               else (if big then js "less than " else js "greater than "))
      ++ bound
  else
    (if (type =? js "string")%js then js "String" else js "Array")
      ++ js " must contain "
      ++ (if exact then js "exactly"
          else if inclusive then (if big then js "at most" else js "at least")
               else (if big then js "less than" else js "more than"))
      ++ js " " ++ bound
      ++ (if (type =? js "string")%js then js " character(s)" else js " element(s)").

Definition bare_runtime : Runtime :=
  mkRuntime uuidRegex datetimeRegex (fun _ => []) integral_toString.

(** zod's default error map. *)
Definition defaultErrorMap (issue : ZodIssue) : jsstring :=
  match Zod.code issue with
  | invalid_type =>
      match received issue with
      | VString r =>
          if (r =? js "undefined")%js then js "Required"
          else js "Expected " ++ as_string (expected issue) ++ js ", received " ++ r
      | _ => js "Invalid input"
      end
  | invalid_literal =>
      js "Invalid literal value, expected "
        ++ match JSON_stringify bare_runtime (expected issue) with
           | Normal (Some s) => s
           | _ => []
           end
  | invalid_enum_value =>
      js "Invalid enum value. Expected "
        ++ match params issue with Options o => joinValues o | _ => [] end
        ++ js ", received '" ++ ToString bare_runtime (received issue) ++ js "'"
  | invalid_string =>
      js "Invalid "
        ++ match params issue with Validation n => n | _ => [] end
  | too_small =>
      match params issue with
      | SizeBound t b i e => size_message t (integral_toString b) i e false
      | _ => js "Invalid input"
      end
  | too_big =>
      match params issue with
      | SizeBound t b i e => size_message t (integral_toString b) i e true
      | _ => js "Invalid input"
      end
  end.

Definition zod3 : Runtime :=
  mkRuntime uuidRegex datetimeRegex defaultErrorMap integral_toString.

End Reference.

(* ------------------------------------------------------------------ *)
(** ** Sample entries *)

Module Samples.

Definition str (s : string) : value := VString (js s).
Definition num (z : Z) : value := VNumber (number_of_Z z).
Definition obj (props : list (string * value)) : value :=
  VObject (map (fun kv => (js (fst kv), snd kv)) props).

Definition task_content_with (context : value) (progress : Z)
           (rest : list (string * value)) : value :=
  obj ([ ("description", str "d"); ("goals", VArray []);
         ("progress", num progress); ("context", context);
         ("activeFiles", VArray []); ("workingDirectory", str "/") ]%string ++ rest).

Definition task_content (progress : Z) : value :=
  task_content_with (obj []) progress [].

(** The envelope keys before and after [taskId]. *)
Definition envelope (project branch : string) (taskId : list (string * value))
           (content : value) (rest : list (string * value)) : value :=
  obj ([ ("id", str "123e4567-e89b-12d3-a456-426614174000");
         ("type", str "TaskState");
         ("project", str project) ]%string
       ++ taskId
       ++ [ ("branch", str branch);
            ("timestamp", str "2025-01-24T10:00:00Z");
            ("status", str "draft");
            ("content", content) ]%string
       ++ rest).

Definition task_entry (project branch : string) (progress : Z)
           (rest : list (string * value)) : value :=
  envelope project branch [("taskId", VNull)]%string (task_content progress) rest.

Definition progress_error : ValidationError :=
  mkError (js "too_big") (js "Number must be less than or equal to 100")
          (Some [js "content"; js "progress"])
          (Some (mkContext VUndefined VUndefined)).

Definition unknown_type_entry : list (jsstring * value) :=
  map (fun kv => (js (fst kv), snd kv))
      [ ("id", str "123e4567-e89b-12d3-a456-426614174000");
        ("type", str "Note");
        ("project", str "ucp"); ("taskId", VNull); ("branch", str "main");
        ("timestamp", str "2025-01-24T10:00:00Z"); ("status", str "draft");
        ("content", task_content 150) ]%string.

(** The same candidate with the boolean [true] for its [type], and the
    error zod's default messages give it. *)
Definition boolean_type_entry : list (jsstring * value) :=
  map (fun kv => (js (fst kv), snd kv))
      [ ("id", str "123e4567-e89b-12d3-a456-426614174000");
        ("type", VBool true);
        ("project", str "ucp"); ("taskId", VNull); ("branch", str "main");
        ("timestamp", str "2025-01-24T10:00:00Z"); ("status", str "draft");
        ("content", task_content 150) ]%string.

Definition boolean_type_error : ValidationError :=
  mkError (js "invalid_type")
          (js "Expected 'TaskState' | 'CommitDelta' | 'ReasoningEntry' | 'SummaryCheckpoint' | 'BranchMeta', received boolean")
          (Some [js "type"])
          (Some (mkContext
                   (VString (js "boolean"))
                   (VString (js "'TaskState' | 'CommitDelta' | 'ReasoningEntry' | 'SummaryCheckpoint' | 'BranchMeta'")))).

Definition unknown_type_error : ValidationError :=
  mkError (js "invalid_enum_value")
          (js "Invalid enum value. Expected 'TaskState' | 'CommitDelta' | 'ReasoningEntry' | 'SummaryCheckpoint' | 'BranchMeta', received 'Note'")
          (Some [js "type"])
          (Some (mkContext (VString (js "Note")) VUndefined)).

(** A TaskState entry with a key the envelope does not declare, and with
    the data the validation returns for it. *)
Definition entry_with_unknown_key : value :=
  task_entry "ucp" "feature/x" 50 [("draftNotes", str "x")]%string.

Definition accepted_entry : value := task_entry "ucp" "feature/x" 50 [].

(** What the envelope schema returns for [entry_with_unknown_key]. *)
Definition unknown_key_props : list (jsstring * value) :=
  match accepted_entry with
  | VObject props => props
  | _ => []
  end.



(** A TaskState entry whose [content.context] holds a BigInt. *)
Definition bigint_entry (branch : string) (rest : list (string * value)) : value :=
  envelope "ucp" branch [("taskId", VNull)]%string
           (task_content_with (obj [("attempts", VBigInt 1)]%string) 5 []) rest.

Definition bigint_error : exn :=
  TypeError (js "Do not know how to serialize a BigInt").

Definition embedding_400_nan_at_3 : list value :=
  [num 1; num 1; num 1; VNumber NaN] ++ repeat (num 1) 396.

Definition nan_entry : value :=
  task_entry "ucp" "main" 5 [("embedding", VArray embedding_400_nan_at_3)]%string.



Definition nan_error : ValidationError :=
  mkError (js "invalid_type") (js "Expected number, received nan")
          (Some [js "embedding"; js "3"])
          (Some (mkContext (VString (js "nan")) (VString (js "number")))).

(** A string of 1,048,577 code units under a key that
    [TaskStateContentSchema] does not declare. *)
Definition padding : value := VString (repeat 97 (N.to_nat 1048577)).

Definition padded_entry : value :=
  envelope "ucp" "main" [("taskId", VNull)]%string
           (task_content_with (obj []) 5 [("attachment", padding)]%string) [].

(** A TaskState entry whose declared field [description] is a string of
    1,048,577 code units. *)
Definition oversized_entry : value :=
  envelope "ucp" "main" [("taskId", VNull)]%string
           (obj [ ("description", padding); ("goals", VArray []);
                  ("progress", num 5); ("context", obj []);
                  ("activeFiles", VArray []); ("workingDirectory", str "/") ]%string)
           [].

Definition long_string : jsstring := repeat 97 (N.to_nat 100001).

End Samples.

Import Reference Samples.

(* ------------------------------------------------------------------ *)
(** ** Notions the statements use *)

(** *** Results *)

(** [result.success] of a completed call; a call that threw has none. *)
Definition success_of (c : completion ValidationResult) : bool :=
  match c with
  | Normal r => success r
  | Throw _ => false
  end.

(** The error codes of a result, and of a completed call. *)
Definition codes (r : ValidationResult) : list jsstring :=
  map Validation.code (errors_or_empty r).

Definition codes_of (c : completion ValidationResult) : list jsstring :=
  match c with
  | Normal r => codes r
  | Throw _ => []
  end.

Definition has_code (c : string) (r : ValidationResult) : bool :=
  existsb (JsString.eqb (js c)) (codes r).

(** No error of the list has the code [c]. *)
Definition lacks (c : string) (errs : list ValidationError) : Prop :=
  existsb (JsString.eqb (js c)) (map Validation.code errs) = false.

(** A result as [ValidationResult] documents it: a success with its data
    and no errors, or a failure with a non-empty list of errors. *)
Definition well_formed (r : ValidationResult) : Prop :=
  (success r = true /\ errors r = None)
  \/ (success r = false /\ exists e errs, errors r = Some (e :: errs)).

(** *** The two phases of [validateMemoryEntry] *)

(** Phase 1 is the call of [validateTyped]: the entry passes it when the
    call returns [success: true], and the typed entry
    ([structureResult.data]) is what phase 2 validates. *)
Definition passes_phase1 (rt : Runtime) (entry : value) : bool :=
  success_of (validateTyped rt entry).

Definition validated_entry (rt : Runtime) (entry : value) : value :=
  match validateTyped rt entry with
  | Normal r => data r
  | Throw _ => VUndefined
  end.

(** The errors [validateMemoryEntry] has pushed when it reaches its last
    [if], for the validated entry [d] and the content validator's result. *)
Definition merged_errors (d : value) (contentResult : ValidationResult)
  : list ValidationError :=
  failed_errors (ProjectValidator_validate (as_string (get d (js "project"))))
  ++ failed_errors (BranchValidator_validate (as_string (get d (js "branch"))))
  ++ failed_errors contentResult
  ++ (if truthy (get d (js "embedding"))
      then failed_errors (EmbeddingValidator_validate (get d (js "embedding")))
      else []).

(** The byte length of [JSON.stringify(v)], when the call completes. *)
Definition serialized_size (rt : Runtime) (v : value) : option N :=
  match JSON_stringify rt v with
  | Normal s => Some (encoded_length s)
  | Throw _ => None
  end.

(** The value holds no BigInt. *)
Fixpoint bigint_free (v : value) : bool :=
  match v with
  | VBigInt _ => false
  | VArray items => forallb bigint_free items
  | VObject props => forallb (fun kv => bigint_free (snd kv)) props
  | _ => true
  end.

(** *** The envelope and its type *)

(** [type] is one of the five values of [MemoryEntryType]. *)
Definition known_type (type : value) : bool :=
  match type with
  | VString t => existsb (JsString.eqb t) MemoryEntryType
  | _ => false
  end.

(** The parsed type of [type] is [string] or [number]: the values that
    [z.nativeEnum] looks up among the enum's values; any other value is
    answered by its parsed type alone. *)
Definition enum_comparable (type : value) : bool :=
  (parsedType type =? js "string")%js || (parsedType type =? js "number")%js.

(** The issues of every field but [type] are empty: the candidate is
    envelope-shaped apart from its [type]. *)
Definition other_fields_valid (rt : Runtime) (props : list (jsstring * value)) : bool :=
  forallb (fun ks =>
             (fst ks =? js "type")%js
             || is_nil (snd (parse rt (snd ks) [PKey (fst ks)] (prop (fst ks) props))))
          MemoryEntryShape.

(** The schemas of the five [case]s of [validateByType]. *)
Definition variant_schemas : list schema :=
  [TaskStateSchema; CommitDeltaSchema; ReasoningEntrySchema;
   SummaryCheckpointSchema; BranchMetaSchema].

(** [MemoryEntrySchema.extend({ type, content })], key by key. *)
Definition variant_shape (t c : schema) : list (jsstring * schema) :=
  [ (js "id", ZString [SUuid]);
    (js "type", t);
    (js "project", ZString [SMin 1]);
    (js "taskId", ZNullable z_string);
    (js "branch", ZString [SMin 1]);
    (js "timestamp", z_datetime);
    (js "status", ZNativeEnum MemoryEntryStatus);
    (js "content", c);
    (js "metadata", ZOptional (ZRecord ZUnknown));
    (js "embedding", ZOptional (ZArray z_number));
    (js "tags", ZOptional (ZArray z_string)) ].

(** *** Schemas *)

(** An object literal has pairwise distinct keys, and no schema of
    [types/index.ts] declares a [__proto__] key. *)
Fixpoint distinct (keys : list jsstring) : bool :=
  match keys with
  | [] => true
  | k :: rest => negb (existsb (JsString.eqb k) rest) && distinct rest
  end.

Fixpoint wf (s : schema) : bool :=
  match s with
  | ZArray e | ZRecord e | ZOptional e | ZNullable e => wf e
  | ZTuple items => forallb wf items
  | ZObject shape =>
      distinct (map fst shape)
      && forallb (fun ks => negb (fst ks =? js "__proto__")%js && wf (snd ks)) shape
  | _ => true
  end.

(** What [s] returns as valid, [s'] accepts unchanged. *)
Definition carries (rt : Runtime) (s s' : schema) : Prop :=
  forall p v v' issues,
    parse rt s p v = (OK v', issues) -> parse rt s' p v' = (OK v', []).

(** The shape [S'] has the keys of [S], and accepts unchanged, field by
    field, what [S] returns. *)
Definition fields_carry (rt : Runtime) (S S' : list (jsstring * schema)) : Prop :=
  Forall2 (fun ks ks' => fst ks = fst ks' /\ carries rt (snd ks) (snd ks')) S S'.

(** *** Inputs and accepted entries *)

(** The value is an object that is neither [null] nor an array, what
    zod's [getParsedType] calls [object]. *)
Definition is_object (v : value) : bool :=
  match v with VObject _ => true | _ => false end.

(** The keys that [MemoryEntrySchema] declares without [.optional()]. *)
Definition is_optional (s : schema) : bool :=
  match s with ZOptional _ => true | _ => false end.

Definition required_keys : list jsstring :=
  map fst (filter (fun ks => negb (is_optional (snd ks))) MemoryEntryShape).

(** The keys whose schema is the same in the envelope and in its five
    variants: all but [type] and [content]. *)
Definition shared_keys : list jsstring :=
  filter (fun k => negb (k =? js "type")%js && negb (k =? js "content")%js)
         (map fst MemoryEntryShape).

(** A record as [z.record(z.unknown())] returns it: zod copies every
    property but [__proto__]. *)
Definition without_proto (v : value) : value :=
  match v with
  | VObject props =>
      VObject (filter (fun kv => negb (fst kv =? js "__proto__")%js) props)
  | _ => v
  end.

(** The content schema of each [case] of [validateByType]. *)
Definition content_schema_of_type (type : value) : option schema :=
  match type with
  | VString t =>
      if (t =? TASK_STATE)%js then Some TaskStateContentSchema
      else if (t =? COMMIT_DELTA)%js then Some CommitDeltaContentSchema
      else if (t =? REASONING_ENTRY)%js then Some ReasoningEntryContentSchema
      else if (t =? SUMMARY_CHECKPOINT)%js then Some SummaryCheckpointContentSchema
      else if (t =? BRANCH_META)%js then Some BranchMetaContentSchema
      else None
  | _ => None
  end.

(** The schema accepts [undefined]: a key declared with it may be
    missing from the object. *)
Fixpoint accepts_undefined (s : schema) : bool :=
  match s with
  | ZOptional _ | ZUnknown => true
  | ZNullable inner => accepts_undefined inner
  | _ => false
  end.

(** The path of an error starts with the key [k]. *)
Definition path_under (k : string) (e : ValidationError) : bool :=
  match Validation.path e with
  | Some (k' :: _) => (k' =? js k)%js
  | _ => false
  end.

(** The number is plus or minus infinity. *)
Definition is_infinite (v : value) : bool :=
  match v with VNumber (S754_infinity _) => true | _ => false end.

(* ================================================================== *)
(** * Properties *)

Unset Implicit Arguments.

(** Closed statements about concrete entries are settled by evaluation. *)
Ltac by_evaluation :=
  repeat match goal with |- _ /\ _ => split end; vm_compute; reflexivity.

(** No zod issue code is spelled like a code of the field validators. *)
Ltac not_a_zod_code := intros k; destruct k; reflexivity.

(** ** Strings *)

Lemma jseqb_eq (a b : jsstring) : (a =? b)%js = true <-> a = b.
Proof.
  revert b; induction a as [|x a IH]; intros [|y b]; simpl;
    try (split; [discriminate | discriminate]); try tauto.
  rewrite andb_true_iff, N.eqb_eq, IH.
  split; [intros [-> ->]; reflexivity | intros H; inversion H; auto].
Qed.

Lemma jseqb_refl (a : jsstring) : (a =? a)%js = true.
Proof. apply jseqb_eq; reflexivity. Qed.

Lemma jseqb_neq (a b : jsstring) : (a =? b)%js = false <-> a <> b.
Proof.
  rewrite <- jseqb_eq. destruct (a =? b)%js; split; congruence.
Qed.

Lemma jseqb_sym (a b : jsstring) : (a =? b)%js = (b =? a)%js.
Proof.
  destruct (b =? a)%js eqn:E.
  - apply jseqb_eq in E; subst; apply jseqb_refl.
  - apply jseqb_neq in E; apply jseqb_neq; congruence.
Qed.

Lemma distinct_NoDup (keys : list jsstring) : distinct keys = true -> NoDup keys.
Proof.
  induction keys as [|k rest IH]; simpl; intros H; constructor.
  - apply andb_true_iff in H as [H _].
    intros Hin. apply negb_true_iff in H.
    assert (existsb (JsString.eqb k) rest = true) as E
        by (apply existsb_exists; exists k; split; [assumption | apply jseqb_refl]).
    congruence.
  - apply IH. apply andb_true_iff in H; tauto.
Qed.

(** ** Merging parse results *)

Lemma with_status_OK (d : bool) (v v' : value) :
  with_status d v = OK v' -> d = false /\ v' = v.
Proof. destruct d; simpl; intros H; inversion H; auto. Qed.

Lemma mergeArray_OK (results : list ParseReturn) (v : value) :
  mergeArray results = OK v ->
  Forall (fun r => r = OK (value_of r)) results /\ v = VArray (map value_of results).
Proof.
  unfold mergeArray. intros H.
  destruct (existsb is_aborted results) eqn:Ea; [discriminate|].
  apply with_status_OK in H as [Ed ->]. split; [|reflexivity].
  apply Forall_forall. intros r Hr.
  destruct r as [x|x|]; simpl; auto.
  - assert (existsb is_dirty results = true) by (apply existsb_exists; eauto). congruence.
  - assert (existsb is_aborted results = true) by (apply existsb_exists; eauto). congruence.
Qed.

Lemma mergeArray_all_OK (results : list ParseReturn) :
  Forall (fun r => r = OK (value_of r)) results ->
  mergeArray results = OK (VArray (map value_of results)).
Proof.
  intros H. unfold mergeArray.
  assert (existsb is_aborted results = false) as ->.
  { induction H as [|r l Hr _ IH]; simpl; auto. rewrite Hr, IH. reflexivity. }
  assert (existsb is_dirty results = false) as ->.
  { induction H as [|r l Hr _ IH]; simpl; auto. rewrite Hr, IH. reflexivity. }
  reflexivity.
Qed.

Lemma mergeObjectSync_OK (pairs : list pair) (v : value) :
  mergeObjectSync pairs = OK v ->
  Forall (fun p => snd (fst p) = OK (value_of (snd (fst p)))) pairs
  /\ v = VObject (flat_map pair_entry pairs).
Proof.
  unfold mergeObjectSync. intros H.
  destruct (existsb (fun p => is_aborted (snd (fst p))) pairs) eqn:Ea; [discriminate|].
  apply with_status_OK in H as [Ed ->]. split; [|reflexivity].
  apply Forall_forall. intros [[k r] a] Hr. simpl.
  destruct r as [x|x|]; simpl; auto.
  - assert (existsb (fun p => is_dirty (snd (fst p))) pairs = true)
      by (apply existsb_exists; eexists; split; [eassumption | reflexivity]).
    congruence.
  - assert (existsb (fun p => is_aborted (snd (fst p))) pairs = true)
      by (apply existsb_exists; eexists; split; [eassumption | reflexivity]).
    congruence.
Qed.

Lemma mergeObjectSync_all_OK (pairs : list pair) :
  Forall (fun p => snd (fst p) = OK (value_of (snd (fst p)))) pairs ->
  mergeObjectSync pairs = OK (VObject (flat_map pair_entry pairs)).
Proof.
  intros H. unfold mergeObjectSync.
  assert (existsb (fun p => is_aborted (snd (fst p))) pairs = false) as ->.
  { induction H as [|r l Hr _ IH]; simpl; auto. rewrite Hr, IH. reflexivity. }
  assert (existsb (fun p => is_dirty (snd (fst p))) pairs = false) as ->.
  { induction H as [|r l Hr _ IH]; simpl; auto. rewrite Hr, IH. reflexivity. }
  reflexivity.
Qed.

(** A property of the merged object, by key: present with the parsed value
    when that is defined or the key was in the input. *)
Lemma lookup_merged (pairs : list pair) (k : jsstring) (r : ParseReturn) (a : bool) :
  NoDup (map (fun p => fst (fst p)) pairs) ->
  In (k, r, a) pairs ->
  k <> js "__proto__" ->
  lookup k (flat_map pair_entry pairs)
  = if negb (is_undefined (value_of r)) || a then Some (value_of r) else None.
Proof.
  intros Hnd Hin Hk.
  assert (forall ps, ~ In k (map (fun p => fst (fst p)) ps) ->
                     lookup k (flat_map pair_entry ps) = None) as Hnone.
  { induction ps as [|[[k' r'] a'] ps IH]; simpl; intros Hn; auto.
    destruct (negb (k' =? js "__proto__")%js && _); simpl.
    - destruct (k' =? k)%js eqn:E.
      + apply jseqb_eq in E. subst. tauto.
      + apply IH. tauto.
    - apply IH. tauto. }
  induction pairs as [|[[k' r'] a'] ps IH]; simpl in *; [tauto|].
  inversion Hnd as [|? ? Hnotin Hnd']; subst.
  destruct Hin as [Heq | Hin].
  - inversion Heq; subst.
    apply jseqb_neq in Hk. rewrite Hk. simpl.
    destruct (negb (is_undefined (value_of r)) || a); simpl.
    + rewrite jseqb_refl. reflexivity.
    + apply Hnone. assumption.
  - assert (k' <> k) as Hne.
    { intros ->. apply Hnotin. apply in_map_iff. exists (k, r, a). auto. }
    destruct (negb (k' =? js "__proto__")%js && _); simpl.
    + apply jseqb_neq in Hne. rewrite Hne. apply IH; assumption.
    + apply IH; assumption.
Qed.


(** ** Re-parsing what a schema returned *)

Section Reparse.
Variable rt : Runtime.

Lemma fst_parse_OK (s : schema) (p : list PathElem) (v v' : value) :
  fst (parse rt s p v) = OK v' -> parse rt s p v = (OK v', snd (parse rt s p v)).
Proof. destruct (parse rt s p v); simpl; intros ->; reflexivity. Qed.

Lemma value_of_OK (l : list value) : map value_of (map OK l) = l.
Proof. induction l; simpl; congruence. Qed.

Lemma carries_string (checks : list StringCheck) :
  carries rt (ZString checks) (ZString checks).
Proof.
  intros p v v' issues H. simpl in *.
  destruct v; try discriminate.
  destruct (flat_map (stringCheck rt p s) checks) eqn:E; simpl in H;
    inversion H; subst. simpl. rewrite E. reflexivity.
Qed.

Lemma carries_number (checks : list NumberCheck) :
  carries rt (ZNumber checks) (ZNumber checks).
Proof.
  intros p v v' issues H. simpl in *.
  destruct v; try discriminate.
  destruct (isNaN x) eqn:En; [discriminate|].
  destruct (flat_map (numberCheck p x) checks) eqn:E; simpl in H;
    inversion H; subst. simpl. rewrite En, E. reflexivity.
Qed.

Lemma carries_array (elt elt' : schema) :
  carries rt elt elt' -> carries rt (ZArray elt) (ZArray elt').
Proof.
  intros IH p v v' issues H. simpl in H.
  destruct v; try discriminate.
  injection H as Hm _.
  apply mergeArray_OK in Hm as [Hall ->]. simpl.
  assert (forall l i,
    Forall (fun r => r = OK (value_of r))
           (mapi_from (fun i x => fst (parse rt elt (p ++ [PIndex i]) x)) i l) ->
    mapi_from (fun i x => fst (parse rt elt' (p ++ [PIndex i]) x)) i
      (map value_of (mapi_from (fun i x => fst (parse rt elt (p ++ [PIndex i]) x)) i l))
    = map OK (map value_of
        (mapi_from (fun i x => fst (parse rt elt (p ++ [PIndex i]) x)) i l))
    /\ List.concat (mapi_from (fun i x => snd (parse rt elt' (p ++ [PIndex i]) x)) i
      (map value_of (mapi_from (fun i x => fst (parse rt elt (p ++ [PIndex i]) x)) i l)))
       = []) as Hgo.
  { induction l as [|x l IHl]; intros i Hf; simpl in *; [auto|].
    inversion Hf as [|? ? Hx Hrest]; subst.
    apply fst_parse_OK in Hx. apply IH in Hx.
    destruct (IHl (i + 1) Hrest) as [E1 E2].
    rewrite Hx. simpl. rewrite E1, E2. auto. }
  destruct (Hgo items 0 Hall) as [E1 E2].
  rewrite E1, E2. f_equal.
  rewrite mergeArray_all_OK.
  - rewrite value_of_OK. reflexivity.
  - apply Forall_forall. intros r Hr. apply in_map_iff in Hr as [x [<- _]]. reflexivity.
Qed.

Lemma carries_optional (inner : schema) :
  carries rt inner inner -> carries rt (ZOptional inner) (ZOptional inner).
Proof.
  intros IH p v v' issues H. simpl in *.
  destruct v; try (inversion H; subst; reflexivity);
    destruct v'; try reflexivity; eapply IH; eassumption.
Qed.

Lemma carries_nullable (inner : schema) :
  carries rt inner inner -> carries rt (ZNullable inner) (ZNullable inner).
Proof.
  intros IH p v v' issues H. simpl in *.
  destruct v; try (inversion H; subst; reflexivity);
    destruct v'; try reflexivity; eapply IH; eassumption.
Qed.

Lemma carries_literal (lit : jsstring) : carries rt (ZLiteral lit) (ZLiteral lit).
Proof.
  intros p v v' issues H. simpl in *.
  destruct v; try discriminate.
  destruct (s =? lit)%js eqn:E; inversion H; subst. simpl. rewrite E. reflexivity.
Qed.

Lemma carries_enum (vals : list jsstring) : carries rt (ZEnum vals) (ZEnum vals).
Proof.
  intros p v v' issues H. simpl in *.
  destruct v; try discriminate.
  destruct (existsb (JsString.eqb s) vals) eqn:E; inversion H; subst.
  simpl. rewrite E. reflexivity.
Qed.

Lemma carries_nativeEnum (vals : list jsstring) :
  carries rt (ZNativeEnum vals) (ZNativeEnum vals).
Proof.
  intros p v v' issues H. simpl in *.
  destruct v; try discriminate.
  - destruct (isNaN x); discriminate.
  - destruct (existsb (JsString.eqb s) vals) eqn:E; inversion H; subst.
    simpl. rewrite E. reflexivity.
Qed.

Lemma pair_entry_alwaysSet (k : jsstring) (r : ParseReturn) (a : bool) :
  pair_entry (k, r, negb (is_undefined (value_of r)) || a) = pair_entry (k, r, a).
Proof.
  unfold pair_entry.
  destruct (negb (k =? js "__proto__")%js), (negb (is_undefined (value_of r))), a;
    reflexivity.
Qed.

Lemma carries_record (vt vt' : schema) :
  carries rt vt vt' -> carries rt (ZRecord vt) (ZRecord vt').
Proof.
  intros IH p v v' issues H. simpl in H.
  destruct v; try discriminate.
  injection H as Hm _.
  apply mergeObjectSync_OK in Hm as [Hall ->]. simpl.
  set (first := fun kv : jsstring * value =>
                  (fst kv, fst (parse rt vt (p ++ [PKey (fst kv)]) (snd kv)), true)) in *.
  set (second := fun kv : jsstring * value =>
                   (fst kv, fst (parse rt vt' (p ++ [PKey (fst kv)]) (snd kv)), true)).
  assert (Forall (fun q : pair => snd (fst q) = OK (value_of (snd (fst q))))
                 (map second (flat_map pair_entry (map first props)))
          /\ flat_map pair_entry (map second (flat_map pair_entry (map first props)))
             = flat_map pair_entry (map first props)
          /\ flat_map (fun kv => snd (parse rt vt' (p ++ [PKey (fst kv)]) (snd kv)))
                      (flat_map pair_entry (map first props)) = []) as (H1 & H2 & H3).
  { induction props as [|[k x] props IHp]; simpl; [auto|].
    inversion Hall as [|? ? Hx Hrest]; subst. simpl in Hx.
    destruct (IHp Hrest) as (H1 & H2 & H3).
    destruct (k =? js "__proto__")%js eqn:Ek; simpl; [auto|].
    rewrite orb_true_r. simpl.
    apply fst_parse_OK in Hx. apply IH in Hx. rewrite Hx. simpl.
    rewrite Ek, orb_true_r. simpl. rewrite H2, H3.
    repeat split; auto. constructor; [|assumption].
    unfold second. simpl. rewrite Hx. reflexivity. }
  rewrite mergeObjectSync_all_OK by assumption.
  rewrite H2, H3. reflexivity.
Qed.

Lemma zipi_from_length {A B C} (f : N -> A -> B -> C) (la : list A) (lb : list B) (i : N) :
  List.length (zipi_from f i la lb) = Nat.min (List.length la) (List.length lb).
Proof.
  revert lb i; induction la as [|a la IH]; intros [|b lb] i; simpl; auto.
Qed.

Lemma carries_tuple (items : list schema) :
  Forall (fun s => carries rt s s) items -> carries rt (ZTuple items) (ZTuple items).
Proof.
  intros IH p v v' issues H. simpl in H.
  destruct v as [| | | | | |data|]; try discriminate.
  destruct (array_length data <? N.of_nat (List.length items)) eqn:Eshort;
    [discriminate|].
  injection H as Hm _.
  set (first := fun i si x => fst (parse rt si (p ++ [PIndex i]) x)) in *.
  destruct (mergeArray (zipi_from first 0 items data)) as [a| |] eqn:Em;
    try discriminate.
  apply with_status_OK in Hm as [Hextra ->].
  apply mergeArray_OK in Em as [Hall ->].
  destruct (N.of_nat (List.length items) <? array_length data) eqn:Elong;
    [discriminate|].
  apply N.ltb_ge in Eshort, Elong. unfold array_length in *.
  assert (List.length data = List.length items) as Hlen by lia.
  assert (forall its dat i,
    Forall (fun s => carries rt s s) its ->
    Forall (fun r => r = OK (value_of r)) (zipi_from first i its dat) ->
    zipi_from first i its (map value_of (zipi_from first i its dat))
    = map OK (map value_of (zipi_from first i its dat))
    /\ List.concat
         (zipi_from (fun i si x => snd (parse rt si (p ++ [PIndex i]) x)) i its
                    (map value_of (zipi_from first i its dat))) = []) as Hgo.
  { induction its as [|si its IHi]; intros [|x dat] i Hc Hf; simpl in *; auto.
    inversion Hc as [|? ? Hsi Hits]; subst.
    inversion Hf as [|? ? Hx Hrest]; subst.
    unfold first in Hx at 1. apply fst_parse_OK in Hx. apply Hsi in Hx.
    destruct (IHi dat (i + 1) Hits Hrest) as [E1 E2].
    unfold first at 1. rewrite Hx. simpl. rewrite E1, E2. auto. }
  destruct (Hgo items data 0 IH Hall) as [E1 E2].
  simpl. unfold array_length.
  rewrite length_map, zipi_from_length, Hlen, Nat.min_id.
  rewrite N.ltb_irrefl. fold first. rewrite E1, E2. simpl.
  rewrite mergeArray_all_OK.
  - rewrite value_of_OK. reflexivity.
  - apply Forall_forall. intros r Hr. apply in_map_iff in Hr as [x [<- _]]. reflexivity.
Qed.

Lemma carries_object (S S' : list (jsstring * schema)) :
  NoDup (map fst S) ->
  Forall (fun ks => fst ks <> js "__proto__") S ->
  fields_carry rt S S' ->
  carries rt (ZObject S) (ZObject S').
Proof.
  intros Hnd Hproto HR p v v' issues H. simpl in H.
  destruct v as [| | | | | | |props]; try discriminate.
  injection H as Hm _.
  set (F := fun ks : jsstring * schema =>
              parse rt (snd ks) (p ++ [PKey (fst ks)]) (prop (fst ks) props)) in *.
  set (pairs := map (fun ks => (fst ks, fst (F ks), has (fst ks) props)) S) in *.
  apply mergeObjectSync_OK in Hm as [Hall ->].
  set (out := flat_map pair_entry pairs).
  set (G := fun ks : jsstring * schema =>
              parse rt (snd ks) (p ++ [PKey (fst ks)]) (prop (fst ks) out)).
  change ((mergeObjectSync
             (@map _ pair (fun ks => (fst ks, fst (G ks), has (fst ks) out)) S'),
           flat_map (fun ks => snd (G ks)) S')
          = (OK (VObject out), [])).
  (* what the merged object holds at each key of the shape *)
  assert (forall ks, In ks S ->
            fst (F ks) = OK (value_of (fst (F ks)))
            /\ prop (fst ks) out = value_of (fst (F ks))
            /\ has (fst ks) out
               = negb (is_undefined (value_of (fst (F ks)))) || has (fst ks) props)
    as Hfield.
  { intros ks Hin.
    assert (In (fst ks, fst (F ks), has (fst ks) props) pairs) as Hp
        by (unfold pairs; apply in_map_iff; exists ks; auto).
    split.
    - rewrite Forall_forall in Hall. apply (Hall _ Hp).
    - remember (has (fst ks) props) as a eqn:Ea.
      assert (lookup (fst ks) out
              = if negb (is_undefined (value_of (fst (F ks)))) || a
                then Some (value_of (fst (F ks))) else None) as Hl.
      { apply lookup_merged with (a := a).
        - unfold pairs. rewrite map_map. simpl. exact Hnd.
        - exact Hp.
        - rewrite Forall_forall in Hproto. apply Hproto. exact Hin. }
      unfold prop, has. rewrite Hl.
      destruct (negb (is_undefined (value_of (fst (F ks))))) eqn:Eu; simpl.
      + split; reflexivity.
      + apply negb_false_iff in Eu.
        destruct a; simpl; split; try reflexivity.
        destruct (value_of (fst (F ks))); try discriminate; reflexivity. }
  assert (forall S0 S0',
    fields_carry rt S0 S0' -> (forall ks, In ks S0 -> In ks S) ->
    @map _ pair (fun ks => (fst ks, fst (G ks), has (fst ks) out)) S0'
    = @map _ pair (fun ks => (fst ks, fst (F ks),
                      negb (is_undefined (value_of (fst (F ks)))) || has (fst ks) props)) S0
    /\ flat_map (fun ks => snd (G ks)) S0' = []) as Hgo.
  { induction 1 as [|ks ks' S0 S0' [Hk Hc] _ IH]; intros Hsub; simpl; [auto|].
    destruct IH as [E1 E2]; [intros; apply Hsub; right; assumption|].
    destruct (Hfield ks) as (Hok & Hprop & Hhas); [apply Hsub; left; reflexivity|].
    assert (G ks' = (OK (value_of (fst (F ks))), [])) as HG.
    { unfold G. rewrite <- Hk, Hprop.
      apply (Hc (p ++ [PKey (fst ks)]) (prop (fst ks) props) _ (snd (F ks))).
      apply fst_parse_OK. exact Hok. }
    rewrite HG, E1, E2. simpl. rewrite <- Hk, Hhas, <- Hok. auto. }
  destruct (Hgo S S' HR (fun ks H => H)) as [E1 E2].
  rewrite E1, E2. f_equal.
  rewrite mergeObjectSync_all_OK.
  - f_equal. f_equal. unfold out, pairs. clear.
    induction S as [|ks S IH]; simpl; [reflexivity|].
    rewrite IH. f_equal. apply pair_entry_alwaysSet.
  - apply Forall_forall. intros q Hq. apply in_map_iff in Hq as [ks [<- Hin]].
    simpl. apply (Hfield ks Hin).
Qed.

Lemma wf_object_keys (shape : list (jsstring * schema)) :
  wf (ZObject shape) = true ->
  NoDup (map fst shape) /\ Forall (fun ks => fst ks <> js "__proto__") shape
  /\ Forall (fun ks => wf (snd ks) = true) shape.
Proof.
  simpl. intros H. apply andb_true_iff in H as [Hd Hf].
  split; [apply distinct_NoDup; assumption|].
  rewrite forallb_forall in Hf.
  split; apply Forall_forall; intros ks Hin; specialize (Hf ks Hin);
    apply andb_true_iff in Hf as [Hp Hw]; [|assumption].
  apply negb_true_iff in Hp. apply jseqb_neq. assumption.
Qed.

(** Parsing is idempotent on what it accepts. *)
Theorem parse_idempotent (s : schema) :
  wf s = true -> carries rt s s.
Proof.
  induction s as [checks|checks| |lit|vals|vals|elt IH|items IH|vt IH|shape IH
                 |inner IH|inner IH] using schema_ind; intros Hwf.
  - apply carries_string.
  - apply carries_number.
  - intros p v v' issues H. simpl in *. inversion H; subst. reflexivity.
  - apply carries_literal.
  - apply carries_enum.
  - apply carries_nativeEnum.
  - apply carries_array. auto.
  - apply carries_tuple. simpl in Hwf. rewrite forallb_forall in Hwf.
    rewrite Forall_forall in *. intros s Hin. apply IH; auto.
  - apply carries_record. auto.
  - destruct (wf_object_keys _ Hwf) as (Hnd & Hproto & Hsub).
    apply carries_object; auto.
    clear Hnd Hproto Hwf.
    induction shape as [|ks shape IHs]; constructor.
    + inversion IH as [|? ? Hk _]; inversion Hsub as [|? ? Hw _]; subst.
      split; [reflexivity | apply Hk, Hw].
    + inversion IH; inversion Hsub; subst. apply IHs; assumption.
  - apply carries_optional. auto.
  - apply carries_nullable. auto.
Qed.

End Reparse.


(** ** The fields of a parsed object *)

Section Fields.
Variable rt : Runtime.

Lemma parse_object_VObject (S : list (jsstring * schema)) (p : list PathElem)
      (v d : value) (issues : list ZodIssue) :
  parse rt (ZObject S) p v = (OK d, issues) ->
  exists props out, v = VObject props /\ d = VObject out.
Proof.
  simpl. destruct v as [| | | | | | |props]; try discriminate.
  intros H. injection H as Hm _.
  apply mergeObjectSync_OK in Hm as [_ ->]. eauto.
Qed.

(** Each key of the shape holds, in the parsed object, what its schema
    returned for the input's value at that key. *)
Lemma parse_object_field (S : list (jsstring * schema)) (p : list PathElem)
      (props : list (jsstring * value)) (d : value) (issues : list ZodIssue)
      (k : jsstring) (s : schema) :
  NoDup (map fst S) ->
  Forall (fun ks => fst ks <> js "__proto__") S ->
  parse rt (ZObject S) p (VObject props) = (OK d, issues) ->
  In (k, s) S ->
  fst (parse rt s (p ++ [PKey k]) (prop k props)) = OK (get d k).
Proof.
  intros Hnd Hproto H Hin. simpl in H.
  injection H as Hm _.
  apply mergeObjectSync_OK in Hm as [Hall ->].
  set (r := fst (parse rt s (p ++ [PKey k]) (prop k props))).
  match type of Hall with Forall _ ?ps => set (pairs := ps) in * end.
  assert (In (k, r, has k props) pairs) as Hp.
  { unfold pairs. apply in_map_iff. exists (k, s). auto. }
  assert (r = OK (value_of r)) as Hr.
  { rewrite Forall_forall in Hall. apply (Hall _ Hp). }
  assert (lookup k (flat_map pair_entry pairs)
          = if negb (is_undefined (value_of r)) || has k props
            then Some (value_of r) else None) as Hl.
  { apply lookup_merged with (a := has k props); auto.
    - unfold pairs. rewrite map_map. exact Hnd.
    - rewrite Forall_forall in Hproto. apply (Hproto (k, s) Hin). }
  rewrite Hr. f_equal. simpl. unfold prop. rewrite Hl.
  destruct (negb (is_undefined (value_of r))) eqn:Eu; simpl; [reflexivity|].
  apply negb_false_iff in Eu.
  destruct (has k props); [reflexivity|].
  destruct (value_of r); try discriminate; reflexivity.
Qed.

Lemma carries_literal_nativeEnum (lit : jsstring) (vals : list jsstring) :
  existsb (JsString.eqb lit) vals = true ->
  carries rt (ZLiteral lit) (ZNativeEnum vals).
Proof.
  intros Hin p v v' issues H. simpl in *.
  destruct v; try discriminate.
  destruct (s =? lit)%js eqn:E; inversion H; subst.
  apply jseqb_eq in E. subst. simpl. rewrite Hin. reflexivity.
Qed.

Lemma carries_object_record (S : list (jsstring * schema)) :
  carries rt (ZObject S) (ZRecord ZUnknown).
Proof.
  intros p v v' issues H. simpl in H.
  destruct v as [| | | | | | |props]; try discriminate.
  injection H as Hm _.
  apply mergeObjectSync_OK in Hm as [_ ->].
  match goal with |- context [flat_map pair_entry ?ps] => generalize ps end.
  intros pairs. simpl.
  assert (forall out : list (jsstring * value),
            Forall (fun kv => (fst kv =? js "__proto__")%js = false) out ->
            flat_map pair_entry (map (fun kv => (fst kv, OK (snd kv), true)) out) = out)
    as Hsame.
  { induction out as [|[k x] out IH]; intros Hf; [reflexivity|].
    inversion Hf as [|? ? Hk Hrest]; subst. simpl in *.
    rewrite Hk, orb_true_r. simpl. rewrite IH; auto. }
  assert (Forall (fun kv : jsstring * value => (fst kv =? js "__proto__")%js = false)
                 (flat_map pair_entry pairs)) as Hnp.
  { induction pairs as [|[[k r] a] pairs IH]; simpl; [constructor|].
    destruct (k =? js "__proto__")%js eqn:Ek; simpl; [assumption|].
    destruct (negb (is_undefined (value_of r)) || a); simpl; [|assumption].
    constructor; assumption. }
  rewrite mergeObjectSync_all_OK.
  - rewrite (Hsame _ Hnp). f_equal. clear.
    generalize (flat_map pair_entry pairs).
    intros out; induction out; simpl; auto.
  - apply Forall_forall. intros q Hq. apply in_map_iff in Hq as [kv [<- _]]. reflexivity.
Qed.

End Fields.


(** ** The envelope shape and its variants *)

Lemma extend_variant (t c : schema) :
  extend MemoryEntryShape [(js "type", t); (js "content", c)] = variant_shape t c.
Proof. reflexivity. Qed.

Lemma MemoryEntryShape_variant :
  MemoryEntryShape = variant_shape (ZNativeEnum MemoryEntryType) (ZRecord ZUnknown).
Proof. reflexivity. Qed.

Lemma variant_shape_keys (t c : schema) :
  NoDup (map fst (variant_shape t c))
  /\ Forall (fun ks => fst ks <> js "__proto__") (variant_shape t c).
Proof.
  split.
  - apply distinct_NoDup. reflexivity.
  - repeat constructor; apply jseqb_neq; reflexivity.
Qed.

(** The schema the [switch] selects is the extension of the envelope by the
    literal of the type and an object schema for the content. *)
Lemma schema_of_type_inv (type : value) (T : schema) :
  schema_of_type type = Some T ->
  exists name cshape,
    type = VString name
    /\ existsb (JsString.eqb name) MemoryEntryType = true
    /\ T = ZObject (variant_shape (ZLiteral name) (ZObject cshape))
    /\ wf T = true.
Proof.
  unfold schema_of_type. destruct type as [| | | | |t| |]; try discriminate.
  destruct (t =? TASK_STATE)%js eqn:E1;
    [|destruct (t =? COMMIT_DELTA)%js eqn:E2;
      [|destruct (t =? REASONING_ENTRY)%js eqn:E3;
        [|destruct (t =? SUMMARY_CHECKPOINT)%js eqn:E4;
          [|destruct (t =? BRANCH_META)%js eqn:E5; [|discriminate]]]]];
    intros H; injection H as <-;
    match goal with E : (t =? _)%js = true |- _ => apply jseqb_eq in E; subst t end;
    eexists; eexists; (split; [reflexivity|]); (split; [reflexivity|]);
    split; reflexivity.
Qed.

Section Phases.
Variable rt : Runtime.

(** [validate], by the outcome of the parse. *)
Lemma validate_eq (entry : value) :
  validate rt entry =
  match parse rt MemoryEntrySchema [] entry with
  | (OK d, _) => Normal (Success d)
  | (_, []) =>
      Throw (TypeError (js "Cannot read properties of undefined (reading 'map')"))
  | (_, issues) => Normal (Failure (map (issue_error rt) issues))
  end.
Proof.
  unfold validate, zod_parse.
  destruct (parse rt MemoryEntrySchema [] entry) as [[d|d|] [|i issues]]; reflexivity.
Qed.

Lemma validateByType_eq (props : list (jsstring * value)) (T : schema) :
  schema_of_type (prop (js "type") props) = Some T ->
  validateByType rt (VObject props) =
  match parse rt T [] (VObject props) with
  | (OK d, _) => Normal (Success d)
  | (_, []) =>
      Throw (TypeError (js "Cannot read properties of undefined (reading 'map')"))
  | (_, issues) => Normal (Failure (map (issue_error rt) issues))
  end.
Proof.
  intros HT. unfold validateByType. simpl. rewrite HT. unfold zod_parse.
  destruct (parse rt T [] (VObject props)) as [[d|d|] [|i issues]]; reflexivity.
Qed.

(** A result with [success = true] is [{ success: true, data }]. *)
Lemma validate_success (entry : value) (r : ValidationResult) :
  validate rt entry = Normal r -> success r = true ->
  exists props issues,
    parse rt MemoryEntrySchema [] entry = (OK (VObject props), issues)
    /\ r = Success (VObject props).
Proof.
  rewrite validate_eq. intros H Hs.
  destruct (parse rt MemoryEntrySchema [] entry) as [[d|d|] issues] eqn:E.
  - destruct (parse_object_VObject rt MemoryEntryShape _ _ _ _ E) as (props & out & _ & ->).
    inversion H; subst. eauto.
  - destruct issues; inversion H; subst; discriminate.
  - destruct issues; inversion H; subst; discriminate.
Qed.

(** What passing phase 1 means: the envelope parse returned [d1], the
    [switch] chose the schema [T] of [d1.type], and [T] returned [d]. *)
Lemma validateTyped_success (entry : value) (r : ValidationResult) :
  validateTyped rt entry = Normal r -> success r = true ->
  exists props1 T out issues1 issues2,
    parse rt MemoryEntrySchema [] entry = (OK (VObject props1), issues1)
    /\ schema_of_type (prop (js "type") props1) = Some T
    /\ parse rt T [] (VObject props1) = (OK (VObject out), issues2)
    /\ r = Success (VObject out).
Proof.
  unfold validateTyped. intros H Hs.
  destruct (validate rt entry) as [r1|] eqn:E1; [|discriminate].
  simpl in H.
  destruct (success r1) eqn:Es1.
  - destruct (validate_success _ _ E1 Es1) as (props1 & issues1 & Hp1 & ->).
    simpl in H.
    destruct (schema_of_type (prop (js "type") props1)) as [T|] eqn:ET.
    + rewrite (validateByType_eq _ _ ET) in H.
      destruct (parse rt T [] (VObject props1)) as [[d|d|] issues2] eqn:E2.
      * destruct (schema_of_type_inv _ _ ET) as (name & cshape & _ & _ & HT & _).
        pose proof E2 as E2'. rewrite HT in E2'.
        destruct (parse_object_VObject rt _ _ _ _ _ E2') as (? & out & _ & ->).
        clear HT E2'.
        inversion H; subst. exists props1, T, out, issues1, issues2. auto.
      * destruct issues2; inversion H; subst; discriminate.
      * destruct issues2; inversion H; subst; discriminate.
    + unfold validateByType in H. simpl in H. rewrite ET in H.
      simpl in H. inversion H; subst. discriminate.
  - simpl in H. inversion H; subst. congruence.
Qed.

End Phases.


(** ** The two phases of [validateMemoryEntry] *)

Section Aggregator.
Variable rt : Runtime.

(** Phase 1 failed: its result is returned as it is. *)
Lemma phase1_failure (entry : value) (r : ValidationResult) :
  validateTyped rt entry = Normal r -> success r = false ->
  validateMemoryEntry rt entry = Normal r.
Proof.
  intros H Hs. unfold validateMemoryEntry. rewrite H. simpl. rewrite Hs. reflexivity.
Qed.

(** Phase 1 passed with [d]: the field validators run on [d]. *)
Lemma phase2 (entry : value) (out : list (jsstring * value)) :
  validateTyped rt entry = Normal (Success (VObject out)) ->
  validateMemoryEntry rt entry =
  (contentResult <- ContentSizeValidator_validate rt (prop (js "content") out) ;;
   Normal (finish (merged_errors (VObject out) contentResult) (VObject out))).
Proof.
  intros H. unfold validateMemoryEntry. rewrite H. reflexivity.
Qed.

(** A structural failure is the result of phase 1. *)
Lemma validate_failure (entry : value) (r : ValidationResult) :
  validate rt entry = Normal r -> success r = false ->
  validateTyped rt entry = Normal r.
Proof.
  intros H Hs. unfold validateTyped. rewrite H. simpl. rewrite Hs. reflexivity.
Qed.

Lemma variant_carries_envelope (name : jsstring) (cshape : list (jsstring * schema)) :
  existsb (JsString.eqb name) MemoryEntryType = true ->
  fields_carry rt (variant_shape (ZLiteral name) (ZObject cshape)) MemoryEntryShape.
Proof.
  intros Hname. rewrite MemoryEntryShape_variant. unfold variant_shape, fields_carry.
  repeat (constructor; [split; [reflexivity|]|]);
    try (apply parse_idempotent; reflexivity).
  - apply carries_literal_nativeEnum. exact Hname.
  - apply carries_object_record.
  - constructor.
Qed.

(** What phase 1 accepted, phase 1 accepts again, unchanged. *)
Lemma revalidateTyped (entry : value) (out : list (jsstring * value)) :
  validateTyped rt entry = Normal (Success (VObject out)) ->
  validateTyped rt (VObject out) = Normal (Success (VObject out)).
Proof.
  intros H.
  destruct (validateTyped_success rt _ _ H eq_refl)
    as (props1 & T & out' & issues1 & issues2 & Hp1 & HT & Hp2 & Heq).
  injection Heq as <-.
  destruct (schema_of_type_inv _ _ HT) as (name & cshape & Htype & Hname & HTeq & Hwf).
  destruct (variant_shape_keys (ZLiteral name) (ZObject cshape)) as [Hnd Hproto].
  (* the envelope schema accepts the variant's output *)
  assert (parse rt MemoryEntrySchema [] (VObject out) = (OK (VObject out), [])) as Henv.
  { unfold MemoryEntrySchema.
    apply (carries_object rt _ _ Hnd Hproto (variant_carries_envelope _ cshape Hname)
                          [] (VObject props1) (VObject out) issues2).
    rewrite <- HTeq. exact Hp2. }
  (* the type of the output is the literal of the variant *)
  assert (prop (js "type") out = VString name) as Htype'.
  { pose proof Hp2 as Hp2'. rewrite HTeq in Hp2'.
    pose proof (parse_object_field rt _ _ _ _ _ (js "type") (ZLiteral name)
                                   Hnd Hproto Hp2') as Hf.
    simpl in Hf. rewrite Htype in Hf. simpl in Hf.
    rewrite jseqb_refl in Hf. simpl in Hf.
    specialize (Hf (or_intror (or_introl eq_refl))).
    injection Hf as Hf. symmetry. exact Hf. }
  unfold validateTyped. rewrite validate_eq, Henv. simpl.
  rewrite (validateByType_eq rt out T) by (rewrite Htype', <- Htype; exact HT).
  rewrite (parse_idempotent rt T Hwf _ _ _ _ Hp2). reflexivity.
Qed.

(** Passing phase 1, unfolded. *)
Lemma passes_phase1_inv (entry : value) :
  passes_phase1 rt entry = true ->
  exists out,
    validateTyped rt entry = Normal (Success (VObject out))
    /\ validated_entry rt entry = VObject out.
Proof.
  unfold passes_phase1, validated_entry, success_of. intros H.
  destruct (validateTyped rt entry) as [r|] eqn:E; [|discriminate].
  destruct (validateTyped_success rt _ _ E H)
    as (props1 & T & out & issues1 & issues2 & _ & _ & _ & ->).
  exists out. auto.
Qed.

End Aggregator.


(** ** Issues of an object, field by field *)

Lemma parse_object_aborted (rt : Runtime) (S : list (jsstring * schema))
      (p : list PathElem) (props : list (jsstring * value)) (k : jsstring) (s : schema) :
  In (k, s) S ->
  fst (parse rt s (p ++ [PKey k]) (prop k props)) = INVALID ->
  fst (parse rt (ZObject S) p (VObject props)) = INVALID.
Proof.
  intros Hin Hf. simpl. unfold mergeObjectSync.
  match goal with |- (if ?b then _ else _) = _ => assert (b = true) as -> end;
    [|reflexivity].
  apply existsb_exists.
  exists (k, fst (parse rt s (p ++ [PKey k]) (prop k props)), has k props).
  split.
  - apply in_map_iff. exists (k, s). auto.
  - simpl. rewrite Hf. reflexivity.
Qed.

Lemma parse_object_issue (rt : Runtime) (S : list (jsstring * schema))
      (p : list PathElem) (props : list (jsstring * value)) (k : jsstring) (s : schema)
      (i : ZodIssue) :
  In (k, s) S ->
  In i (snd (parse rt s (p ++ [PKey k]) (prop k props))) ->
  In i (snd (parse rt (ZObject S) p (VObject props))).
Proof.
  intros Hin Hi. simpl. apply in_flat_map. exists (k, s). auto.
Qed.

(** When every field but [k] is clean, the issues are those of [k]. *)
Lemma flat_map_only {A B : Type} (g : jsstring * A -> list B)
      (S : list (jsstring * A)) (k : jsstring) (a : A) :
  NoDup (map fst S) ->
  In (k, a) S ->
  forallb (fun ks => (fst ks =? k)%js || is_nil (g ks)) S = true ->
  flat_map g S = g (k, a).
Proof.
  intros Hnd Hin Hall.
  assert (forall S0, ~ In k (map fst S0) ->
                     forallb (fun ks => (fst ks =? k)%js || is_nil (g ks)) S0 = true ->
                     flat_map g S0 = []) as Hclean.
  { induction S0 as [|[k' a'] S0 IH]; simpl; intros Hn Hf; [reflexivity|].
    apply andb_true_iff in Hf as [H1 H2].
    destruct (k' =? k)%js eqn:E.
    - apply jseqb_eq in E. subst. tauto.
    - simpl in H1. destruct (g (k', a')); [|discriminate]. apply IH; tauto. }
  induction S as [|[k' a'] S IH]; simpl in *; [tauto|].
  inversion Hnd as [|? ? Hnotin Hnd']; subst.
  apply andb_true_iff in Hall as [H1 H2].
  destruct Hin as [Heq | Hin].
  - inversion Heq; subst. rewrite (Hclean S Hnotin H2). apply app_nil_r.
  - assert ((k' =? k)%js = false) as E.
    { apply jseqb_neq. intros ->. apply Hnotin. apply in_map_iff. exists (k, a). auto. }
    rewrite E in H1. simpl in H1. destruct (g (k', a')); [|discriminate].
    simpl. apply IH; assumption.
Qed.

(* ------------------------------------------------------------------ *)
(** ** C1: a phase-1 failure is returned alone *)

(** C1.  Whenever phase 1 (the structural validation [validate], or the
    type dispatch that [validateTyped] runs after it) fails,
    [validateMemoryEntry] returns that very result: exactly the errors of
    that phase, none of the field validators.  In particular the entry of
    type TaskState with project "bad project!" and progress 150 yields the
    single content-schema error on content.progress, although the project
    validator rejects that name. *)
Theorem C1_phase1_failure_returned_alone :
  (forall rt entry r,
     validateTyped rt entry = Normal r -> success r = false ->
     validateMemoryEntry rt entry = Normal r)
  /\ (forall rt entry r,
        validate rt entry = Normal r -> success r = false ->
        validateTyped rt entry = Normal r /\ validateMemoryEntry rt entry = Normal r)
  /\ validateMemoryEntry zod3 (task_entry "bad project!" "feature/x" 150 [])
     = Normal (Failure [progress_error])
  /\ success (ProjectValidator_validate (js "bad project!")) = false.
Proof.
  split; [|split; [|split]].
  - intros rt entry r H Hs. apply phase1_failure; assumption.
  - intros rt entry r H Hs.
    pose proof (validate_failure rt _ _ H Hs) as Ht.
    split; [assumption | apply phase1_failure; assumption].
  - vm_compute. reflexivity.
  - vm_compute. reflexivity.
Qed.

(* ------------------------------------------------------------------ *)
(** ** C2: an unknown type *)

(** What [z.nativeEnum] answers to a [type] that is not one of the five
    values: one issue, for a string or a number [invalid_enum_value] with
    the value received, for anything else [invalid_type] with the parsed
    type received and the five values expected. *)
Lemma unknown_type_issue (rt : Runtime) (type : value) :
  known_type type = false ->
  parse rt (ZNativeEnum MemoryEntryType) [PKey (js "type")] type
  = (INVALID,
     [if enum_comparable type
      then mkIssue invalid_enum_value [PKey (js "type")] type VUndefined
                   (Options MemoryEntryType)
      else invalid_type_issue [PKey (js "type")] (joinValues MemoryEntryType) type]).
Proof.
  intros Hk. destruct type as [| |b|x| |t| |]; try reflexivity.
  - cbn [parse]. unfold enum_comparable. cbn [parsedType].
    destruct (isNaN x); reflexivity.
  - cbn [parse]. cbn [known_type] in Hk. rewrite Hk. reflexivity.
Qed.

(** The envelope schema on a candidate whose only fault is its [type]. *)
Lemma unknown_type_parse (rt : Runtime) (props : list (jsstring * value)) (i : ZodIssue) :
  parse rt (ZNativeEnum MemoryEntryType) [PKey (js "type")] (prop (js "type") props)
  = (INVALID, [i]) ->
  other_fields_valid rt props = true ->
  parse rt MemoryEntrySchema [] (VObject props) = (INVALID, [i]).
Proof.
  intros Hi Hother. apply injective_projections.
  - apply parse_object_aborted with (k := js "type") (s := ZNativeEnum MemoryEntryType).
    + right; left; reflexivity.
    + cbn [app]. rewrite Hi. reflexivity.
  - unfold MemoryEntrySchema.
    change (snd (parse rt (ZObject MemoryEntryShape) [] (VObject props)))
      with (flat_map (fun ks => snd (parse rt (snd ks) [PKey (fst ks)]
                                       (prop (fst ks) props))) MemoryEntryShape).
    rewrite (flat_map_only _ MemoryEntryShape (js "type")
                           (ZNativeEnum MemoryEntryType)).
    + cbn [fst snd]. rewrite Hi. reflexivity.
    + apply distinct_NoDup. reflexivity.
    + right; left; reflexivity.
    + exact Hother.
Qed.

(** The candidate whose [type] is the boolean [true], valid otherwise: its
    single error gives the kind of the value, "boolean", and not the
    value. *)
Lemma C2_boolean_type_counterexample :
  prop (js "type") boolean_type_entry = VBool true
  /\ known_type (prop (js "type") boolean_type_entry) = false
  /\ other_fields_valid zod3 boolean_type_entry = true
  /\ validateMemoryEntry zod3 (VObject boolean_type_entry)
     = Normal (Failure [boolean_type_error])
  /\ context boolean_type_error
     = Some (mkContext (VString (parsedType (VBool true)))
                       (VString (joinValues MemoryEntryType))).
Proof. by_evaluation. Qed.

(** C2 (amended).  A candidate object whose [type] is not one of the five
    known values and whose other envelope fields are valid is rejected
    with exactly one error, the one the envelope schema gives for [type],
    whatever its content: [validate], [validateTyped] and
    [validateMemoryEntry] return the same failure, so that no variant
    schema is run.  The error has path ["type"].  When the [type] is a
    string or a number other than NaN, its code is [invalid_enum_value] and
    its context holds the offending value as received; for any other
    [type] (a boolean, [null], an array, an object, NaN, a BigInt or a
    missing [type]) its code is [invalid_type] and its context holds the
    parsed type of the value as received and the five known values as
    expected. *)
Theorem C2_unknown_type_single_error (rt : Runtime) (props : list (jsstring * value)) :
  known_type (prop (js "type") props) = false ->
  other_fields_valid rt props = true ->
  exists err,
    validate rt (VObject props) = Normal (Failure [err])
    /\ validateTyped rt (VObject props) = Normal (Failure [err])
    /\ validateMemoryEntry rt (VObject props) = Normal (Failure [err])
    /\ Validation.path err = Some [js "type"]
    /\ (enum_comparable (prop (js "type") props) = true ->
        Validation.code err = js "invalid_enum_value"
        /\ context err = Some (mkContext (prop (js "type") props) VUndefined)
        /\ message err
           = errorMap rt (mkIssue invalid_enum_value [PKey (js "type")]
                                  (prop (js "type") props) VUndefined
                                  (Options MemoryEntryType)))
    /\ (enum_comparable (prop (js "type") props) = false ->
        Validation.code err = js "invalid_type"
        /\ context err
           = Some (mkContext (VString (parsedType (prop (js "type") props)))
                             (VString (joinValues MemoryEntryType)))
        /\ message err
           = errorMap rt (invalid_type_issue [PKey (js "type")]
                                             (joinValues MemoryEntryType)
                                             (prop (js "type") props))).
Proof.
  intros Hk Hother.
  pose proof (unknown_type_issue rt _ Hk) as Hi.
  pose proof (unknown_type_parse rt props _ Hi Hother) as Hp.
  eexists.
  assert (validate rt (VObject props) = Normal (Failure [issue_error rt _])) as Hv
      by (rewrite validate_eq, Hp; reflexivity).
  pose proof (validate_failure rt _ _ Hv eq_refl) as Ht.
  split; [exact Hv|]. split; [exact Ht|].
  split; [exact (phase1_failure rt _ _ Ht eq_refl)|].
  destruct (enum_comparable (prop (js "type") props)).
  - split; [reflexivity|]. split; [intros _; repeat split | discriminate].
  - split; [reflexivity|]. split; [discriminate | intros _; repeat split].
Qed.

(** The candidate of [unknown_type_entry], whose [type] is "Note", gets
    the single error that names "Note". *)
Lemma C2_unknown_type_witness :
  validateMemoryEntry zod3 (VObject unknown_type_entry)
  = Normal (Failure [unknown_type_error])
  /\ exists err,
       validate zod3 (VObject unknown_type_entry) = Normal (Failure [err])
       /\ validateTyped zod3 (VObject unknown_type_entry) = Normal (Failure [err])
       /\ validateMemoryEntry zod3 (VObject unknown_type_entry) = Normal (Failure [err])
       /\ Validation.path err = Some [js "type"]
       /\ (enum_comparable (prop (js "type") unknown_type_entry) = true ->
           Validation.code err = js "invalid_enum_value"
           /\ context err
              = Some (mkContext (prop (js "type") unknown_type_entry) VUndefined)
           /\ message err
              = errorMap zod3 (mkIssue invalid_enum_value [PKey (js "type")]
                                       (prop (js "type") unknown_type_entry) VUndefined
                                       (Options MemoryEntryType)))
       /\ (enum_comparable (prop (js "type") unknown_type_entry) = false ->
           Validation.code err = js "invalid_type"
           /\ context err
              = Some (mkContext
                        (VString (parsedType (prop (js "type") unknown_type_entry)))
                        (VString (joinValues MemoryEntryType)))
           /\ message err
              = errorMap zod3 (invalid_type_issue [PKey (js "type")]
                                                  (joinValues MemoryEntryType)
                                                  (prop (js "type") unknown_type_entry))).
Proof.
  split; [vm_compute; reflexivity|].
  apply (C2_unknown_type_single_error zod3 unknown_type_entry);
    vm_compute; reflexivity.
Defined.

(* ------------------------------------------------------------------ *)
(** ** C4: validating an accepted entry again *)

(** C4.  When [validateMemoryEntry] accepts a candidate and returns the
    data [d], validating [d] again returns the same result: success, with
    data equal to [d]. *)
Theorem C4_revalidation_is_identity (rt : Runtime) (entry : value)
        (r : ValidationResult) :
  validateMemoryEntry rt entry = Normal r ->
  success r = true ->
  validateMemoryEntry rt (data r) = Normal r.
Proof.
  intros H Hs.
  destruct (validateTyped rt entry) as [r1|] eqn:E1;
    [|unfold validateMemoryEntry in H; rewrite E1 in H; discriminate].
  destruct (success r1) eqn:Es1.
  - destruct (validateTyped_success rt _ _ E1 Es1)
      as (props1 & T & out & issues1 & issues2 & _ & _ & _ & ->).
    pose proof (phase2 rt _ _ E1) as Hph. rewrite Hph in H.
    destruct (ContentSizeValidator_validate rt (prop (js "content") out))
      as [c|] eqn:Ec; [|discriminate].
    simpl in H. injection H as H.
    assert (r = Success (VObject out)) as ->.
    { unfold finish in H.
      destruct (0 <? N.of_nat (List.length (merged_errors (VObject out) c)));
        subst r; [discriminate | reflexivity]. }
    simpl.
    rewrite (phase2 rt _ _ (revalidateTyped rt _ _ E1)), Ec. simpl. rewrite H.
    reflexivity.
  - rewrite (phase1_failure rt _ _ E1 Es1) in H. injection H as <-. congruence.
Qed.

(** The entry with an undeclared key is accepted with the key stripped;
    the returned data is accepted again, unchanged. *)
Lemma C4_revalidation_witness :
  validateMemoryEntry zod3 accepted_entry = Normal (Success accepted_entry).
Proof.
  apply (C4_revalidation_is_identity zod3 entry_with_unknown_key (Success accepted_entry)).
  - vm_compute. reflexivity.
  - reflexivity.
Defined.

(* ------------------------------------------------------------------ *)
(** ** C5: a candidate without [taskId] *)







(** ** The merged errors of phase 2 *)

Lemma finish_failure (errs : list ValidationError) (d : value) (e : ValidationError) :
  In e errs -> finish errs d = Failure errs.
Proof. destruct errs; [contradiction | reflexivity]. Qed.

Lemma failed_finish (errs : list ValidationError) (d : value) :
  failed_errors (finish errs d) = errs.
Proof. destruct errs; reflexivity. Qed.

Lemma errors_finish (errs : list ValidationError) (d : value) :
  errors_or_empty (finish errs d) = errs.
Proof. destruct errs; reflexivity. Qed.

Lemma merged_branch (d : value) (c : ValidationResult) (e : ValidationError) :
  In e (failed_errors (BranchValidator_validate (as_string (get d (js "branch"))))) ->
  In e (merged_errors d c).
Proof. intros H. unfold merged_errors. apply in_or_app. right. apply in_or_app. auto. Qed.

Lemma merged_content (d : value) (c : ValidationResult) (e : ValidationError) :
  In e (failed_errors c) -> In e (merged_errors d c).
Proof.
  intros H. unfold merged_errors.
  apply in_or_app. right. apply in_or_app. right. apply in_or_app. auto.
Qed.

Lemma merged_embedding (d : value) (c : ValidationResult) (e : ValidationError) :
  truthy (get d (js "embedding")) = true ->
  In e (failed_errors (EmbeddingValidator_validate (get d (js "embedding")))) ->
  In e (merged_errors d c).
Proof.
  intros Ht H. unfold merged_errors. rewrite Ht.
  apply in_or_app. right. apply in_or_app. right. apply in_or_app. auto.
Qed.

(** The content validator completes when the serialisation does. *)
Lemma content_size_completes (rt : Runtime) (content : value) (s : option jsstring) :
  JSON_stringify rt content = Normal s ->
  exists c, ContentSizeValidator_validate rt content = Normal c
            /\ ((MAX_CONTENT_SIZE <? encoded_length s) = true ->
                In (content_too_large (encoded_length s)) (failed_errors c)).
Proof.
  intros Hs. unfold ContentSizeValidator_validate. rewrite Hs. simpl.
  eexists. split; [reflexivity|].
  intros Hbig. rewrite failed_finish, Hbig. left. reflexivity.
Qed.

(* ------------------------------------------------------------------ *)
(** ** C3: exceptions *)

(** C3.  [ContentSizeValidator.validate] calls [JSON.stringify] outside any
    [try]: on a BigInt it throws, for every runtime.  An entry whose
    [content.context] (a [z.record(z.unknown())]) holds a BigInt passes
    phase 1, and [validateMemoryEntry] then throws the same TypeError
    instead of returning a result. *)
Theorem C3_content_size_throws_on_bigint :
  (forall rt z, ContentSizeValidator_validate rt (VBigInt z) = Throw bigint_error)
  /\ success_of (validateTyped zod3 (bigint_entry "main" [])) = true
  /\ validateMemoryEntry zod3 (bigint_entry "main" []) = Throw bigint_error.
Proof.
  split; [intros; reflexivity|]. split; vm_compute; reflexivity.
Qed.

(* ------------------------------------------------------------------ *)
(** ** The branch validator *)

Lemma branch_errors_eq (b : jsstring) :
  failed_errors (BranchValidator_validate b)
  = (if JsString.length b <? BRANCH_MIN_LENGTH then [branch_too_short] else [])
    ++ (if BRANCH_MAX_LENGTH <? JsString.length b then [branch_too_long] else [])
    ++ (if negb (BRANCH_NAME_REGEX_test b) then [branch_bad_format] else [])
    ++ (if startsWith b (js "/") || endsWith b (js "/") then [branch_edge_slash] else [])
    ++ (if includes b (js "//") then [branch_double_slash] else []).
Proof. unfold BranchValidator_validate. apply failed_finish. Qed.

(** The branch validator reports every rule that is violated, whatever
    the other rules say. *)
Lemma branch_validator_reports_all (b : jsstring) :
  let errs := failed_errors (BranchValidator_validate b) in
  ((JsString.length b <? BRANCH_MIN_LENGTH) = true -> In branch_too_short errs)
  /\ ((BRANCH_MAX_LENGTH <? JsString.length b) = true -> In branch_too_long errs)
  /\ (BRANCH_NAME_REGEX_test b = false -> In branch_bad_format errs)
  /\ ((startsWith b (js "/") || endsWith b (js "/")) = true -> In branch_edge_slash errs)
  /\ (includes b (js "//") = true -> In branch_double_slash errs)
  /\ (success (BranchValidator_validate b) = true <-> errs = []).
Proof.
  cbv zeta. rewrite branch_errors_eq.
  repeat split.
  - intros ->. left. reflexivity.
  - intros ->. apply in_or_app. right. left. reflexivity.
  - intros ->. do 2 (apply in_or_app; right). left. reflexivity.
  - intros ->. do 3 (apply in_or_app; right). left. reflexivity.
  - intros ->. do 4 (apply in_or_app; right). left. reflexivity.
  - rewrite <- branch_errors_eq. unfold BranchValidator_validate.
    intros H. rewrite failed_finish.
    match goal with |- ?l = [] => destruct l; [reflexivity | discriminate] end.
  - rewrite <- branch_errors_eq. unfold BranchValidator_validate.
    rewrite failed_finish. intros ->. reflexivity.
Qed.


(** ** Indexed maps *)

Lemma in_mapi_from {A B : Type} (f : N -> A -> B) (l : list A) (start : N)
      (i : nat) (v : A) :
  nth_error l i = Some v ->
  In (f (start + N.of_nat i) v) (mapi_from f start l).
Proof.
  revert start i. induction l as [|x l IH]; intros start [|i] H; simpl in *;
    try discriminate.
  - injection H as ->. left. f_equal. lia.
  - right. replace (start + N.pos (Pos.of_succ_nat i)) with (start + 1 + N.of_nat i) by lia.
    apply IH. exact H.
Qed.

Lemma in_concat_mapi_from {A B : Type} (f : N -> A -> list B) (l : list A) (start : N)
      (i : nat) (v : A) (x : B) :
  nth_error l i = Some v ->
  In x (f (start + N.of_nat i) v) ->
  In x (List.concat (mapi_from f start l)).
Proof.
  intros Hn Hx. apply in_concat. exists (f (start + N.of_nat i) v).
  split; [apply in_mapi_from; exact Hn | exact Hx].
Qed.

Lemma mergeArray_aborted (results : list ParseReturn) :
  In INVALID results -> mergeArray results = INVALID.
Proof.
  intros H. unfold mergeArray.
  assert (existsb is_aborted results = true) as ->; [|reflexivity].
  apply existsb_exists. exists INVALID. auto.
Qed.

(* ------------------------------------------------------------------ *)
(** ** The embedding validator *)

Lemma embedding_errors_eq (items : list value) :
  errors_or_empty (EmbeddingValidator_validate (VArray items))
  = (if array_length items =? 0 then [empty_embedding] else [])
    ++ (if negb (existsb (N.eqb (array_length items)) SUPPORTED_DIMENSIONS)
        then [invalid_dimension (array_length items)] else [])
    ++ List.concat
         (mapi_from (fun i v => if bad_element v then [invalid_value i] else []) 0 items).
Proof. unfold EmbeddingValidator_validate. apply errors_finish. Qed.

Lemma embedding_failed_eq (items : list value) :
  failed_errors (EmbeddingValidator_validate (VArray items))
  = errors_or_empty (EmbeddingValidator_validate (VArray items)).
Proof.
  unfold EmbeddingValidator_validate. rewrite failed_finish, errors_finish. reflexivity.
Qed.

(** The embedding validator accumulates: an empty array, an unsupported
    length and every bad element each add their error, whatever the other
    rules say; the result is a success exactly when no error was added. *)
Lemma embedding_validator_accumulates (items : list value) :
  let errs := errors_or_empty (EmbeddingValidator_validate (VArray items)) in
  (items = [] -> In empty_embedding errs)
  /\ (existsb (N.eqb (array_length items)) SUPPORTED_DIMENSIONS = false ->
      In (invalid_dimension (array_length items)) errs)
  /\ (forall i v, nth_error items i = Some v -> bad_element v = true ->
                  In (invalid_value (N.of_nat i)) errs)
  /\ (success (EmbeddingValidator_validate (VArray items)) = true <-> errs = [])
  /\ EmbeddingValidator_validate (VArray items) = finish errs (VArray items).
Proof.
  cbv zeta. rewrite embedding_errors_eq. repeat split.
  - intros ->. left. reflexivity.
  - intros ->. apply in_or_app. right. left. reflexivity.
  - intros i v Hn Hb. do 2 (apply in_or_app; right).
    apply in_concat_mapi_from with (i := i) (v := v); [exact Hn|].
    rewrite Hb. left. reflexivity.
  - unfold EmbeddingValidator_validate.
    match goal with |- success (finish ?l _) = true -> _ =>
      destruct l; [reflexivity | discriminate] end.
  - unfold EmbeddingValidator_validate. intros ->. reflexivity.
Qed.

(* ------------------------------------------------------------------ *)
(** ** An embedding that holds a NaN *)

(** No zod issue has a code of the field validators. *)
Lemma zod_codes_only (rt : Runtime) (c : string) (issues : list ZodIssue) :
  (forall k, (js c =? code_name k)%js = false) ->
  has_code c (Failure (map (issue_error rt) issues)) = false.
Proof.
  intros Hc. unfold has_code, codes. simpl.
  induction issues as [|i issues IH]; simpl; [reflexivity|].
  rewrite Hc. exact IH.
Qed.

(** An embedding that holds a NaN does not pass phase 1: the envelope
    schema ([z.array(z.number())]) rejects it, and the result holds zod's
    errors only. *)
Lemma nan_embedding_rejected (rt : Runtime) (props : list (jsstring * value))
      (items : list value) (i : nat) :
  prop (js "embedding") props = VArray items ->
  nth_error items i = Some (VNumber NaN) ->
  exists issues,
    validateTyped rt (VObject props) = Normal (Failure (map (issue_error rt) issues))
    /\ validateMemoryEntry rt (VObject props)
       = Normal (Failure (map (issue_error rt) issues))
    /\ In (invalid_type_issue [PKey (js "embedding"); PIndex (N.of_nat i)] (js "number")
                              (VNumber NaN)) issues.
Proof.
  intros He Hn.
  set (iss := invalid_type_issue [PKey (js "embedding"); PIndex (N.of_nat i)]
                                 (js "number") (VNumber NaN)).
  assert (fst (parse rt MemoryEntrySchema [] (VObject props)) = INVALID) as Hst.
  { apply parse_object_aborted with (k := js "embedding")
                                    (s := ZOptional (ZArray z_number)).
    - do 9 right; left; reflexivity.
    - rewrite He. cbn [parse fst app]. apply mergeArray_aborted.
      apply (in_mapi_from
               (fun i x => fst (parse rt z_number ([PKey (js "embedding")] ++ [PIndex i]) x))
               items 0 i (VNumber NaN) Hn). }
  assert (In iss (snd (parse rt MemoryEntrySchema [] (VObject props)))) as Hin.
  { apply parse_object_issue with (k := js "embedding")
                                  (s := ZOptional (ZArray z_number)).
    - do 9 right; left; reflexivity.
    - rewrite He. cbn [parse snd app].
      apply (in_concat_mapi_from
               (fun i x => snd (parse rt z_number ([PKey (js "embedding")] ++ [PIndex i]) x))
               items 0 i (VNumber NaN) iss Hn).
      left. reflexivity. }
  destruct (parse rt MemoryEntrySchema [] (VObject props)) as [st issues] eqn:Hp.
  simpl in Hst, Hin. subst st.
  exists issues.
  assert (validate rt (VObject props) = Normal (Failure (map (issue_error rt) issues))) as Hv.
  { rewrite validate_eq, Hp. destruct issues; [contradiction | reflexivity]. }
  pose proof (validate_failure rt _ _ Hv eq_refl) as Ht.
  split; [exact Ht|]. split; [|exact Hin].
  apply phase1_failure; [exact Ht | reflexivity].
Qed.

(** The entry with an embedding of length 400 and a NaN at index 3, valid
    otherwise, is rejected in phase 1 with zod's error for the element:
    the result holds neither INVALID_DIMENSION nor INVALID_VALUE. *)
Lemma nan_entry_rejected :
  List.length embedding_400_nan_at_3 = 400%nat
  /\ nth_error embedding_400_nan_at_3 3 = Some (VNumber NaN)
  /\ success_of (validateMemoryEntry zod3 (task_entry "ucp" "main" 5 [])) = true
  /\ validateMemoryEntry zod3 nan_entry = Normal (Failure [nan_error])
  /\ has_code "INVALID_DIMENSION" (Failure [nan_error]) = false
  /\ has_code "INVALID_VALUE" (Failure [nan_error]) = false.
Proof. by_evaluation. Qed.


(* ------------------------------------------------------------------ *)
(** ** C8: content larger than 1 MiB *)

(** The candidate's content serialises to more than 1,048,576 bytes, the
    candidate passes phase 1, and [validateMemoryEntry] accepts it: the
    size is measured on the validated content, from which the schema has
    stripped the undeclared key. *)
Lemma C8_stripped_content_counterexample :
  serialized_size zod3 (get padded_entry (js "content")) = Some 1048689
  /\ (MAX_CONTENT_SIZE <? 1048689) = true
  /\ success_of (validateTyped zod3 padded_entry) = true
  /\ validateMemoryEntry zod3 padded_entry = Normal (Success (task_entry "ucp" "main" 5 [])).
Proof. by_evaluation. Qed.

(** C8 (amended).  For every entry that passes phase 1 and whose validated
    content (the content of the typed entry that phase 1 returns)
    serialises to more than 1,048,576 bytes, [validateMemoryEntry] returns
    a failure that holds a CONTENT_TOO_LARGE error; every run on that entry
    returns this same failure. *)
Theorem C8_oversized_content_rejected (rt : Runtime) (entry : value) (size : N) :
  passes_phase1 rt entry = true ->
  serialized_size rt (get (validated_entry rt entry) (js "content")) = Some size ->
  (MAX_CONTENT_SIZE <? size) = true ->
  exists errs,
    validateMemoryEntry rt entry = Normal (Failure errs)
    /\ In (content_too_large size) errs
    /\ Validation.code (content_too_large size) = js "CONTENT_TOO_LARGE"
    /\ (forall r, validateMemoryEntry rt entry = Normal r -> r = Failure errs).
Proof.
  intros Hp Hsize Hbig.
  destruct (passes_phase1_inv rt _ Hp) as (out & Ht & Hd). rewrite Hd in *.
  unfold serialized_size in Hsize. simpl in Hsize.
  destruct (JSON_stringify rt (prop (js "content") out)) as [s|] eqn:Hs; [|discriminate].
  injection Hsize as <-.
  destruct (content_size_completes rt _ _ Hs) as (c & Hc & Hin).
  exists (merged_errors (VObject out) c).
  assert (In (content_too_large (encoded_length s)) (merged_errors (VObject out) c)) as H1
      by (apply merged_content, Hin, Hbig).
  assert (validateMemoryEntry rt entry = Normal (Failure (merged_errors (VObject out) c)))
    as Hv.
  { rewrite (phase2 rt _ _ Ht), Hc. simpl. f_equal.
    apply finish_failure with (e := content_too_large (encoded_length s)). exact H1. }
  split; [exact Hv|]. split; [exact H1|]. split; [reflexivity|].
  intros r Hr. rewrite Hv in Hr. injection Hr as <-. reflexivity.
Qed.

Lemma C8_oversized_content_witness :
  exists errs,
    validateMemoryEntry zod3 oversized_entry = Normal (Failure errs)
    /\ In (content_too_large 1048672) errs
    /\ Validation.code (content_too_large 1048672) = js "CONTENT_TOO_LARGE"
    /\ (forall r, validateMemoryEntry zod3 oversized_entry = Normal r -> r = Failure errs).
Proof.
  apply (C8_oversized_content_rejected zod3 oversized_entry 1048672).
  - vm_compute. reflexivity.
  - vm_compute. reflexivity.
  - reflexivity.
Defined.


(* ------------------------------------------------------------------ *)
(** ** C9: STRING_TOO_LONG *)

Lemma lacks_app (c : string) (l1 l2 : list ValidationError) :
  lacks c l1 -> lacks c l2 -> lacks c (l1 ++ l2).
Proof.
  unfold lacks. intros H1 H2. rewrite map_app, existsb_app, H1, H2. reflexivity.
Qed.

Lemma has_code_finish (c : string) (errs : list ValidationError) (d : value) :
  lacks c errs -> has_code c (finish errs d) = false.
Proof. unfold has_code, codes. rewrite errors_finish. auto. Qed.

Lemma project_lacks_string_too_long (p : jsstring) :
  lacks "STRING_TOO_LONG" (failed_errors (ProjectValidator_validate p)).
Proof.
  unfold ProjectValidator_validate. rewrite failed_finish.
  destruct (JsString.length p <? PROJECT_MIN_LENGTH),
           (PROJECT_MAX_LENGTH <? JsString.length p),
           (negb (PROJECT_NAME_REGEX_test p)); reflexivity.
Qed.

Lemma branch_lacks_string_too_long (b : jsstring) :
  lacks "STRING_TOO_LONG" (failed_errors (BranchValidator_validate b)).
Proof.
  rewrite branch_errors_eq.
  destruct (JsString.length b <? BRANCH_MIN_LENGTH),
           (BRANCH_MAX_LENGTH <? JsString.length b),
           (negb (BRANCH_NAME_REGEX_test b)),
           (startsWith b (js "/") || endsWith b (js "/")),
           (includes b (js "//")); reflexivity.
Qed.

Lemma embedding_lacks_string_too_long (v : value) :
  lacks "STRING_TOO_LONG" (failed_errors (EmbeddingValidator_validate v)).
Proof.
  destruct v as [| | | | | |items|]; try reflexivity.
  rewrite embedding_failed_eq, embedding_errors_eq.
  apply lacks_app; [destruct (array_length items =? 0); reflexivity|].
  apply lacks_app;
    [destruct (negb (existsb (N.eqb (array_length items)) SUPPORTED_DIMENSIONS));
     reflexivity|].
  generalize 0. induction items as [|x items IH]; intros start; simpl; [reflexivity|].
  apply lacks_app; [destruct (bad_element x); reflexivity | apply IH].
Qed.

(** The string rule of the content validator: STRING_TOO_LONG is in the
    result exactly when the content itself is a string of more than
    100,000 code units. *)
Lemma string_too_long_iff (rt : Runtime) (content : value) (r : ValidationResult) :
  ContentSizeValidator_validate rt content = Normal r ->
  (has_code "STRING_TOO_LONG" r = true
   <-> exists s, content = VString s /\ (MAX_STRING_LENGTH <? JsString.length s) = true).
Proof.
  unfold ContentSizeValidator_validate. intros H.
  destruct (JSON_stringify rt content) as [ser|]; [|discriminate].
  simpl in H. injection H as <-.
  unfold has_code, codes. rewrite errors_finish, map_app, existsb_app.
  assert (existsb (JsString.eqb (js "STRING_TOO_LONG"))
                  (map Validation.code
                       (if MAX_CONTENT_SIZE <? encoded_length ser
                        then [content_too_large (encoded_length ser)] else [])) = false)
    as -> by (destruct (MAX_CONTENT_SIZE <? encoded_length ser); reflexivity).
  simpl. split.
  - intros H. destruct content as [| | | | |s| |]; try discriminate.
    exists s. destruct (MAX_STRING_LENGTH <? JsString.length s); [auto | discriminate].
  - intros (s & -> & Hlen). rewrite Hlen. reflexivity.
Qed.

(** The validated content is an object. *)
Lemma validated_content_object (rt : Runtime) (entry : value)
      (out : list (jsstring * value)) :
  validateTyped rt entry = Normal (Success (VObject out)) ->
  exists cprops, prop (js "content") out = VObject cprops.
Proof.
  intros H.
  destruct (validateTyped_success rt _ _ H eq_refl)
    as (props1 & T & out' & issues1 & issues2 & _ & HT & Hp2 & Heq).
  injection Heq as <-.
  destruct (schema_of_type_inv _ _ HT) as (name & cshape & _ & _ & HTeq & _).
  destruct (variant_shape_keys (ZLiteral name) (ZObject cshape)) as [Hnd Hproto].
  rewrite HTeq in Hp2.
  pose proof (parse_object_field rt _ _ _ _ _ (js "content") (ZObject cshape)
                                 Hnd Hproto Hp2) as Hf.
  specialize (Hf (or_intror (or_intror (or_intror (or_intror (or_intror
                   (or_intror (or_intror (or_introl eq_refl))))))))).
  apply fst_parse_OK in Hf.
  destruct (parse_object_VObject rt _ _ _ _ _ Hf) as (_ & cprops & _ & Hc).
  exists cprops. exact Hc.
Qed.

(** A failure of phase 1 holds zod's codes, or INVALID_TYPE. *)
Lemma phase1_lacks_string_too_long (rt : Runtime) (entry : value)
      (r : ValidationResult) :
  validateTyped rt entry = Normal r -> success r = false ->
  has_code "STRING_TOO_LONG" r = false.
Proof.
  unfold validateTyped. intros H Hs.
  destruct (validate rt entry) as [r0|] eqn:E0; [|discriminate]. simpl in H.
  destruct (success r0) eqn:Es0.
  - destruct (validate_success rt _ _ E0 Es0) as (props1 & issues1 & _ & ->).
    simpl in H.
    destruct (schema_of_type (prop (js "type") props1)) as [T|] eqn:ET.
    + rewrite (validateByType_eq rt _ _ ET) in H.
      destruct (parse rt T [] (VObject props1)) as [[d|d|] [|i issues]];
        try discriminate; injection H as <-; try discriminate;
        apply (zod_codes_only rt "STRING_TOO_LONG" (i :: issues)); not_a_zod_code.
    + unfold validateByType in H. simpl in H. rewrite ET in H. simpl in H.
      injection H as <-. reflexivity.
  - simpl in H. injection H as <-.
    rewrite validate_eq in E0.
    destruct (parse rt MemoryEntrySchema [] entry) as [[d|d|] [|i issues]];
      try discriminate; injection E0 as <-; try discriminate;
      apply (zod_codes_only rt "STRING_TOO_LONG" (i :: issues)); not_a_zod_code.
Qed.

(** C9.  The string rule of the content validator fires only when the
    content itself is a string of more than 100,000 code units: such a
    string gets STRING_TOO_LONG, the same string inside an object does
    not.  The content that [validateMemoryEntry] hands to the validator is
    an object, so no result of [validateMemoryEntry] holds a
    STRING_TOO_LONG error. *)
Theorem C9_string_too_long_unreachable :
  (forall rt content r,
     ContentSizeValidator_validate rt content = Normal r ->
     (has_code "STRING_TOO_LONG" r = true
      <-> exists s, content = VString s
                    /\ (MAX_STRING_LENGTH <? JsString.length s) = true))
  /\ (forall rt entry r,
        validateMemoryEntry rt entry = Normal r ->
        has_code "STRING_TOO_LONG" r = false)
  /\ codes_of (ContentSizeValidator_validate zod3 (VString long_string))
     = [js "STRING_TOO_LONG"]
  /\ success_of (ContentSizeValidator_validate zod3
                   (VObject [(js "text", VString long_string)])) = true.
Proof.
  split; [exact string_too_long_iff|].
  split; [|split; vm_compute; reflexivity].
  intros rt entry r H.
  destruct (validateTyped rt entry) as [r1|] eqn:E1;
    [|unfold validateMemoryEntry in H; rewrite E1 in H; discriminate].
  destruct (success r1) eqn:Es1.
  - destruct (validateTyped_success rt _ _ E1 Es1)
      as (props1 & T & out & issues1 & issues2 & _ & _ & _ & ->).
    destruct (validated_content_object rt _ _ E1) as (cprops & Hc).
    rewrite (phase2 rt _ _ E1) in H.
    destruct (ContentSizeValidator_validate rt (prop (js "content") out))
      as [c|] eqn:Ec; [|discriminate].
    simpl in H. injection H as <-.
    apply has_code_finish. unfold merged_errors.
    apply lacks_app; [apply project_lacks_string_too_long|].
    apply lacks_app; [apply branch_lacks_string_too_long|].
    apply lacks_app.
    + pose proof (string_too_long_iff rt _ _ Ec) as [Hiff _].
      unfold has_code, codes in Hiff. unfold lacks.
      assert (failed_errors c = errors_or_empty c) as ->.
      { unfold ContentSizeValidator_validate in Ec.
        destruct (JSON_stringify rt (prop (js "content") out)); [|discriminate].
        simpl in Ec. injection Ec as <-. rewrite failed_finish, errors_finish. reflexivity. }
      destruct (existsb (JsString.eqb (js "STRING_TOO_LONG"))
                        (map Validation.code (errors_or_empty c))); [|reflexivity].
      destruct (Hiff eq_refl) as (s & Hs & _). rewrite Hc in Hs. discriminate.
    + destruct (truthy (get (VObject out) (js "embedding")));
        [apply embedding_lacks_string_too_long | reflexivity].
  - rewrite (phase1_failure rt _ _ E1 Es1) in H. injection H as <-.
    apply (phase1_lacks_string_too_long rt entry r1 E1 Es1).
Qed.

Lemma C9_string_too_long_witness :
  has_code "STRING_TOO_LONG" (Success accepted_entry) = false.
Proof.
  apply (proj1 (proj2 C9_string_too_long_unreachable) zod3 accepted_entry).
  vm_compute. reflexivity.
Defined.


(* ------------------------------------------------------------------ *)
(** ** Which calls return *)

Section Totality.
Variable rt : Runtime.

Lemma concat_nil_Forall {A : Type} (l : list (list A)) :
  List.concat l = [] -> Forall (fun x => x = []) l.
Proof.
  induction l as [|x l IH]; simpl; intros H; constructor;
    apply app_eq_nil in H as [H1 H2]; auto.
Qed.

Lemma flat_map_nil {A B : Type} (f : A -> list B) (l : list A) :
  flat_map f l = [] -> forall x, In x l -> f x = [].
Proof.
  induction l as [|y l IH]; simpl; intros H x Hin; [contradiction|].
  apply app_eq_nil in H as [H1 H2]. destruct Hin as [<- | Hin]; auto.
Qed.

(** A parse that added no issue returned a valid value. *)
Lemma parse_clean_valid (s : schema) :
  forall p v, snd (parse rt s p v) = [] ->
              fst (parse rt s p v) = OK (value_of (fst (parse rt s p v))).
Proof.
  induction s as [checks|checks| |lit|vals|vals|elt IH|items IH|vt IH|shape IH
                 |inner IH|inner IH] using schema_ind; intros p v H.
  - simpl in *. destruct v; try discriminate. simpl in H. rewrite H. reflexivity.
  - simpl in *. destruct v; try discriminate.
    destruct (isNaN x); [discriminate|]. simpl in H. rewrite H. reflexivity.
  - reflexivity.
  - simpl in *. destruct v; try discriminate.
    destruct (s =? lit)%js; [reflexivity | discriminate].
  - simpl in *. destruct v; try discriminate.
    destruct (existsb (JsString.eqb s) vals); [reflexivity | discriminate].
  - simpl in *. destruct v; try discriminate.
    + destruct (isNaN x); discriminate.
    + destruct (existsb (JsString.eqb s) vals); [reflexivity | discriminate].
  - simpl in *. destruct v as [| | | | | |data|]; try discriminate. simpl in H.
    rewrite mergeArray_all_OK; [reflexivity|].
    revert H. generalize 0. induction data as [|x data IHd]; intros i H; simpl in *;
      [constructor|].
    apply app_eq_nil in H as [H1 H2]. constructor; [apply IH; exact H1 | apply IHd; exact H2].
  - simpl in *. destruct v as [| | | | | |data|]; try discriminate.
    destruct (array_length data <? N.of_nat (List.length items)); [discriminate|].
    simpl in H. apply app_eq_nil in H as [Hextra H]. rewrite Hextra.
    rewrite mergeArray_all_OK; [reflexivity|].
    clear Hextra. revert data H. generalize 0.
    induction IH as [|si items Hsi _ IHi]; intros i data H; [constructor|].
    destruct data as [|x data]; [constructor|]. simpl in *.
    apply app_eq_nil in H as [H1 H2].
    constructor; [apply Hsi; exact H1 | apply IHi; exact H2].
  - simpl in *. destruct v as [| | | | | | |props]; try discriminate. simpl in H.
    rewrite mergeObjectSync_all_OK; [reflexivity|].
    apply Forall_forall. intros q Hq. apply in_map_iff in Hq as [kv [<- Hin]]. simpl.
    apply IH. apply (flat_map_nil _ _ H kv Hin).
  - simpl in *. destruct v as [| | | | | | |props]; try discriminate. simpl in H.
    rewrite mergeObjectSync_all_OK; [reflexivity|].
    apply Forall_forall. intros q Hq. apply in_map_iff in Hq as [ks [<- Hin]]. simpl.
    rewrite Forall_forall in IH. apply (IH ks Hin).
    apply (flat_map_nil _ _ H ks Hin).
  - simpl in *. destruct v; try reflexivity; apply IH; exact H.
  - simpl in *. destruct v; try reflexivity; apply IH; exact H.
Qed.

(** [schema.parse] returns the data or throws a [ZodError] with at least
    one issue. *)
Lemma zod_parse_cases (s : schema) (v : value) :
  (exists d, zod_parse rt s v = Normal d)
  \/ (exists i issues, zod_parse rt s v = Throw (ZodError (i :: issues))).
Proof.
  unfold zod_parse. pose proof (parse_clean_valid s [] v) as H.
  destruct (parse rt s [] v) as [[d|d|] [|i issues]]; simpl in H; eauto;
    specialize (H eq_refl); discriminate.
Qed.

(** [MemoryEntryValidator.validate] returns on every input. *)
Lemma validate_total (entry : value) :
  exists r, validate rt entry = Normal r /\ well_formed r.
Proof.
  unfold validate.
  destruct (zod_parse_cases MemoryEntrySchema entry) as [[d ->] | (i & issues & ->)];
    simpl; eexists; (split; [reflexivity|]); [left | right]; simpl; eauto.
Qed.

(** [MemoryEntryValidator.validateTyped] returns on every input. *)
Lemma validateTyped_total (entry : value) :
  exists r, validateTyped rt entry = Normal r /\ well_formed r.
Proof.
  unfold validateTyped.
  destruct (validate_total entry) as (r0 & E0 & Hwf). rewrite E0. simpl.
  destruct (success r0) eqn:Es0; [|simpl; eauto].
  destruct (validate_success rt _ _ E0 Es0) as (props1 & issues1 & _ & ->).
  simpl. unfold validateByType. simpl.
  destruct (schema_of_type (prop (js "type") props1)) as [T|].
  - destruct (zod_parse_cases T (VObject props1)) as [[d ->] | (i & issues & ->)];
      simpl; eexists; (split; [reflexivity|]); [left | right]; simpl; eauto.
  - simpl. eexists. split; [reflexivity|]. right. simpl. eauto.
Qed.

Lemma finish_well_formed (errs : list ValidationError) (d : value) :
  well_formed (finish errs d).
Proof. destruct errs; [left | right]; simpl; eauto. Qed.

(** On a tree that holds no BigInt the serialisation returns; with
    [serialize_throws] below, this locates the BigInt that makes it
    throw. *)
Lemma stringify_bigint_free (v : value) :
  bigint_free v = true -> exists s, JSON_stringify rt v = Normal s.
Proof.
  unfold JSON_stringify.
  induction v as [| |b|x|z|s|items IH|props IH] using value_ind; intros Hf;
    try (destruct b); simpl; eauto; try discriminate.
  - simpl in Hf.
    match goal with
    | |- exists s, bind (?F items) _ = _ =>
        assert (exists parts, F items = Normal parts) as [parts ->]
    end.
    { induction IH as [|x l Hx _ IHl]; [eauto|].
      simpl in Hf. apply andb_true_iff in Hf as [H1 H2].
      destruct (Hx H1) as [o ->]. destruct (IHl H2) as [rest ->]. simpl. eauto. }
    simpl. eauto.
  - simpl in Hf.
    match goal with
    | |- exists s, bind (?F props) _ = _ =>
        assert (exists parts, F props = Normal parts) as [parts ->]
    end.
    { induction IH as [|[k x] l Hx _ IHl]; [eauto|].
      simpl in Hf, Hx. apply andb_true_iff in Hf as [H1 H2].
      destruct (Hx H1) as [o ->]. destruct (IHl H2) as [rest ->]. simpl. eauto. }
    simpl. eauto.
Qed.

(** Every validator but the content-size step returns on every input:
    [MemoryEntryValidator.validate] and [validateTyped] return a result,
    and so do the validators of the project name, the branch name and the
    embedding.  Every result is a success without errors or a failure
    with at least one error, also the result of the content-size
    validator and of [validateMemoryEntry] whenever they return; and when
    phase 1 fails [validateMemoryEntry] returns. *)
Theorem validators_return_well_formed (entry : value) :
  (exists r, validate rt entry = Normal r /\ well_formed r)
  /\ (exists r, validateTyped rt entry = Normal r /\ well_formed r)
  /\ (forall name, well_formed (ProjectValidator_validate name))
  /\ (forall name, well_formed (BranchValidator_validate name))
  /\ (forall embedding, well_formed (EmbeddingValidator_validate embedding))
  /\ (forall content r,
        ContentSizeValidator_validate rt content = Normal r -> well_formed r)
  /\ (forall r, validateMemoryEntry rt entry = Normal r -> well_formed r)
  /\ (passes_phase1 rt entry = false ->
      exists r, validateMemoryEntry rt entry = Normal r /\ success r = false).
Proof.
  split; [apply validate_total|]. split; [apply validateTyped_total|].
  split; [intros name; apply finish_well_formed|].
  split; [intros name; apply finish_well_formed|].
  split.
  { intros embedding.
    destruct embedding as [| | | | | |items|];
      try (right; split; [reflexivity | eexists; eexists; reflexivity]).
    apply finish_well_formed. }
  split.
  { intros content r. unfold ContentSizeValidator_validate.
    destruct (JSON_stringify rt content) as [s|]; [|discriminate].
    cbn [bind]. intros H. injection H as <-. apply finish_well_formed. }
  destruct (validateTyped_total entry) as (r1 & E1 & Hwf).
  unfold passes_phase1. rewrite E1. cbn [success_of].
  destruct (success r1) eqn:Es1.
  - split; [|discriminate]. intros r H.
    destruct (validateTyped_success rt _ _ E1 Es1)
      as (props1 & T & out & issues1 & issues2 & _ & _ & _ & ->).
    rewrite (phase2 rt _ _ E1) in H.
    destruct (ContentSizeValidator_validate rt (prop (js "content") out)) as [c|];
      [|discriminate].
    cbn [bind] in H. injection H as <-. apply finish_well_formed.
  - rewrite (phase1_failure rt _ _ E1 Es1). split.
    + intros r H. injection H as <-. exact Hwf.
    + intros _. exists r1. auto.
Qed.

(** After phase 1 the fields [project] and [branch] are non-empty
    strings, as the static type [MemoryEntry] says. *)
Lemma validated_strings (entry : value) (out : list (jsstring * value)) :
  validateTyped rt entry = Normal (Success (VObject out)) ->
  exists project branch,
    prop (js "project") out = VString project
    /\ prop (js "branch") out = VString branch
    /\ 1 <= JsString.length project /\ 1 <= JsString.length branch.
Proof.
  intros H.
  destruct (validateTyped_success rt _ _ H eq_refl)
    as (props1 & T & out' & issues1 & issues2 & _ & HT & Hp2 & Heq).
  injection Heq as <-.
  destruct (schema_of_type_inv _ _ HT) as (name & cshape & _ & _ & HTeq & _).
  destruct (variant_shape_keys (ZLiteral name) (ZObject cshape)) as [Hnd Hproto].
  rewrite HTeq in Hp2.
  assert (forall k, In (k, ZString [SMin 1]) (variant_shape (ZLiteral name) (ZObject cshape)) ->
                    exists s, prop k out = VString s /\ 1 <= JsString.length s) as Hfield.
  { intros k Hin.
    pose proof (parse_object_field rt _ _ _ _ _ k (ZString [SMin 1]) Hnd Hproto Hp2 Hin)
      as Hf.
    simpl in Hf. destruct (prop k props1) as [| | | | |s| |]; try discriminate.
    simpl in Hf. destruct (JsString.length s <? 1) eqn:El; [discriminate|].
    simpl in Hf. injection Hf as Hf. exists s. split; [symmetry; exact Hf|].
    apply N.ltb_ge in El. exact El. }
  destruct (Hfield (js "project")) as (project & Hp & Hlp);
    [do 2 right; left; reflexivity|].
  destruct (Hfield (js "branch")) as (branch & Hb & Hlb);
    [do 4 right; left; reflexivity|].
  exists project, branch. auto.
Qed.

End Totality.


(* ------------------------------------------------------------------ *)
(** ** The dispatch and the examples of the general lemmas *)

(** The [switch] of [validateByType] has a [case] for every type the
    envelope schema accepts: after a successful [validate] the [default]
    branch is not taken. *)
Lemma dispatch_exhaustive (rt : Runtime) (entry : value)
      (props : list (jsstring * value)) :
  validate rt entry = Normal (Success (VObject props)) ->
  exists T, schema_of_type (prop (js "type") props) = Some T
            /\ In T variant_schemas.
Proof.
  intros H. rewrite validate_eq in H.
  destruct (parse rt MemoryEntrySchema [] entry) as [[d|d|] issues] eqn:Hp;
    try (destruct issues; discriminate).
  injection H as ->.
  destruct (parse_object_VObject rt MemoryEntryShape _ _ _ _ Hp) as (props0 & out & -> & Hout).
  pose proof (parse_object_field rt MemoryEntryShape [] props0 _ _ (js "type")
                (ZNativeEnum MemoryEntryType)
                (proj1 (variant_shape_keys (ZNativeEnum MemoryEntryType) (ZRecord ZUnknown)))
                (proj2 (variant_shape_keys (ZNativeEnum MemoryEntryType) (ZRecord ZUnknown)))
                Hp (or_intror (or_introl eq_refl))) as Hf.
  simpl in Hf.
  destruct (prop (js "type") props0) as [| | |x| |t| |]; try discriminate.
  - destruct (isNaN x); discriminate.
  - destruct (t =? TASK_STATE)%js eqn:E1; simpl in Hf.
    { injection Hf as <-. unfold schema_of_type. rewrite E1.
      eexists; split; [reflexivity | simpl; auto]. }
    destruct (t =? COMMIT_DELTA)%js eqn:E2; simpl in Hf.
    { injection Hf as <-. unfold schema_of_type. rewrite E1, E2.
      eexists; split; [reflexivity | simpl; auto]. }
    destruct (t =? REASONING_ENTRY)%js eqn:E3; simpl in Hf.
    { injection Hf as <-. unfold schema_of_type. rewrite E1, E2, E3.
      eexists; split; [reflexivity | simpl; auto]. }
    destruct (t =? SUMMARY_CHECKPOINT)%js eqn:E4; simpl in Hf.
    { injection Hf as <-. unfold schema_of_type. rewrite E1, E2, E3, E4.
      eexists; split; [reflexivity | simpl; auto]. }
    destruct (t =? BRANCH_META)%js eqn:E5; simpl in Hf; [|discriminate].
    injection Hf as <-. unfold schema_of_type. rewrite E1, E2, E3, E4, E5.
    eexists; split; [reflexivity | simpl; auto 6].
Qed.

Lemma dispatch_exhaustive_example :
  exists T, schema_of_type (prop (js "type") unknown_key_props) = Some T
            /\ In T variant_schemas.
Proof.
  apply (dispatch_exhaustive zod3 entry_with_unknown_key unknown_key_props).
  vm_compute. reflexivity.
Defined.

Lemma validators_return_well_formed_example :
  exists r, validateMemoryEntry zod3 nan_entry = Normal r /\ success r = false.
Proof.
  apply (proj2 (proj2 (proj2 (proj2 (proj2 (proj2 (proj2
           (validators_return_well_formed zod3 nan_entry)))))))).
  vm_compute. reflexivity.
Defined.

Lemma parse_idempotent_example :
  carries zod3 ReasoningEntrySchema ReasoningEntrySchema.
Proof. apply (parse_idempotent zod3 ReasoningEntrySchema). vm_compute. reflexivity. Defined.


(* ------------------------------------------------------------------ *)
(** ** The field validators on their own *)

(** *** What the string operations decide *)

Lemma startsWith_iff (s p : jsstring) :
  startsWith s p = true <-> exists r, s = p ++ r.
Proof.
  revert s; induction p as [|x p IH]; intros s.
  - destruct s; simpl; split; eauto.
  - destruct s as [|y s]; simpl.
    + split; [discriminate | intros (r & H); discriminate].
    + rewrite andb_true_iff, N.eqb_eq, IH. split.
      * intros (-> & r & ->). exists r; reflexivity.
      * intros (r & H). injection H as -> ->. split; [reflexivity | eauto].
Qed.

Lemma endsWith_iff (s p : jsstring) :
  endsWith s p = true <-> exists l, s = l ++ p.
Proof.
  unfold endsWith. rewrite startsWith_iff. split.
  - intros (r & H). exists (rev r).
    rewrite <- (rev_involutive s), H, rev_app_distr, rev_involutive. reflexivity.
  - intros (l & ->). exists (rev l). apply rev_app_distr.
Qed.

Lemma includes_iff (s p : jsstring) :
  includes s p = true <-> exists l r, s = l ++ p ++ r.
Proof.
  induction s as [|y s IH].
  - cbn [includes]. rewrite orb_false_r, startsWith_iff. split.
    + intros (r & H). exists [], r. exact H.
    + intros (l & r & H). destruct l; [exists r; exact H | discriminate].
  - cbn [includes]. rewrite orb_true_iff, startsWith_iff, IH. split.
    + intros [(r & H) | (l & r & H)].
      * exists [], r. exact H.
      * exists (y :: l), r. rewrite H. reflexivity.
    + intros (l & r & H). destruct l as [|z l].
      * left. exists r. exact H.
      * right. injection H as _ H. eauto.
Qed.

Lemma all_in_class_iff (cls : N -> bool) (s : jsstring) :
  all_in_class cls s = true <-> s <> [] /\ forall c, In c s -> cls c = true.
Proof.
  unfold all_in_class. destruct s as [|c s].
  - split; [discriminate | intros [H _]; congruence].
  - rewrite forallb_forall. split; [intros H; split; [discriminate | exact H] | tauto].
Qed.

Lemma length_pos (s : jsstring) : (JsString.length s <? 1) = false <-> s <> [].
Proof.
  unfold JsString.length. destruct s; simpl.
  - split; [discriminate | congruence].
  - split; [discriminate | intros _; apply N.ltb_ge; lia].
Qed.

Lemma finish_nil (d : value) : finish [] d = Success d.
Proof. reflexivity. Qed.

Lemma finish_cons (e : ValidationError) (errs : list ValidationError) (d : value) :
  finish (e :: errs) d = Failure (e :: errs).
Proof. apply (finish_failure _ _ e). left; reflexivity. Qed.

Lemma finish_cases (errs : list ValidationError) (d : value) :
  (errs = [] /\ finish errs d = Success d)
  \/ (exists e rest, errs = e :: rest /\ finish errs d = Failure errs).
Proof.
  destruct errs as [|e rest]; [left; split; reflexivity|].
  right. exists e, rest. split; [reflexivity | apply finish_cons].
Qed.

(** *** ProjectValidator *)

Lemma project_errors_eq (p : jsstring) :
  errors_or_empty (ProjectValidator_validate p)
  = (if JsString.length p <? PROJECT_MIN_LENGTH
     then [plain_error (js "TOO_SHORT")
             (js "Project name must be at least " ++ ofN PROJECT_MIN_LENGTH
                ++ js " character(s)")]
     else [])
    ++ (if PROJECT_MAX_LENGTH <? JsString.length p
        then [plain_error (js "TOO_LONG")
                (js "Project name must be at most " ++ ofN PROJECT_MAX_LENGTH
                   ++ js " characters")]
        else [])
    ++ (if negb (PROJECT_NAME_REGEX_test p)
        then [plain_error (js "INVALID_FORMAT")
                (js "Project name can only contain letters, numbers, underscores, and hyphens")]
        else []).
Proof. unfold ProjectValidator_validate. apply errors_finish. Qed.

Lemma project_success_iff (p : jsstring) :
  success (ProjectValidator_validate p) = true
  <-> (PROJECT_MAX_LENGTH <? JsString.length p) = false
      /\ PROJECT_NAME_REGEX_test p = true.
Proof.
  unfold ProjectValidator_validate.
  destruct (JsString.length p <? PROJECT_MIN_LENGTH) eqn:E1;
    destruct (PROJECT_MAX_LENGTH <? JsString.length p) eqn:E2;
    destruct (PROJECT_NAME_REGEX_test p) eqn:E3; simpl;
    try (split; [discriminate | intros [? ?]; discriminate]).
  - (* shorter than one code unit, yet matching the expression *)
    exfalso. apply all_in_class_iff in E3 as [Hne _].
    apply Hne. destruct p; [reflexivity|].
    unfold JsString.length, PROJECT_MIN_LENGTH in E1. apply N.ltb_lt in E1.
    simpl List.length in E1. lia.
  - split; auto.
Qed.

(** [ProjectValidator.validate] accepts a name exactly when it has between
    1 and 100 code units, each of them a letter, a digit, an underscore or
    a hyphen; it then returns the name, and otherwise a failure with at
    least one error. *)
Theorem project_validator_accepts_iff (p : jsstring) :
  (ProjectValidator_validate p = Success (VString p)
   <-> 1 <= JsString.length p <= 100
       /\ forall c, In c p ->
            (is_lower c || is_upper c || is_digit c || (c =? 95) || (c =? 45)) = true)
  /\ (ProjectValidator_validate p = Success (VString p)
      \/ exists e errs, ProjectValidator_validate p = Failure (e :: errs)).
Proof.
  pose proof (project_success_iff p) as Hs.
  assert (ProjectValidator_validate p = Success (VString p)
          <-> success (ProjectValidator_validate p) = true) as Hd.
  { unfold ProjectValidator_validate.
    match goal with |- finish ?errs ?d = _ <-> _ =>
      destruct (finish_cases errs d) as [[_ ->] | (e & rest & _ & ->)] end.
    - split; reflexivity.
    - split; discriminate. }
  split.
  - rewrite Hd, Hs. unfold PROJECT_NAME_REGEX_test. rewrite all_in_class_iff.
    unfold PROJECT_MAX_LENGTH. rewrite N.ltb_ge. split.
    + intros (Hmax & Hne & Hcls). split; [|exact Hcls].
      split; [|exact Hmax]. apply length_pos in Hne. apply N.ltb_ge in Hne. exact Hne.
    + intros ((Hmin & Hmax) & Hcls). split; [exact Hmax|]. split; [|exact Hcls].
      apply length_pos. apply N.ltb_ge. exact Hmin.
  - unfold ProjectValidator_validate.
    match goal with |- finish ?errs ?d = _ \/ _ =>
      destruct (finish_cases errs d) as [[_ ->] | (e & rest & -> & ->)] end.
    + left; reflexivity.
    + right; eauto.
Qed.

(** The error codes of [ProjectValidator.validate] come in five
    combinations only: TOO_SHORT is never alone (the empty name also fails
    the expression) and never with TOO_LONG, and it is reported exactly
    for the empty name. *)
Theorem project_validator_error_codes (p : jsstring) :
  In (codes (ProjectValidator_validate p))
     [ []; [js "TOO_LONG"]; [js "INVALID_FORMAT"];
       [js "TOO_SHORT"; js "INVALID_FORMAT"]; [js "TOO_LONG"; js "INVALID_FORMAT"] ]
  /\ (p = [] <-> codes (ProjectValidator_validate p)
                 = [js "TOO_SHORT"; js "INVALID_FORMAT"]).
Proof.
  unfold codes. rewrite project_errors_eq.
  destruct p as [|c p].
  - split; [right; right; right; left; reflexivity | split; reflexivity].
  - assert ((JsString.length (c :: p) <? PROJECT_MIN_LENGTH) = false) as ->
        by (apply length_pos; discriminate).
    destruct (PROJECT_MAX_LENGTH <? JsString.length (c :: p));
      destruct (negb (PROJECT_NAME_REGEX_test (c :: p))); cbn [app map Validation.code plain_error].
    + split; [right; right; right; right; left; reflexivity|].
      split; [discriminate | intros H; vm_compute in H; discriminate].
    + split; [right; left; reflexivity|].
      split; [discriminate | intros H; vm_compute in H; discriminate].
    + split; [right; right; left; reflexivity|].
      split; [discriminate | intros H; vm_compute in H; discriminate].
    + split; [left; reflexivity|].
      split; [discriminate | intros H; vm_compute in H; discriminate].
Qed.

(** *** BranchValidator *)

Lemma branch_success_iff (b : jsstring) :
  success (BranchValidator_validate b) = true
  <-> (BRANCH_MAX_LENGTH <? JsString.length b) = false
      /\ BRANCH_NAME_REGEX_test b = true
      /\ startsWith b (js "/") = false
      /\ endsWith b (js "/") = false
      /\ includes b (js "//") = false.
Proof.
  destruct (branch_validator_reports_all b) as (_ & _ & _ & _ & _ & ->).
  rewrite branch_errors_eq.
  destruct (JsString.length b <? BRANCH_MIN_LENGTH) eqn:E1.
  { split; [discriminate|]. intros (_ & H & _). exfalso.
    apply all_in_class_iff in H as [Hne _]. apply length_pos in Hne.
    unfold BRANCH_MIN_LENGTH in E1. congruence. }
  destruct (BRANCH_MAX_LENGTH <? JsString.length b);
    [split; [discriminate | intros [? _]; discriminate]|].
  destruct (BRANCH_NAME_REGEX_test b);
    [|split; [discriminate | intros (_ & ? & _); discriminate]].
  destruct (startsWith b (js "/"));
    [split; [discriminate | intros (_ & _ & ? & _); discriminate]|].
  destruct (endsWith b (js "/"));
    [split; [discriminate | intros (_ & _ & _ & ? & _); discriminate]|].
  destruct (includes b (js "//"));
    [split; [discriminate | intros (_ & _ & _ & _ & ?); discriminate]|].
  simpl. tauto.
Qed.

Lemma not_true_iff (x : bool) (P : Prop) : (x = true <-> P) -> (x = false <-> ~ P).
Proof. destruct x; intros [H1 H2]; split; try congruence; intuition congruence. Qed.

(** [BranchValidator.validate] accepts a name exactly when it has between
    1 and 250 code units, each of them a letter, a digit, a slash, an
    underscore or a hyphen, does not start or end with a slash and holds no
    two slashes in a row; it then returns the name, and otherwise a failure
    with at least one error. *)
Theorem branch_validator_accepts_iff (b : jsstring) :
  (BranchValidator_validate b = Success (VString b)
   <-> 1 <= JsString.length b <= 250
       /\ (forall c, In c b ->
             (is_lower c || is_upper c || is_digit c
              || (c =? 47) || (c =? 95) || (c =? 45)) = true)
       /\ (forall r, b <> js "/" ++ r)
       /\ (forall l, b <> l ++ js "/")
       /\ (forall l r, b <> l ++ js "//" ++ r))
  /\ (BranchValidator_validate b = Success (VString b)
      \/ exists e errs, BranchValidator_validate b = Failure (e :: errs)).
Proof.
  pose proof (branch_success_iff b) as Hs.
  assert (BranchValidator_validate b = Success (VString b)
          <-> success (BranchValidator_validate b) = true) as Hd.
  { unfold BranchValidator_validate.
    match goal with |- finish ?errs ?d = _ <-> _ =>
      destruct (finish_cases errs d) as [[_ ->] | (e & rest & _ & ->)] end.
    - split; reflexivity.
    - split; discriminate. }
  split.
  - rewrite Hd, Hs. unfold BRANCH_NAME_REGEX_test. rewrite all_in_class_iff.
    unfold BRANCH_MAX_LENGTH. rewrite N.ltb_ge.
    rewrite (not_true_iff _ _ (startsWith_iff b (js "/"))).
    rewrite (not_true_iff _ _ (endsWith_iff b (js "/"))).
    rewrite (not_true_iff _ _ (includes_iff b (js "//"))).
    split.
    + intros (Hmax & (Hne & Hcls) & H1 & H2 & H3).
      split; [split; [|exact Hmax]|].
      { apply length_pos in Hne. apply N.ltb_ge in Hne. exact Hne. }
      split; [exact Hcls|].
      split; [intros r E; apply H1; eauto|].
      split; [intros l E; apply H2; eauto|].
      intros l r E; apply H3; eauto.
    + intros ((Hmin & Hmax) & Hcls & H1 & H2 & H3).
      split; [exact Hmax|].
      split; [split; [apply length_pos; apply N.ltb_ge; exact Hmin | exact Hcls]|].
      split; [intros (r & E); exact (H1 r E)|].
      split; [intros (l & E); exact (H2 l E)|].
      intros (l & r & E); exact (H3 l r E).
  - unfold BranchValidator_validate.
    match goal with |- finish ?errs ?d = _ \/ _ =>
      destruct (finish_cases errs d) as [[_ ->] | (e & rest & -> & ->)] end.
    + left; reflexivity.
    + right; eauto.
Qed.

(** TOO_SHORT is reported for the empty branch name only, and then
    together with the error of the expression and nothing else; no name
    gets all five errors. *)
Theorem branch_validator_empty_name (b : jsstring) :
  let errs := failed_errors (BranchValidator_validate b) in
  (In branch_too_short errs <-> b = [])
  /\ (b = [] -> errs = [branch_too_short; branch_bad_format])
  /\ (List.length errs <= 4)%nat.
Proof.
  cbv zeta. rewrite branch_errors_eq.
  destruct b as [|c b].
  - split; [split; [reflexivity | intros _; left; reflexivity]|].
    split; [reflexivity | simpl; lia].
  - assert ((JsString.length (c :: b) <? BRANCH_MIN_LENGTH) = false) as ->
        by (apply length_pos; discriminate).
    split; [|split; [discriminate|]].
    + split; [|discriminate].
      intros H. exfalso.
      repeat (apply in_app_or in H as [H|H]);
        try match type of H with
            | In _ (if ?c then _ else _) => destruct c
            end;
        simpl in H; repeat (destruct H as [H|H]); try discriminate; try contradiction.
    + destruct (BRANCH_MAX_LENGTH <? JsString.length (c :: b));
        destruct (negb (BRANCH_NAME_REGEX_test (c :: b)));
        destruct (startsWith (c :: b) (js "/") || endsWith (c :: b) (js "/"));
        destruct (includes (c :: b) (js "//")); simpl; lia.
Qed.

(** Every project name that [ProjectValidator.validate] accepts is a
    branch name that [BranchValidator.validate] accepts. *)
Theorem project_name_is_branch_name (p : jsstring) :
  success (ProjectValidator_validate p) = true ->
  success (BranchValidator_validate p) = true.
Proof.
  rewrite project_success_iff, branch_success_iff.
  unfold PROJECT_NAME_REGEX_test, BRANCH_NAME_REGEX_test.
  rewrite !all_in_class_iff. intros (Hmax & Hne & Hcls).
  assert (~ In 47 p) as Hslash.
  { intros Hin. specialize (Hcls _ Hin). vm_compute in Hcls. discriminate. }
  split.
  { unfold PROJECT_MAX_LENGTH, BRANCH_MAX_LENGTH in *.
    apply N.ltb_ge. apply N.ltb_ge in Hmax. lia. }
  split.
  { split; [exact Hne|]. intros c Hin. specialize (Hcls c Hin).
    repeat (apply orb_true_iff in Hcls as [Hcls|Hcls]); rewrite Hcls;
      rewrite ?orb_true_r; reflexivity. }
  split.
  { apply (not_true_iff _ _ (startsWith_iff p (js "/"))).
    intros (r & ->). apply Hslash. left; reflexivity. }
  split.
  { apply (not_true_iff _ _ (endsWith_iff p (js "/"))).
    intros (l & ->). apply Hslash. apply in_or_app. right; left; reflexivity. }
  apply (not_true_iff _ _ (includes_iff p (js "//"))).
  intros (l & r & ->). apply Hslash. apply in_or_app. right; left; reflexivity.
Qed.

Lemma project_name_is_branch_name_example :
  success (BranchValidator_validate (js "unified-mcp_2")) = true.
Proof.
  apply (project_name_is_branch_name (js "unified-mcp_2")). vm_compute. reflexivity.
Defined.

(** *** EmbeddingValidator *)

Lemma bad_elements_nil (items : list value) (start : N) :
  List.concat (mapi_from (fun i v => if bad_element v then [invalid_value i] else [])
                         start items) = []
  <-> forall x, In x items -> bad_element x = false.
Proof.
  revert start; induction items as [|x items IH]; intros start; simpl.
  - split; [intros _ ? [] | reflexivity].
  - split.
    + intros H. apply app_eq_nil in H as [H1 H2].
      intros y [E|Hin]; [subst y; destruct (bad_element x); [discriminate | reflexivity]|].
      apply (proj1 (IH _) H2 y Hin).
    + intros H. rewrite (H x (or_introl eq_refl)). simpl.
      apply IH. intros y Hin. apply H. right; exact Hin.
Qed.

Lemma bad_elements_length (items : list value) (start : N) :
  List.length
    (List.concat (mapi_from (fun i v => if bad_element v then [invalid_value i] else [])
                            start items))
  = List.length (filter bad_element items).
Proof.
  revert start; induction items as [|x items IH]; intros start; simpl; [reflexivity|].
  rewrite length_app, IH. destruct (bad_element x); reflexivity.
Qed.

Lemma bad_element_false (x : value) :
  bad_element x = false <-> exists f, x = VNumber f /\ isFinite f = true.
Proof.
  destruct x as [| | |f| | | |]; simpl;
    try (split; [discriminate | intros (f' & H & _); discriminate]).
  split.
  - intros H. exists f. split; [reflexivity|]. destruct f; simpl in *; congruence.
  - intros (f' & H & Hf). injection H as <-. destruct f; simpl in *; congruence.
Qed.

(** [EmbeddingValidator.validate] accepts a value exactly when it is an
    array of 384, 512, 768, 1024 or 1536 elements, each of them a finite
    number; it then returns the array, and otherwise a failure with at
    least one error. *)
Theorem embedding_validator_accepts_iff (v : value) :
  (EmbeddingValidator_validate v = Success v
   <-> exists items, v = VArray items
         /\ In (array_length items) SUPPORTED_DIMENSIONS
         /\ forall x, In x items -> exists f, x = VNumber f /\ isFinite f = true)
  /\ (EmbeddingValidator_validate v = Success v
      \/ exists e errs, EmbeddingValidator_validate v = Failure (e :: errs)).
Proof.
  destruct v as [| | | | | |items|];
    try (split; [split; [discriminate | intros (items & H & _); discriminate]
                | right; eexists; eexists; reflexivity]).
  unfold EmbeddingValidator_validate.
  match goal with |- (finish ?errs ?d = _ <-> _) /\ _ =>
    destruct (finish_cases errs d) as [[Hnil ->] | (e & rest & Hcons & ->)] end.
  - split; [|left; reflexivity].
    split; [intros _ | reflexivity].
    apply app_eq_nil in Hnil as [_ Hnil]. apply app_eq_nil in Hnil as [Hdim Hbad].
    exists items. split; [reflexivity|]. split.
    + destruct (existsb (N.eqb (array_length items)) SUPPORTED_DIMENSIONS) eqn:E;
        [|discriminate].
      apply existsb_exists in E as (d & Hin & Hd). apply N.eqb_eq in Hd. subst d. exact Hin.
    + intros x Hin. apply bad_element_false. apply (proj1 (bad_elements_nil _ _) Hbad x Hin).
  - rewrite Hcons. split; [|right; eauto].
    split; [discriminate|].
    intros (items' & Heq & Hdim & Hfin). injection Heq as <-. exfalso.
    assert ((array_length items =? 0) = false) as E0.
    { apply N.eqb_neq. intros E. rewrite E in Hdim.
      repeat (destruct Hdim as [Hdim|Hdim]; [discriminate|]). exact Hdim. }
    assert (existsb (N.eqb (array_length items)) SUPPORTED_DIMENSIONS = true) as E1.
    { apply existsb_exists. eexists; split; [exact Hdim | apply N.eqb_refl]. }
    rewrite E0, E1 in Hcons. simpl in Hcons.
    assert (forall x, In x items -> bad_element x = false) as Hb
        by (intros x Hin; apply bad_element_false; auto).
    apply bad_elements_nil with (start := 0) in Hb. rewrite Hb in Hcons. discriminate.
Qed.

(** [EmbeddingValidator.validate] reports one INVALID_VALUE error for each
    element that is not a finite number, besides at most one error for the
    empty array and one for an unsupported length: it neither stops at the
    first bad element nor merges them. *)
Theorem embedding_validator_error_count (items : list value) :
  List.length (errors_or_empty (EmbeddingValidator_validate (VArray items)))
  = ((if (array_length items =? 0)%N then 1 else 0)
     + (if existsb (N.eqb (array_length items)) SUPPORTED_DIMENSIONS then 0 else 1)
     + List.length (filter bad_element items))%nat.
Proof.
  rewrite embedding_errors_eq, !length_app, bad_elements_length.
  destruct (array_length items =? 0);
    destruct (existsb (N.eqb (array_length items)) SUPPORTED_DIMENSIONS); simpl; lia.
Qed.


(* ------------------------------------------------------------------ *)
(** ** ContentSizeValidator *)

(** *** The size of a quoted string *)

Lemma utf8_length_cons (c : N) (rest : jsstring) :
  utf8_length (c :: rest)
  = if c <? 128 then 1 + utf8_length rest
    else if c <? 2048 then 2 + utf8_length rest
    else if is_high_surrogate c then
      match rest with
      | d :: rest' =>
          if is_low_surrogate d then 4 + utf8_length rest'
          else 3 + utf8_length rest
      | [] => 3
      end
    else 3 + utf8_length rest.
Proof. reflexivity. Qed.

Lemma utf8_ascii (c : N) (rest : jsstring) :
  (c <? 128) = true -> utf8_length (c :: rest) = 1 + utf8_length rest.
Proof. intros H. rewrite utf8_length_cons, H. reflexivity. Qed.

Lemma hex_digit_ascii (n : N) : n < 16 -> (hex_digit n <? 128) = true.
Proof.
  intros H. unfold hex_digit. destruct (n <? 10); apply N.ltb_lt; lia.
Qed.

Lemma utf8_escape (c : N) (t : jsstring) :
  utf8_length (unicode_escape c ++ t) = 6 + utf8_length t.
Proof.
  unfold unicode_escape. cbn [app].
  rewrite !utf8_ascii;
    try reflexivity; try (apply hex_digit_ascii; apply N.mod_lt; discriminate).
  lia.
Qed.

Lemma length_cons (c : N) (rest : jsstring) :
  JsString.length (c :: rest) = 1 + JsString.length rest.
Proof. unfold JsString.length. cbn [List.length]. lia. Qed.

Lemma high_surrogate_wide (c : N) :
  is_high_surrogate c = true -> (c <? 128) = false /\ (c <? 2048) = false.
Proof.
  unfold is_high_surrogate, in_range. intros H.
  apply andb_true_iff in H as [H _]. apply N.leb_le in H.
  split; apply N.ltb_ge; lia.
Qed.

(** A quoted string body followed by the closing quote: between one and
    six bytes for each code unit of the string. *)
Lemma quote_body_size (n : nat) :
  forall s, (List.length s <= n)%nat ->
    JsString.length s + 1 <= utf8_length (quote_body s ++ [34])
    /\ utf8_length (quote_body s ++ [34]) <= 6 * JsString.length s + 1.
Proof.
  induction n as [|n IH]; intros s Hn.
  - destruct s; [|simpl in Hn; lia].
    change (utf8_length (quote_body [] ++ [34])) with 1.
    change (JsString.length []) with 0. lia.
  - destruct s as [|c rest].
    { change (utf8_length (quote_body [] ++ [34])) with 1.
      change (JsString.length []) with 0. lia. }
    assert (List.length rest <= n)%nat as Hrest by (simpl in Hn; lia).
    pose proof (IH rest Hrest) as IHrest.
    rewrite length_cons. cbn [quote_body].
    destruct (c =? 8);
      [cbn [app]; rewrite !utf8_ascii by reflexivity; lia|].
    destruct (c =? 9);
      [cbn [app]; rewrite !utf8_ascii by reflexivity; lia|].
    destruct (c =? 10);
      [cbn [app]; rewrite !utf8_ascii by reflexivity; lia|].
    destruct (c =? 12);
      [cbn [app]; rewrite !utf8_ascii by reflexivity; lia|].
    destruct (c =? 13);
      [cbn [app]; rewrite !utf8_ascii by reflexivity; lia|].
    destruct (c =? 34);
      [cbn [app]; rewrite !utf8_ascii by reflexivity; lia|].
    destruct (c =? 92);
      [cbn [app]; rewrite !utf8_ascii by reflexivity; lia|].
    destruct (c <? 32);
      [rewrite <- app_assoc, utf8_escape; lia|].
    destruct (is_high_surrogate c) eqn:Ehigh.
    + destruct rest as [|d rest'].
      * rewrite utf8_escape.
        change (utf8_length [34]) with 1. change (JsString.length []) with 0. lia.
      * destruct (is_low_surrogate d) eqn:Elow.
        -- assert (List.length rest' <= n)%nat as Hrest' by (simpl in Hn; lia).
           pose proof (IH rest' Hrest') as IHrest'.
           cbn [app]. rewrite utf8_length_cons.
           destruct (high_surrogate_wide c Ehigh) as [-> ->].
           rewrite Ehigh, Elow. rewrite length_cons. lia.
        -- rewrite <- app_assoc, utf8_escape. lia.
    + destruct (is_low_surrogate c);
        [rewrite <- app_assoc, utf8_escape; lia|].
      cbn [app]. rewrite utf8_length_cons, Ehigh.
      destruct (c <? 128); [lia|]. destruct (c <? 2048); lia.
Qed.

Lemma quote_size (s : jsstring) :
  JsString.length s + 2 <= utf8_length (quote s)
  /\ utf8_length (quote s) <= 6 * JsString.length s + 2.
Proof.
  unfold quote. cbn [app]. rewrite utf8_ascii by reflexivity.
  pose proof (quote_body_size (List.length s) s (le_n _)). lia.
Qed.

(** *** The validator on a string *)

(** On a string, [ContentSizeValidator.validate] decides by the number of
    code units alone: it succeeds exactly when the string has at most
    100,000 of them.  CONTENT_TOO_LARGE is never reported without
    STRING_TOO_LONG (a string of 100,000 code units serialises to at
    most 600,002 bytes), and it is reported for every string of more
    than 1,048,574 code units. *)
Theorem content_size_on_strings (rt : Runtime) (s : jsstring) :
  exists r,
    ContentSizeValidator_validate rt (VString s) = Normal r
    /\ (success r = true <-> JsString.length s <= MAX_STRING_LENGTH)
    /\ (has_code "STRING_TOO_LONG" r = true <-> MAX_STRING_LENGTH < JsString.length s)
    /\ (has_code "CONTENT_TOO_LARGE" r = true -> has_code "STRING_TOO_LONG" r = true)
    /\ (MAX_CONTENT_SIZE - 2 < JsString.length s ->
        has_code "CONTENT_TOO_LARGE" r = true).
Proof.
  eexists. split; [reflexivity|].
  pose proof (quote_size s) as [Hlo Hhi].
  change (encoded_length (Some (quote s))) with (utf8_length (quote s)).
  unfold has_code, codes. rewrite errors_finish.
  unfold MAX_CONTENT_SIZE, MAX_STRING_LENGTH.
  change (1024 * 1024) with 1048576.
  destruct (1048576 <? utf8_length (quote s)) eqn:EA;
    destruct (100000 <? JsString.length s) eqn:EB;
    try apply N.ltb_lt in EA; try apply N.ltb_ge in EA;
    try apply N.ltb_lt in EB; try apply N.ltb_ge in EB;
    cbn [app]; try rewrite finish_cons; try rewrite finish_nil;
    cbn [success Failure Success map Validation.code content_too_large string_too_long
         plain_error].
  - split; [split; [discriminate | lia]|].
    split; [split; [intros _; exact EB | intros _; reflexivity]|].
    split; reflexivity.
  - lia.
  - split; [split; [discriminate | lia]|].
    split; [split; [intros _; exact EB | intros _; reflexivity]|].
    split; [reflexivity | lia].
  - split; [split; [intros _; exact EB | reflexivity]|].
    split; [split; [discriminate | lia]|].
    split; [discriminate | lia].
Qed.

(** *** When the validator throws *)

Lemma serialize_throws (rt : Runtime) (v : value) :
  bigint_free v = false -> SerializeJSONProperty rt v = Throw bigint_error.
Proof.
  induction v as [| |b|x|z|s|items IH|props IH] using value_ind; intros Hf;
    try discriminate; simpl.
  - reflexivity.
  - simpl in Hf.
    match goal with
    | |- bind (?F items) _ = _ => assert (F items = Throw bigint_error) as ->
    end; [|reflexivity].
    induction IH as [|x l Hx _ IHl]; [discriminate|].
    simpl in Hf. destruct (bigint_free x) eqn:Ex.
    + destruct (stringify_bigint_free rt x Ex) as [o Ho].
      unfold JSON_stringify in Ho. rewrite Ho. simpl in Hf. rewrite (IHl Hf). reflexivity.
    + rewrite (Hx eq_refl). reflexivity.
  - simpl in Hf.
    match goal with
    | |- bind (?F props) _ = _ => assert (F props = Throw bigint_error) as ->
    end; [|reflexivity].
    induction IH as [|[k x] l Hx _ IHl]; [discriminate|].
    simpl in Hf, Hx. destruct (bigint_free x) eqn:Ex.
    + destruct (stringify_bigint_free rt x Ex) as [o Ho].
      unfold JSON_stringify in Ho. rewrite Ho. simpl in Hf. rewrite (IHl Hf). reflexivity.
    + rewrite (Hx eq_refl). reflexivity.
Qed.

(** On a content that holds a BigInt, at any depth of its arrays and
    objects, [ContentSizeValidator.validate] throws the TypeError of
    [JSON.stringify] and returns no result. *)
Theorem content_size_throws_on_nested_bigint (rt : Runtime) (content : value) :
  bigint_free content = false ->
  ContentSizeValidator_validate rt content = Throw bigint_error.
Proof.
  intros H. unfold ContentSizeValidator_validate, JSON_stringify.
  rewrite (serialize_throws rt content H). reflexivity.
Qed.

Lemma content_size_throws_on_nested_bigint_example :
  ContentSizeValidator_validate zod3
    (obj [("context", obj [("attempts", VArray [num 1; VBigInt 2])]%string)]%string)
  = Throw bigint_error.
Proof.
  apply (content_size_throws_on_nested_bigint zod3
           (obj [("context", obj [("attempts", VArray [num 1; VBigInt 2])]%string)]%string)).
  vm_compute. reflexivity.
Defined.

(** When an entry passes phase 1 and its validated content holds a BigInt,
    [validateMemoryEntry] throws that TypeError: no result is returned,
    whatever the other fields.  And whatever [validateMemoryEntry] throws
    comes from the content-size step of an entry that passed phase 1: the
    phases before it do not throw. *)
Theorem validateMemoryEntry_throws_on_bigint_content (rt : Runtime) (entry : value) :
  (passes_phase1 rt entry = true ->
   bigint_free (get (validated_entry rt entry) (js "content")) = false ->
   validateMemoryEntry rt entry = Throw bigint_error)
  /\ (forall e,
        validateMemoryEntry rt entry = Throw e ->
        passes_phase1 rt entry = true
        /\ ContentSizeValidator_validate rt (get (validated_entry rt entry) (js "content"))
           = Throw e).
Proof.
  destruct (validateTyped_total rt entry) as (r1 & E1 & _).
  unfold passes_phase1, validated_entry. rewrite E1. cbn [success_of].
  destruct (success r1) eqn:Es1.
  - destruct (validateTyped_success rt _ _ E1 Es1)
      as (props1 & T & out & issues1 & issues2 & _ & _ & _ & ->).
    rewrite (phase2 rt _ _ E1). cbn [data Success get]. split.
    + intros _ E. unfold ContentSizeValidator_validate, JSON_stringify.
      rewrite (serialize_throws rt _ E). reflexivity.
    + intros e H.
      destruct (ContentSizeValidator_validate rt (prop (js "content") out)) as [c|e'];
        [discriminate|].
      cbn [bind] in H. injection H as <-. auto.
  - rewrite (phase1_failure rt _ _ E1 Es1). split; [discriminate|].
    intros e H. discriminate.
Qed.

Lemma validateMemoryEntry_throws_on_bigint_content_example :
  validateMemoryEntry zod3 (bigint_entry "main" []) = Throw bigint_error.
Proof.
  apply (proj1 (validateMemoryEntry_throws_on_bigint_content zod3 (bigint_entry "main" [])));
    vm_compute; reflexivity.
Defined.


(* ------------------------------------------------------------------ *)
(** ** Phase 1 on malformed candidates *)

(** A field of the envelope that its schema rejects outright makes all
    three entry points fail with the issues of the envelope parse. *)
Lemma envelope_field_rejected (rt : Runtime) (props : list (jsstring * value))
      (k : jsstring) (s : schema) (i : ZodIssue) :
  In (k, s) MemoryEntryShape ->
  fst (parse rt s [PKey k] (prop k props)) = INVALID ->
  In i (snd (parse rt s [PKey k] (prop k props))) ->
  exists issues,
    validate rt (VObject props) = Normal (Failure (map (issue_error rt) issues))
    /\ validateTyped rt (VObject props) = Normal (Failure (map (issue_error rt) issues))
    /\ validateMemoryEntry rt (VObject props)
       = Normal (Failure (map (issue_error rt) issues))
    /\ In i issues.
Proof.
  intros Hk Hst Hin.
  assert (fst (parse rt MemoryEntrySchema [] (VObject props)) = INVALID) as Hst'
      by (apply parse_object_aborted with (k := k) (s := s); assumption).
  assert (In i (snd (parse rt MemoryEntrySchema [] (VObject props)))) as Hin'
      by (apply parse_object_issue with (k := k) (s := s); assumption).
  destruct (parse rt MemoryEntrySchema [] (VObject props)) as [st issues] eqn:Hp.
  simpl in Hst', Hin'. subst st.
  exists issues.
  assert (validate rt (VObject props) = Normal (Failure (map (issue_error rt) issues))) as Hv.
  { rewrite validate_eq, Hp. destruct issues; [contradiction | reflexivity]. }
  pose proof (validate_failure rt _ _ Hv eq_refl) as Ht.
  split; [exact Hv|]. split; [exact Ht|]. split; [|exact Hin'].
  apply phase1_failure; [exact Ht | reflexivity].
Qed.

(** A candidate that is not an object ([undefined], [null], a boolean, a
    number, a BigInt, a string or an array) gets one error from each of
    [validate], [validateTyped] and [validateMemoryEntry]: zod's
    invalid_type at the empty path, which names the type received and
    expects [object]. *)
Theorem non_object_input (rt : Runtime) (v : value) :
  is_object v = false ->
  exists err,
    validate rt v = Normal (Failure [err])
    /\ validateTyped rt v = Normal (Failure [err])
    /\ validateMemoryEntry rt v = Normal (Failure [err])
    /\ Validation.code err = js "invalid_type"
    /\ Validation.path err = Some []
    /\ context err = Some (mkContext (VString (parsedType v)) (VString (js "object"))).
Proof.
  intros H. exists (issue_error rt (invalid_type_issue [] (js "object") v)).
  destruct v; try discriminate; repeat split; reflexivity.
Qed.

Lemma non_object_input_example :
  exists err,
    validate zod3 VNull = Normal (Failure [err])
    /\ validateTyped zod3 VNull = Normal (Failure [err])
    /\ validateMemoryEntry zod3 VNull = Normal (Failure [err])
    /\ Validation.code err = js "invalid_type"
    /\ Validation.path err = Some []
    /\ context err = Some (mkContext (VString (parsedType VNull)) (VString (js "object"))).
Proof. apply (non_object_input zod3 VNull). reflexivity. Defined.

(** The envelope requires eight keys.  When one of them is missing from a
    candidate object (or holds [undefined]), [validateMemoryEntry] fails
    and its errors hold zod's invalid_type for that key: path [[k]],
    received [undefined]. *)
Theorem missing_required_key (rt : Runtime) (props : list (jsstring * value))
        (k : jsstring) :
  In k required_keys ->
  prop k props = VUndefined ->
  required_keys = [js "id"; js "type"; js "project"; js "taskId"; js "branch";
                   js "timestamp"; js "status"; js "content"]
  /\ exists errs e expected,
       validateMemoryEntry rt (VObject props) = Normal (Failure errs)
       /\ In e errs
       /\ Validation.code e = js "invalid_type"
       /\ Validation.path e = Some [k]
       /\ context e = Some (mkContext (VString (js "undefined")) (VString expected)).
Proof.
  intros Hk Hprop. split; [reflexivity|].
  assert (exists s expected,
             In (k, s) MemoryEntryShape
             /\ parse rt s [PKey k] VUndefined
                = (INVALID, [invalid_type_issue [PKey k] expected VUndefined]))
    as (s & expected & Hin & Hparse).
  { cbv in Hk.
    destruct Hk as [<-|[<-|[<-|[<-|[<-|[<-|[<-|[<-|[]]]]]]]]].
    - exists (ZString [SUuid]), (js "string"). split; [left; reflexivity | reflexivity].
    - exists (ZNativeEnum MemoryEntryType), (joinValues MemoryEntryType).
      split; [do 1 right; left; reflexivity | reflexivity].
    - exists (ZString [SMin 1]), (js "string").
      split; [do 2 right; left; reflexivity | reflexivity].
    - exists (ZNullable z_string), (js "string").
      split; [do 3 right; left; reflexivity | reflexivity].
    - exists (ZString [SMin 1]), (js "string").
      split; [do 4 right; left; reflexivity | reflexivity].
    - exists z_datetime, (js "string").
      split; [do 5 right; left; reflexivity | reflexivity].
    - exists (ZNativeEnum MemoryEntryStatus), (joinValues MemoryEntryStatus).
      split; [do 6 right; left; reflexivity | reflexivity].
    - exists (ZRecord ZUnknown), (js "object").
      split; [do 7 right; left; reflexivity | reflexivity]. }
  destruct (envelope_field_rejected rt props k s
              (invalid_type_issue [PKey k] expected VUndefined) Hin)
    as (issues & _ & _ & Hv & Hi).
  { rewrite Hprop, Hparse. reflexivity. }
  { rewrite Hprop, Hparse. left; reflexivity. }
  exists (map (issue_error rt) issues),
         (issue_error rt (invalid_type_issue [PKey k] expected VUndefined)), expected.
  split; [exact Hv|]. split; [apply in_map; exact Hi|].
  repeat split; reflexivity.
Qed.

Lemma missing_required_key_example :
  required_keys = [js "id"; js "type"; js "project"; js "taskId"; js "branch";
                   js "timestamp"; js "status"; js "content"]
  /\ exists errs e expected,
       validateMemoryEntry zod3 (VObject [(js "id", VString (js "x"))])
       = Normal (Failure errs)
       /\ In e errs
       /\ Validation.code e = js "invalid_type"
       /\ Validation.path e = Some [js "status"]
       /\ context e = Some (mkContext (VString (js "undefined")) (VString expected)).
Proof.
  apply (missing_required_key zod3 [(js "id", VString (js "x"))] (js "status")).
  - vm_compute. do 6 right. left. reflexivity.
  - reflexivity.
Defined.



(* ------------------------------------------------------------------ *)
(** ** What phase 1 returns *)

(** The [case] of [validateByType] and its content schema. *)
Lemma content_schema_dispatch (type : value) (T : schema) :
  schema_of_type type = Some T ->
  exists name C,
    type = VString name
    /\ existsb (JsString.eqb name) MemoryEntryType = true
    /\ content_schema_of_type type = Some C
    /\ T = ZObject (variant_shape (ZLiteral name) C)
    /\ wf C = true.
Proof.
  unfold schema_of_type. destruct type as [| | | | |t| |]; try discriminate.
  destruct (t =? TASK_STATE)%js eqn:E1;
    [|destruct (t =? COMMIT_DELTA)%js eqn:E2;
      [|destruct (t =? REASONING_ENTRY)%js eqn:E3;
        [|destruct (t =? SUMMARY_CHECKPOINT)%js eqn:E4;
          [|destruct (t =? BRANCH_META)%js eqn:E5; [|discriminate]]]]];
    intros H; injection H as <-;
    match goal with E : (t =? _)%js = true |- _ => apply jseqb_eq in E; subst t end;
    eexists; eexists; (split; [reflexivity|]); (split; [reflexivity|]);
    (split; [reflexivity|]); split; reflexivity.
Qed.

(* ------------------------------------------------------------------ *)
(** ** Schemas that return their input *)

Section Identity.
Variable rt : Runtime.

Lemma string_returns_input (checks : list StringCheck) (p : list PathElem)
      (v v' : value) :
  fst (parse rt (ZString checks) p v) = OK v' -> v' = v.
Proof.
  simpl. destruct v; try discriminate. simpl. intros H.
  apply with_status_OK in H as [_ ->]. reflexivity.
Qed.

Lemma number_returns_input (checks : list NumberCheck) (p : list PathElem)
      (v v' : value) :
  fst (parse rt (ZNumber checks) p v) = OK v' ->
  v' = v /\ exists x, v = VNumber x /\ isNaN x = false.
Proof.
  simpl. destruct v; try discriminate. destruct (isNaN x) eqn:E; [discriminate|].
  simpl. intros H. apply with_status_OK in H as [_ ->]. eauto.
Qed.

Lemma nativeEnum_returns_input (vals : list jsstring) (p : list PathElem)
      (v v' : value) :
  fst (parse rt (ZNativeEnum vals) p v) = OK v' -> v' = v.
Proof.
  simpl. destruct v; try discriminate.
  - destruct (isNaN x); discriminate.
  - destruct (existsb (JsString.eqb s) vals); [|discriminate].
    intros H; injection H as <-; reflexivity.
Qed.

Lemma array_returns_input (elt : schema) :
  (forall p v v', fst (parse rt elt p v) = OK v' -> v' = v) ->
  forall p v v', fst (parse rt (ZArray elt) p v) = OK v' -> v' = v.
Proof.
  intros Helt p v v'. simpl. destruct v as [| | | | | |items|]; try discriminate.
  simpl. intros H. apply mergeArray_OK in H as [Hall ->]. f_equal.
  revert Hall. generalize 0.
  induction items as [|x items IH]; intros start Hall; [reflexivity|].
  simpl in *. inversion Hall as [|? ? Hx Hrest]; subst.
  rewrite (IH _ Hrest). f_equal.
  apply Helt in Hx. exact Hx.
Qed.

Lemma optional_returns_input (inner : schema) :
  (forall p v v', fst (parse rt inner p v) = OK v' -> v' = v) ->
  forall p v v', fst (parse rt (ZOptional inner) p v) = OK v' -> v' = v.
Proof.
  intros Hin p v v'. simpl. destruct v; try apply Hin.
  simpl. intros H; injection H as <-; reflexivity.
Qed.

Lemma nullable_returns_input (inner : schema) :
  (forall p v v', fst (parse rt inner p v) = OK v' -> v' = v) ->
  forall p v v', fst (parse rt (ZNullable inner) p v) = OK v' -> v' = v.
Proof.
  intros Hin p v v'. simpl. destruct v; try apply Hin.
  simpl. intros H; injection H as <-; reflexivity.
Qed.

Lemma record_entries (props : list (jsstring * value)) :
  flat_map pair_entry (map (fun kv => (fst kv, OK (snd kv), true)) props)
  = filter (fun kv => negb (fst kv =? js "__proto__")%js) props.
Proof.
  induction props as [|[k x] props IH]; [reflexivity|].
  cbn [map flat_map filter fst snd pair_entry value_of]. rewrite IH.
  rewrite orb_true_r, andb_true_r.
  destruct (negb (k =? js "__proto__")%js); reflexivity.
Qed.

Lemma record_returns_stripped (p : list PathElem) (v v' : value) :
  fst (parse rt (ZRecord ZUnknown) p v) = OK v' -> v' = without_proto v.
Proof.
  cbn [parse]. destruct v as [| | | | | | |props]; try discriminate.
  cbn [fst snd]. intros H. apply mergeObjectSync_OK in H as [_ ->].
  cbn [without_proto]. f_equal. apply record_entries.
Qed.

End Identity.

(* ------------------------------------------------------------------ *)
(** ** The typed entry *)

Section Typed.
Variable rt : Runtime.

(** A successful [validateTyped], unfolded: the candidate is an object,
    the envelope schema returns [props1], and the variant schema of its
    type returns the result. *)
Lemma typed_inv (entry : value) (out : list (jsstring * value)) :
  validateTyped rt entry = Normal (Success (VObject out)) ->
  exists props0 props1 name C issues1 issues2,
    entry = VObject props0
    /\ parse rt MemoryEntrySchema [] (VObject props0) = (OK (VObject props1), issues1)
    /\ prop (js "type") props1 = VString name
    /\ existsb (JsString.eqb name) MemoryEntryType = true
    /\ content_schema_of_type (VString name) = Some C
    /\ wf C = true
    /\ parse rt (ZObject (variant_shape (ZLiteral name) C)) [] (VObject props1)
       = (OK (VObject out), issues2).
Proof.
  intros H.
  destruct (validateTyped_success rt _ _ H eq_refl)
    as (props1 & T & out' & issues1 & issues2 & Hp1 & HT & Hp2 & Heq).
  injection Heq as <-.
  destruct (content_schema_dispatch _ _ HT) as (name & C & Htype & Hname & HC & HTeq & Hwf).
  destruct (parse_object_VObject rt _ _ _ _ _ Hp1) as (props0 & ? & -> & _).
  exists props0, props1, name, C, issues1, issues2.
  rewrite Htype in HC. rewrite HTeq in Hp2. auto 10.
Qed.

Lemma envelope_field (props0 props1 : list (jsstring * value))
      (issues1 : list ZodIssue) (k : jsstring) (s : schema) :
  parse rt MemoryEntrySchema [] (VObject props0) = (OK (VObject props1), issues1) ->
  In (k, s) MemoryEntryShape ->
  fst (parse rt s [PKey k] (prop k props0)) = OK (prop k props1).
Proof.
  intros Hp Hin.
  exact (parse_object_field rt MemoryEntryShape [] props0 _ _ k s
           (proj1 (variant_shape_keys (ZNativeEnum MemoryEntryType) (ZRecord ZUnknown)))
           (proj2 (variant_shape_keys (ZNativeEnum MemoryEntryType) (ZRecord ZUnknown)))
           Hp Hin).
Qed.

Lemma variant_field (props1 out : list (jsstring * value)) (issues2 : list ZodIssue)
      (t c : schema) (k : jsstring) (s : schema) :
  parse rt (ZObject (variant_shape t c)) [] (VObject props1) = (OK (VObject out), issues2) ->
  In (k, s) (variant_shape t c) ->
  fst (parse rt s [PKey k] (prop k props1)) = OK (prop k out).
Proof.
  intros Hp Hin.
  exact (parse_object_field rt (variant_shape t c) [] props1 _ _ k s
           (proj1 (variant_shape_keys t c)) (proj2 (variant_shape_keys t c)) Hp Hin).
Qed.

(** The nine keys whose schema the variants take over from the
    envelope. *)
Lemma shared_key_schema (k : jsstring) :
  In k shared_keys ->
  exists s, In (k, s) MemoryEntryShape
            /\ (forall t c, In (k, s) (variant_shape t c))
            /\ wf s = true.
Proof.
  intros H. cbv in H.
  destruct H as [<-|[<-|[<-|[<-|[<-|[<-|[<-|[<-|[<-|[]]]]]]]]]];
    eexists; (split; [simpl; auto 15|]); (split; [intros; simpl; auto 15 | reflexivity]).
Qed.

(** On a shared key, the typed entry holds what the envelope schema
    returned for the candidate's field, and the schema accepts it again
    without an issue. *)
Lemma typed_shared (entry : value) (out : list (jsstring * value)) (k : jsstring) :
  validateTyped rt entry = Normal (Success (VObject out)) ->
  In k shared_keys ->
  exists s issues,
    In (k, s) MemoryEntryShape
    /\ parse rt s [PKey k] (get entry k) = (OK (prop k out), issues)
    /\ parse rt s [PKey k] (prop k out) = (OK (prop k out), []).
Proof.
  intros H Hk.
  destruct (typed_inv _ _ H)
    as (props0 & props1 & name & C & issues1 & issues2 & -> & Hp1 & _ & _ & _ & _ & Hp2).
  destruct (shared_key_schema k Hk) as (s & Hin & Hvar & Hwf).
  pose proof (envelope_field _ _ _ k s Hp1 Hin) as H1.
  apply fst_parse_OK in H1.
  pose proof (parse_idempotent rt s Hwf _ _ _ _ H1) as H2.
  pose proof (variant_field _ _ _ _ _ k s Hp2 (Hvar _ _)) as H3.
  rewrite H2 in H3. simpl in H3. injection H3 as H3.
  exists s, (snd (parse rt s [PKey k] (prop k props0))).
  split; [exact Hin|]. rewrite <- H3. split; [exact H1 | exact H2].
Qed.

(** The type of the typed entry is the candidate's, and its content is
    what the content schema of that type returns and accepts again without
    an issue. *)
Lemma typed_type (entry : value) (out : list (jsstring * value)) :
  validateTyped rt entry = Normal (Success (VObject out)) ->
  prop (js "type") out = get entry (js "type")
  /\ exists name C,
       prop (js "type") out = VString name
       /\ existsb (JsString.eqb name) MemoryEntryType = true
       /\ content_schema_of_type (VString name) = Some C
       /\ wf C = true
       /\ parse rt C [PKey (js "content")] (prop (js "content") out)
          = (OK (prop (js "content") out), []).
Proof.
  intros H.
  destruct (typed_inv _ _ H)
    as (props0 & props1 & name & C & issues1 & issues2 & -> & Hp1 & Htype & Hname
        & HC & Hwf & Hp2).
  pose proof (envelope_field _ _ _ (js "type") (ZNativeEnum MemoryEntryType) Hp1
                (or_intror (or_introl eq_refl))) as H1.
  pose proof (variant_field _ _ _ _ _ (js "type") (ZLiteral name) Hp2
                (or_intror (or_introl eq_refl))) as H2.
  rewrite Htype in H1, H2. cbn [parse] in H2. rewrite jseqb_refl in H2.
  cbn [fst] in H2. injection H2 as H2.
  apply nativeEnum_returns_input in H1.
  split; [cbn [get]; rewrite <- H2; exact H1|].
  exists name, C. split; [symmetry; exact H2|]. split; [exact Hname|].
  split; [exact HC|]. split; [exact Hwf|].
  pose proof (variant_field _ _ _ _ _ (js "content") C Hp2) as H3.
  specialize (H3 (or_intror (or_intror (or_intror (or_intror (or_intror
                   (or_intror (or_intror (or_introl eq_refl))))))))).
  apply fst_parse_OK in H3.
  exact (parse_idempotent rt C Hwf _ _ _ _ H3).
Qed.

End Typed.


(* ------------------------------------------------------------------ *)
(** ** Accepted entries *)

(** An accepted entry is the typed entry of phase 1. *)
Lemma accepted_typed (rt : Runtime) (entry d : value) :
  validateMemoryEntry rt entry = Normal (Success d) ->
  exists out, d = VObject out
              /\ validateTyped rt entry = Normal (Success (VObject out)).
Proof.
  intros H.
  destruct (validateTyped_total rt entry) as (r1 & E1 & _).
  destruct (success r1) eqn:Es1.
  - destruct (validateTyped_success rt _ _ E1 Es1)
      as (props1 & T & out & issues1 & issues2 & _ & _ & _ & ->).
    exists out. split; [|exact E1].
    rewrite (phase2 rt _ _ E1) in H.
    destruct (ContentSizeValidator_validate rt (prop (js "content") out)) as [c|];
      [|discriminate].
    cbn [bind] in H. injection H as H.
    destruct (finish_cases (merged_errors (VObject out) c) (VObject out))
      as [[_ Hf] | (e & rest & _ & Hf)]; rewrite Hf in H.
    + injection H as <-. reflexivity.
    + discriminate.
  - rewrite (phase1_failure rt _ _ E1 Es1) in H. injection H as ->. discriminate.
Qed.

(** *** The keys of the result *)

Lemma merged_keys (pairs : list pair) :
  map fst (flat_map pair_entry pairs)
  = map (fun q => fst (fst q))
        (filter (fun q => negb (fst (fst q) =? js "__proto__")%js
                          && (negb (is_undefined (value_of (snd (fst q)))) || snd q))
                pairs).
Proof.
  induction pairs as [|[[k r] a] pairs IH]; [reflexivity|].
  cbn [flat_map filter fst snd pair_entry]. rewrite map_app, IH.
  destruct (negb (k =? js "__proto__")%js && (negb (is_undefined (value_of r)) || a));
    reflexivity.
Qed.

Lemma filter_map_comm {A B : Type} (f : B -> bool) (g : A -> B) (l : list A) :
  filter f (map g l) = map g (filter (fun x => f (g x)) l).
Proof.
  induction l as [|x l IH]; [reflexivity|].
  simpl. rewrite IH. destruct (f (g x)); reflexivity.
Qed.

(** What [z.object] returns holds the declared keys that are set, in the
    order of the shape. *)
Lemma object_keys (rt : Runtime) (S : list (jsstring * schema)) (p : list PathElem)
      (props out : list (jsstring * value)) (issues : list ZodIssue) :
  NoDup (map fst S) ->
  Forall (fun ks => fst ks <> js "__proto__") S ->
  parse rt (ZObject S) p (VObject props) = (OK (VObject out), issues) ->
  map fst out = filter (fun k => has k out) (map fst S).
Proof.
  intros Hnd Hproto H. cbn [parse] in H. injection H as H _.
  set (g := fun ks : jsstring * schema =>
              (fst ks, fst (parse rt (snd ks) (p ++ [PKey (fst ks)]) (prop (fst ks) props)),
               has (fst ks) props)) in *.
  apply mergeObjectSync_OK in H as [_ H]. injection H as ->.
  rewrite merged_keys, !filter_map_comm, map_map. cbn [g fst snd].
  f_equal. apply filter_ext_in. intros ks Hin.
  assert (fst ks <> js "__proto__") as Hk
      by (rewrite Forall_forall in Hproto; apply Hproto; exact Hin).
  assert ((fst ks =? js "__proto__")%js = false) as -> by (apply jseqb_neq; exact Hk).
  cbn [negb andb]. unfold has.
  rewrite (lookup_merged (map g S) (fst ks)
             (fst (parse rt (snd ks) (p ++ [PKey (fst ks)]) (prop (fst ks) props)))
             (match lookup (fst ks) props with Some _ => true | None => false end)).
  - destruct (negb _ || _); reflexivity.
  - rewrite map_map. exact Hnd.
  - change (In (g ks) (map g S)). apply in_map. exact Hin.
  - exact Hk.
Qed.

Lemma prop_has (k : jsstring) (props : list (jsstring * value)) :
  prop k props <> VUndefined -> has k props = true.
Proof.
  unfold prop, has. destruct (lookup k props); [reflexivity | congruence].
Qed.

Lemma assoc_unique {A : Type} (S : list (jsstring * A)) (k : jsstring) (a a' : A) :
  NoDup (map fst S) -> In (k, a) S -> In (k, a') S -> a = a'.
Proof.
  induction S as [|[k0 a0] S IH]; simpl; intros Hnd H1 H2; [contradiction|].
  inversion Hnd as [|? ? Hnot Hnd']; subst.
  destruct H1 as [H1|H1], H2 as [H2|H2].
  - congruence.
  - injection H1 as -> ->. exfalso. apply Hnot.
    change k with (fst (k, a')). apply in_map. exact H2.
  - injection H2 as -> ->. exfalso. apply Hnot.
    change k with (fst (k, a)). apply in_map. exact H1.
  - apply IH; assumption.
Qed.

Lemma shape_schema_unique (k : jsstring) (s s' : schema) :
  In (k, s) MemoryEntryShape -> In (k, s') MemoryEntryShape -> s = s'.
Proof.
  apply assoc_unique.
  exact (proj1 (variant_shape_keys (ZNativeEnum MemoryEntryType) (ZRecord ZUnknown))).
Qed.

(** The result holds every required key with a value. *)
Lemma typed_required (rt : Runtime) (entry : value) (out : list (jsstring * value))
      (k : jsstring) :
  validateTyped rt entry = Normal (Success (VObject out)) ->
  In k required_keys ->
  prop k out <> VUndefined.
Proof.
  intros H Hk.
  destruct (typed_type rt _ _ H) as (_ & name & C & Htype & _ & HC & _ & Hcontent).
  assert (forall k0 s, In k0 shared_keys -> In (k0, s) MemoryEntryShape ->
            fst (parse rt s [PKey k0] VUndefined) = INVALID ->
            prop k0 out <> VUndefined) as Hshared.
  { intros k0 s Hk0 Hs Hinv E.
    destruct (typed_shared rt _ _ k0 H Hk0) as (s' & issues & Hin & _ & Hp).
    rewrite (shape_schema_unique k0 s' s Hin Hs), E in Hp.
    rewrite Hp in Hinv. discriminate. }
  cbv in Hk.
  destruct Hk as [<-|[<-|[<-|[<-|[<-|[<-|[<-|[<-|[]]]]]]]]].
  - apply (Hshared _ (ZString [SUuid])); [cbv; auto 12 | simpl; auto 12 | reflexivity].
  - change (prop (js "type") out <> VUndefined). rewrite Htype. discriminate.
  - apply (Hshared _ (ZString [SMin 1])); [cbv; auto 12 | simpl; auto 12 | reflexivity].
  - apply (Hshared _ (ZNullable z_string)); [cbv; auto 12 | simpl; auto 12 | reflexivity].
  - apply (Hshared _ (ZString [SMin 1])); [cbv; auto 12 | simpl; auto 12 | reflexivity].
  - apply (Hshared _ z_datetime); [cbv; auto 12 | simpl; auto 12 | reflexivity].
  - apply (Hshared _ (ZNativeEnum MemoryEntryStatus));
      [cbv; auto 12 | simpl; auto 12 | reflexivity].
  - change (prop (js "content") out <> VUndefined).
    assert (exists cshape, C = ZObject cshape) as [cshape ->].
    { simpl in HC.
      repeat match type of HC with
             | (if ?b then _ else _) = _ => destruct b
             end; try discriminate; injection HC as <-; eexists; reflexivity. }
    destruct (parse_object_VObject rt _ _ _ _ _ Hcontent) as (cprops & _ & -> & _).
    discriminate.
Qed.

(** The data of an accepted entry is an object that holds declared keys
    only, each once and in the order of the schema: undeclared keys of the
    candidate are dropped.  The eight required keys are all there, with a
    value. *)
Theorem accepted_keys (rt : Runtime) (entry d : value) :
  validateMemoryEntry rt entry = Normal (Success d) ->
  exists out,
    d = VObject out
    /\ map fst out = filter (fun k => has k out) (map fst MemoryEntryShape)
    /\ (forall k, In k required_keys -> has k out = true /\ prop k out <> VUndefined).
Proof.
  intros H. destruct (accepted_typed rt _ _ H) as (out & -> & Ht).
  exists out. split; [reflexivity|]. split.
  - destruct (typed_inv rt _ _ Ht)
      as (props0 & props1 & name & C & issues1 & issues2 & _ & _ & _ & _ & _ & _ & Hp2).
    exact (object_keys rt _ _ _ _ _
             (proj1 (variant_shape_keys (ZLiteral name) C))
             (proj2 (variant_shape_keys (ZLiteral name) C)) Hp2).
  - intros k Hk. pose proof (typed_required rt _ _ k Ht Hk) as Hv.
    split; [apply prop_has; exact Hv | exact Hv].
Qed.

Lemma accepted_keys_example :
  exists out,
    accepted_entry = VObject out
    /\ map fst out = filter (fun k => has k out) (map fst MemoryEntryShape)
    /\ (forall k, In k required_keys -> has k out = true /\ prop k out <> VUndefined).
Proof.
  apply (accepted_keys zod3 entry_with_unknown_key accepted_entry).
  vm_compute. reflexivity.
Defined.

(** *** The fields of the result *)

(** Validation does not coerce: the data of an accepted entry holds, under
    [id], [type], [project], [taskId], [branch], [timestamp], [status],
    [embedding] and [tags], the candidate's own values, and under
    [metadata] the candidate's record without its [__proto__] properties. *)
Theorem accepted_fields_unchanged (rt : Runtime) (entry d : value) :
  validateMemoryEntry rt entry = Normal (Success d) ->
  (forall k, In k [js "id"; js "type"; js "project"; js "taskId"; js "branch";
                   js "timestamp"; js "status"; js "embedding"; js "tags"] ->
             get d k = get entry k)
  /\ get d (js "metadata") = without_proto (get entry (js "metadata")).
Proof.
  intros H. destruct (accepted_typed rt _ _ H) as (out & -> & Ht).
  assert (forall k s, In k shared_keys ->
            (forall p v v', fst (parse rt s p v) = OK v' -> v' = v) ->
            (forall s', In (k, s') MemoryEntryShape -> s' = s) ->
            get (VObject out) k = get entry k) as Hshared.
  { intros k s Hk Hid Hs.
    destruct (typed_shared rt _ _ k Ht Hk) as (s' & issues & Hin & Hp & _).
    rewrite (Hs s' Hin) in Hp.
    apply (Hid [PKey k]). rewrite Hp. reflexivity. }
  assert (forall k s s', In (k, s') MemoryEntryShape ->
            In (k, s) MemoryEntryShape -> s' = s) as Hfun
      by (intros k s s'; apply shape_schema_unique).
  split.
  - intros k Hk. simpl in Hk.
    destruct Hk as [<-|[<-|[<-|[<-|[<-|[<-|[<-|[<-|[<-|[]]]]]]]]]].
    + apply (Hshared _ (ZString [SUuid])); [cbv; auto 12 | apply string_returns_input|].
      intros s' Hs'. apply (Hfun (js "id")); [exact Hs' | simpl; auto 12].
    + exact (proj1 (typed_type rt _ _ Ht)).
    + apply (Hshared _ (ZString [SMin 1])); [cbv; auto 12 | apply string_returns_input|].
      intros s' Hs'. apply (Hfun (js "project")); [exact Hs' | simpl; auto 12].
    + apply (Hshared _ (ZNullable z_string));
        [cbv; auto 12 | apply nullable_returns_input; apply string_returns_input|].
      intros s' Hs'. apply (Hfun (js "taskId")); [exact Hs' | simpl; auto 12].
    + apply (Hshared _ (ZString [SMin 1])); [cbv; auto 12 | apply string_returns_input|].
      intros s' Hs'. apply (Hfun (js "branch")); [exact Hs' | simpl; auto 12].
    + apply (Hshared _ z_datetime); [cbv; auto 12 | apply string_returns_input|].
      intros s' Hs'. apply (Hfun (js "timestamp")); [exact Hs' | simpl; auto 12].
    + apply (Hshared _ (ZNativeEnum MemoryEntryStatus));
        [cbv; auto 12 | apply nativeEnum_returns_input|].
      intros s' Hs'. apply (Hfun (js "status")); [exact Hs' | simpl; auto 12].
    + apply (Hshared _ (ZOptional (ZArray z_number))); [cbv; auto 12 | |].
      * apply optional_returns_input, array_returns_input.
        intros p v v' Hp. apply (number_returns_input rt _ _ _ _ Hp).
      * intros s' Hs'. apply (Hfun (js "embedding")); [exact Hs' | simpl; auto 12].
    + apply (Hshared _ (ZOptional (ZArray z_string))); [cbv; auto 12 | |].
      * apply optional_returns_input, array_returns_input, string_returns_input.
      * intros s' Hs'. apply (Hfun (js "tags")); [exact Hs' | simpl; auto 12].
  - destruct (typed_shared rt _ _ (js "metadata") Ht) as (s' & issues & Hin & Hp & _);
      [cbv; auto 12|].
    rewrite (Hfun (js "metadata") (ZOptional (ZRecord ZUnknown)) s' Hin) in Hp
      by (simpl; auto 12).
    cbn [get].
    assert (forall v, v <> VUndefined ->
              parse rt (ZOptional (ZRecord ZUnknown)) [PKey (js "metadata")] v
              = parse rt (ZRecord ZUnknown) [PKey (js "metadata")] v) as Hopt
        by (intros v Hv; destruct v; try reflexivity; congruence).
    destruct (get entry (js "metadata")) eqn:E;
      try (rewrite Hopt in Hp by discriminate;
           apply (f_equal fst) in Hp; cbn [fst] in Hp;
           apply (record_returns_stripped rt) in Hp; exact Hp).
    cbn [parse] in Hp. injection Hp as Hp. symmetry. exact Hp.
Qed.

Lemma accepted_fields_unchanged_example :
  (forall k, In k [js "id"; js "type"; js "project"; js "taskId"; js "branch";
                   js "timestamp"; js "status"; js "embedding"; js "tags"] ->
             get accepted_entry k = get entry_with_unknown_key k)
  /\ get accepted_entry (js "metadata")
     = without_proto (get entry_with_unknown_key (js "metadata")).
Proof.
  apply (accepted_fields_unchanged zod3 entry_with_unknown_key accepted_entry).
  vm_compute. reflexivity.
Defined.


(* ------------------------------------------------------------------ *)
(** ** Phase 2 *)

Lemma finish_success_iff (errs : list ValidationError) (d : value) :
  success (finish errs d) = true <-> errs = [].
Proof.
  destruct (finish_cases errs d) as [[-> ->] | (e & rest & -> & ->)].
  - split; reflexivity.
  - split; discriminate.
Qed.

Lemma finish_errors_nil (errs : list ValidationError) (d : value) :
  errors_or_empty (finish errs d) = [] <-> success (finish errs d) = true.
Proof. rewrite errors_finish, finish_success_iff. reflexivity. Qed.

Lemma project_failed_eq (p : jsstring) :
  failed_errors (ProjectValidator_validate p)
  = errors_or_empty (ProjectValidator_validate p).
Proof. unfold ProjectValidator_validate. rewrite failed_finish, errors_finish. reflexivity. Qed.

Lemma branch_failed_eq (b : jsstring) :
  failed_errors (BranchValidator_validate b)
  = errors_or_empty (BranchValidator_validate b).
Proof. unfold BranchValidator_validate. rewrite failed_finish, errors_finish. reflexivity. Qed.

(** The content validator on an object: one possible error. *)
Lemma content_size_on_object (rt : Runtime) (cprops : list (jsstring * value))
      (c : ValidationResult) :
  ContentSizeValidator_validate rt (VObject cprops) = Normal c ->
  exists size,
    serialized_size rt (VObject cprops) = Some size
    /\ c = finish (if MAX_CONTENT_SIZE <? size then [content_too_large size] else [])
                  (VObject cprops)
    /\ failed_errors c = errors_or_empty c.
Proof.
  unfold ContentSizeValidator_validate, serialized_size. intros H.
  destruct (JSON_stringify rt (VObject cprops)) as [s|]; [|discriminate].
  cbn [bind] in H. injection H as <-. rewrite app_nil_r.
  exists (encoded_length s). split; [reflexivity|]. split; [reflexivity|].
  rewrite failed_finish, errors_finish. reflexivity.
Qed.

(** The embedding of a typed entry is absent or an array of numbers that
    are not NaN. *)
Lemma typed_embedding (rt : Runtime) (entry : value) (out : list (jsstring * value)) :
  validateTyped rt entry = Normal (Success (VObject out)) ->
  prop (js "embedding") out = VUndefined
  \/ exists items,
       prop (js "embedding") out = VArray items
       /\ forall x, In x items -> exists f, x = VNumber f /\ isNaN f = false.
Proof.
  intros H.
  destruct (typed_shared rt _ _ (js "embedding") H) as (s & issues & Hin & _ & Hp);
    [cbv; auto 12|].
  rewrite (shape_schema_unique _ s (ZOptional (ZArray z_number)) Hin) in Hp
    by (simpl; auto 12).
  destruct (prop (js "embedding") out) as [| | | | | |items|] eqn:E;
    try (cbn in Hp; discriminate).
  - left; reflexivity.
  - right. exists items. split; [reflexivity|].
    apply (f_equal fst) in Hp. cbn [parse fst] in Hp.
    apply mergeArray_OK in Hp as [Hall _]. clear E.
    revert Hall. generalize 0.
    induction items as [|y items IH]; intros start Hall x Hx; [contradiction|].
    cbn [mapi_from] in Hall. inversion Hall as [|? ? Hy Hrest]; subst.
    destruct Hx as [<-|Hx].
    + destruct y as [| | |f| | | |]; try discriminate.
      destruct (isNaN f) eqn:Ef; [discriminate | eauto].
    + exact (IH _ Hrest x Hx).
Qed.

(** The errors of phase 2, validator by validator. *)
Lemma phase2_errors (rt : Runtime) (entry : value) (out : list (jsstring * value))
      (c : ValidationResult) :
  validateTyped rt entry = Normal (Success (VObject out)) ->
  ContentSizeValidator_validate rt (prop (js "content") out) = Normal c ->
  exists project branch,
    prop (js "project") out = VString project
    /\ prop (js "branch") out = VString branch
    /\ 1 <= JsString.length project /\ 1 <= JsString.length branch
    /\ validateMemoryEntry rt entry
       = Normal (finish
                   (errors_or_empty (ProjectValidator_validate project)
                    ++ errors_or_empty (BranchValidator_validate branch)
                    ++ errors_or_empty c
                    ++ (if is_undefined (prop (js "embedding") out) then []
                        else errors_or_empty
                               (EmbeddingValidator_validate (prop (js "embedding") out))))
                   (VObject out)).
Proof.
  intros Ht Hc.
  destruct (validated_strings rt _ _ Ht) as (project & branch & Hp & Hb & Hlp & Hlb).
  exists project, branch. repeat (split; [assumption|]).
  rewrite (phase2 rt _ _ Ht), Hc. cbn [bind]. do 2 f_equal.
  unfold merged_errors. cbn [get]. rewrite Hp, Hb. cbn [as_string].
  rewrite project_failed_eq, branch_failed_eq. do 2 f_equal.
  destruct (validated_content_object rt _ _ Ht) as (cprops & Hcontent).
  rewrite Hcontent in Hc.
  destruct (content_size_on_object rt _ _ Hc) as (_ & _ & _ & ->). f_equal.
  destruct (typed_embedding rt _ _ Ht) as [-> | (items & -> & _)].
  - reflexivity.
  - cbn [truthy is_undefined]. apply embedding_failed_eq.
Qed.

(** When phase 1 succeeds and the content serialises, the result of
    [validateMemoryEntry] lists the errors of the four field validators,
    all of them, in the order project, branch, content size, embedding
    (the embedding validator being skipped when the entry has no
    embedding); it is the typed entry when there is none. *)
Theorem phase2_reports_every_validator (rt : Runtime) (entry d : value)
        (c : ValidationResult) :
  validateTyped rt entry = Normal (Success d) ->
  ContentSizeValidator_validate rt (get d (js "content")) = Normal c ->
  exists project branch r,
    get d (js "project") = VString project
    /\ get d (js "branch") = VString branch
    /\ validateMemoryEntry rt entry = Normal r
    /\ errors_or_empty r
       = errors_or_empty (ProjectValidator_validate project)
         ++ errors_or_empty (BranchValidator_validate branch)
         ++ errors_or_empty c
         ++ (if is_undefined (get d (js "embedding")) then []
             else errors_or_empty (EmbeddingValidator_validate (get d (js "embedding"))))
    /\ (errors_or_empty r = [] -> r = Success d)
    /\ (errors_or_empty r <> [] -> r = Failure (errors_or_empty r)).
Proof.
  intros Ht Hc.
  destruct (validateTyped_success rt _ _ Ht eq_refl)
    as (props1 & T & out & issues1 & issues2 & _ & _ & _ & Heq).
  injection Heq as ->. cbn [get] in *.
  destruct (phase2_errors rt _ _ _ Ht Hc) as (project & branch & Hp & Hb & _ & _ & Hv).
  exists project, branch. eexists.
  split; [exact Hp|]. split; [exact Hb|]. split; [exact Hv|].
  rewrite errors_finish. split; [reflexivity|].
  match goal with |- (?errs = [] -> _) /\ _ =>
    destruct (finish_cases errs (VObject out)) as [[E ->] | (e & rest & E & ->)];
    rewrite E end.
  - split; [reflexivity | congruence].
  - split; [discriminate | reflexivity].
Qed.

Lemma phase2_reports_every_validator_example :
  exists project branch r,
    get (task_entry "bad project!" "/x//y/" 5 []) (js "project") = VString project
    /\ get (task_entry "bad project!" "/x//y/" 5 []) (js "branch") = VString branch
    /\ validateMemoryEntry zod3 (task_entry "bad project!" "/x//y/" 5 []) = Normal r
    /\ errors_or_empty r
       = errors_or_empty (ProjectValidator_validate project)
         ++ errors_or_empty (BranchValidator_validate branch)
         ++ errors_or_empty (Success (task_content 5))
         ++ (if is_undefined (get (task_entry "bad project!" "/x//y/" 5 []) (js "embedding"))
             then []
             else errors_or_empty
                    (EmbeddingValidator_validate
                       (get (task_entry "bad project!" "/x//y/" 5 []) (js "embedding"))))
    /\ (errors_or_empty r = [] -> r = Success (task_entry "bad project!" "/x//y/" 5 []))
    /\ (errors_or_empty r <> [] -> r = Failure (errors_or_empty r)).
Proof.
  apply (phase2_reports_every_validator zod3 (task_entry "bad project!" "/x//y/" 5 [])
           (task_entry "bad project!" "/x//y/" 5 []) (Success (task_content 5)));
    vm_compute; reflexivity.
Defined.

(** [validateMemoryEntry] accepts a candidate, returning [d], exactly when
    phase 1 returns [d], the project and the branch of [d] pass their
    validators, the content of [d] serialises to at most 1,048,576 bytes,
    and the embedding of [d] is absent or passes its validator. *)
Theorem validateMemoryEntry_accepts_iff (rt : Runtime) (entry d : value) :
  validateMemoryEntry rt entry = Normal (Success d)
  <-> validateTyped rt entry = Normal (Success d)
      /\ (exists project, get d (js "project") = VString project
            /\ success (ProjectValidator_validate project) = true)
      /\ (exists branch, get d (js "branch") = VString branch
            /\ success (BranchValidator_validate branch) = true)
      /\ (exists size, serialized_size rt (get d (js "content")) = Some size
            /\ size <= MAX_CONTENT_SIZE)
      /\ (get d (js "embedding") = VUndefined
          \/ success (EmbeddingValidator_validate (get d (js "embedding"))) = true).
Proof.
  split.
  - intros H. destruct (accepted_typed rt _ _ H) as (out & -> & Ht).
    split; [exact Ht|]. cbn [get].
    destruct (validated_content_object rt _ _ Ht) as (cprops & Hcontent).
    destruct (ContentSizeValidator_validate rt (prop (js "content") out)) as [c|] eqn:Hc;
      [|rewrite (phase2 rt _ _ Ht), Hc in H; discriminate].
    destruct (phase2_errors rt _ _ _ Ht Hc) as (project & branch & Hp & Hb & _ & _ & Hv).
    rewrite Hv in H. injection H as H.
    assert (success (finish
              (errors_or_empty (ProjectValidator_validate project)
               ++ errors_or_empty (BranchValidator_validate branch)
               ++ errors_or_empty c
               ++ (if is_undefined (prop (js "embedding") out) then []
                   else errors_or_empty
                          (EmbeddingValidator_validate (prop (js "embedding") out))))
              (VObject out)) = true) as Hs by (rewrite H; reflexivity).
    apply finish_success_iff in Hs.
    apply app_eq_nil in Hs as [HP Hs]. apply app_eq_nil in Hs as [HB Hs].
    apply app_eq_nil in Hs as [HC HE].
    split; [exists project; split; [exact Hp|]; apply finish_errors_nil; exact HP|].
    split; [exists branch; split; [exact Hb|]; apply finish_errors_nil; exact HB|].
    split.
    + rewrite Hcontent in Hc |- *.
      destruct (content_size_on_object rt _ _ Hc) as (size & Hsize & -> & _).
      exists size. split; [exact Hsize|].
      rewrite errors_finish in HC.
      destruct (MAX_CONTENT_SIZE <? size) eqn:E; [discriminate|].
      apply N.ltb_ge in E. exact E.
    + destruct (typed_embedding rt _ _ Ht) as [E | (items & E & _)]; [left; exact E|].
      right. rewrite E in HE |- *. cbn [is_undefined] in HE.
      pose proof (embedding_validator_accumulates items) as (_ & _ & _ & Hiff & _).
      apply Hiff. exact HE.
  - intros (Ht & (project & Hp & HP) & (branch & Hb & HB) & (size & Hsize & Hle) & HE).
    destruct (validateTyped_success rt _ _ Ht eq_refl)
      as (props1 & T & out & issues1 & issues2 & _ & _ & _ & Heq).
    injection Heq as ->. cbn [get] in *.
    destruct (validated_content_object rt _ _ Ht) as (cprops & Hcontent).
    rewrite Hcontent in Hsize.
    assert (ContentSizeValidator_validate rt (prop (js "content") out)
            = Normal (Success (VObject cprops))) as Hc.
    { rewrite Hcontent. unfold ContentSizeValidator_validate.
      unfold serialized_size in Hsize.
      destruct (JSON_stringify rt (VObject cprops)) as [s|]; [|discriminate].
      injection Hsize as <-. cbn [bind].
      assert ((MAX_CONTENT_SIZE <? encoded_length s) = false) as ->
          by (apply N.ltb_ge; exact Hle).
      reflexivity. }
    destruct (phase2_errors rt _ _ _ Ht Hc)
      as (project' & branch' & Hp' & Hb' & _ & _ & Hv).
    rewrite Hp in Hp'. injection Hp' as <-. rewrite Hb in Hb'. injection Hb' as <-.
    rewrite Hv. do 2 f_equal.
    unfold ProjectValidator_validate in HP |- *.
    unfold BranchValidator_validate in HB |- *.
    apply finish_errors_nil in HP, HB. rewrite HP, HB. cbn [app errors_or_empty Success errors].
    destruct HE as [-> | HE]; [reflexivity|].
    destruct (typed_embedding rt _ _ Ht) as [-> | (items & E & _)]; [reflexivity|].
    rewrite E in HE |- *. cbn [is_undefined].
    pose proof (embedding_validator_accumulates items) as (_ & _ & _ & Hiff & _).
    rewrite (proj1 Hiff HE). reflexivity.
Qed.


(* ------------------------------------------------------------------ *)
(** ** The errors of a result *)

(** *** Failures of phase 1 *)

Lemma known_type_dispatch (t : jsstring) :
  existsb (JsString.eqb t) MemoryEntryType = true ->
  exists T, schema_of_type (VString t) = Some T.
Proof.
  unfold MemoryEntryType, schema_of_type. cbn [existsb]. intros H.
  destruct (t =? TASK_STATE)%js; [eauto|].
  destruct (t =? COMMIT_DELTA)%js; [eauto|].
  destruct (t =? REASONING_ENTRY)%js; [eauto|].
  destruct (t =? SUMMARY_CHECKPOINT)%js; [eauto|].
  destruct (t =? BRANCH_META)%js; [eauto | discriminate].
Qed.

Lemma content_schema_object (type : value) (C : schema) :
  content_schema_of_type type = Some C -> exists cshape, C = ZObject cshape.
Proof.
  unfold content_schema_of_type. destruct type; try discriminate.
  repeat match goal with
         | |- (if ?b then _ else _) = _ -> _ => destruct b
         end; intros H; try discriminate; injection H as <-; eexists; reflexivity.
Qed.

Section Failures.
Variable rt : Runtime.

Lemma validate_failure_zod (entry : value) (r : ValidationResult) :
  validate rt entry = Normal r -> success r = false ->
  exists i issues, r = Failure (map (issue_error rt) (i :: issues)).
Proof.
  rewrite validate_eq. intros H Hs.
  destruct (parse rt MemoryEntrySchema [] entry) as [[d|d|] [|i issues]];
    try discriminate; injection H as <-; try discriminate;
    eexists; eexists; reflexivity.
Qed.

(** [validate] succeeded and [validateTyped] failed: the errors are the
    issues of the variant schema on what the envelope schema returned. *)
Lemma dispatch_failure (entry : value) (props1 : list (jsstring * value))
      (r : ValidationResult) :
  validate rt entry = Normal (Success (VObject props1)) ->
  validateTyped rt entry = Normal r -> success r = false ->
  exists props0 name C i issues issues1,
    entry = VObject props0
    /\ parse rt MemoryEntrySchema [] (VObject props0) = (OK (VObject props1), issues1)
    /\ prop (js "type") props1 = VString name
    /\ content_schema_of_type (VString name) = Some C
    /\ snd (parse rt (ZObject (variant_shape (ZLiteral name) C)) [] (VObject props1))
       = i :: issues
    /\ r = Failure (map (issue_error rt) (i :: issues)).
Proof.
  intros Hv Ht Hs.
  unfold validateTyped in Ht. rewrite Hv in Ht. cbn in Ht.
  rewrite validate_eq in Hv.
  destruct (parse rt MemoryEntrySchema [] entry) as [[d|d|] issues1] eqn:Hp;
    try (destruct issues1; discriminate).
  injection Hv as ->.
  destruct (parse_object_VObject rt _ _ _ _ _ Hp) as (props0 & ? & -> & _).
  pose proof (envelope_field rt _ _ _ (js "type") (ZNativeEnum MemoryEntryType) Hp
                (or_intror (or_introl eq_refl))) as Htype.
  assert (exists name, prop (js "type") props1 = VString name
                       /\ existsb (JsString.eqb name) MemoryEntryType = true)
    as (name & Hname & Hknown).
  { pose proof (nativeEnum_returns_input rt _ _ _ _ Htype) as E. rewrite E in Htype |- *.
    cbn [parse] in Htype.
    destruct (prop (js "type") props0) as [| | |f| |t| |]; try discriminate.
    - destruct (isNaN f); discriminate.
    - exists t. split; [reflexivity|].
      destruct (existsb (JsString.eqb t) MemoryEntryType); [reflexivity | discriminate]. }
  destruct (known_type_dispatch name Hknown) as [T HT].
  destruct (content_schema_dispatch _ _ HT) as (name' & C & E & _ & HC & HTeq & _).
  injection E as <-.
  rewrite (validateByType_eq rt props1 T) in Ht by (rewrite Hname; exact HT).
  rewrite HTeq in Ht.
  destruct (parse rt (ZObject (variant_shape (ZLiteral name) C)) [] (VObject props1))
    as [[d|d|] [|i issues]] eqn:Hp2;
    try discriminate; injection Ht as <-; try discriminate;
    exists props0, name, C, i, issues, issues1;
    repeat split; try reflexivity; try assumption; rewrite Hp2; reflexivity.
Qed.

Lemma validateTyped_failure_zod (entry : value) (r : ValidationResult) :
  validateTyped rt entry = Normal r -> success r = false ->
  exists i issues, r = Failure (map (issue_error rt) (i :: issues)).
Proof.
  intros Ht Hs.
  destruct (validate_total rt entry) as (r0 & Hv & _).
  destruct (success r0) eqn:Es0.
  - destruct (validate_success rt _ _ Hv Es0) as (props1 & issues1 & _ & ->).
    destruct (dispatch_failure _ _ _ Hv Ht Hs)
      as (_ & _ & _ & i & issues & _ & _ & _ & _ & _ & _ & ->).
    eexists; eexists; reflexivity.
  - rewrite (validate_failure rt _ _ Hv Es0) in Ht. injection Ht as <-.
    exact (validate_failure_zod _ _ Hv Es0).
Qed.

End Failures.

(** *** The errors of the field validators *)

Lemma project_codes (p : jsstring) (e : ValidationError) :
  1 <= JsString.length p ->
  In e (errors_or_empty (ProjectValidator_validate p)) ->
  Validation.code e = js "TOO_LONG" \/ Validation.code e = js "INVALID_FORMAT".
Proof.
  intros Hlen. rewrite project_errors_eq.
  assert ((JsString.length p <? PROJECT_MIN_LENGTH) = false) as ->
      by (apply N.ltb_ge; exact Hlen).
  cbn [app].
  destruct (PROJECT_MAX_LENGTH <? JsString.length p);
    destruct (negb (PROJECT_NAME_REGEX_test p)); simpl;
    intros H; repeat (destruct H as [<-|H]; [auto|]); contradiction.
Qed.

Lemma branch_codes (b : jsstring) (e : ValidationError) :
  1 <= JsString.length b ->
  In e (errors_or_empty (BranchValidator_validate b)) ->
  Validation.code e = js "TOO_LONG" \/ Validation.code e = js "INVALID_FORMAT".
Proof.
  intros Hlen. rewrite <- branch_failed_eq, branch_errors_eq.
  assert ((JsString.length b <? BRANCH_MIN_LENGTH) = false) as ->
      by (apply N.ltb_ge; exact Hlen).
  cbn [app].
  destruct (BRANCH_MAX_LENGTH <? JsString.length b);
    destruct (negb (BRANCH_NAME_REGEX_test b));
    destruct (startsWith b (js "/") || endsWith b (js "/"));
    destruct (includes b (js "//")); simpl;
    intros H; repeat (destruct H as [<-|H]; [auto|]); contradiction.
Qed.

Lemma in_bad_elements (items : list value) (start : N) (e : ValidationError) :
  In e (List.concat
          (mapi_from (fun i v => if bad_element v then [invalid_value i] else [])
                     start items)) ->
  exists i x, nth_error items i = Some x /\ bad_element x = true
              /\ e = invalid_value (start + N.of_nat i).
Proof.
  revert start. induction items as [|y items IH]; intros start H; [contradiction|].
  cbn [mapi_from List.concat] in H. apply in_app_or in H as [H|H].
  - destruct (bad_element y) eqn:Ey; [|contradiction].
    destruct H as [<-|[]]. exists 0%nat, y.
    split; [reflexivity|]. split; [exact Ey|]. f_equal. lia.
  - destruct (IH _ H) as (i & x & Hn & Hb & ->).
    exists (S i), x. split; [exact Hn|]. split; [exact Hb|]. f_equal. lia.
Qed.

Lemma embedding_errors_cases (items : list value) (e : ValidationError) :
  In e (errors_or_empty (EmbeddingValidator_validate (VArray items))) ->
  e = empty_embedding
  \/ e = invalid_dimension (array_length items)
  \/ exists i x, nth_error items i = Some x /\ bad_element x = true
                 /\ e = invalid_value (N.of_nat i).
Proof.
  rewrite embedding_errors_eq. intros H.
  apply in_app_or in H as [H|H].
  { destruct (array_length items =? 0); [|contradiction].
    destruct H as [<-|[]]. left; reflexivity. }
  apply in_app_or in H as [H|H].
  { destruct (negb _); [|contradiction].
    destruct H as [<-|[]]. right; left; reflexivity. }
  right; right. exact (in_bad_elements items 0 e H).
Qed.

(** *** The codes a result can hold *)

Lemma has_code_false (c : string) (r : ValidationResult) (allowed : list jsstring) :
  (forall x, In x (codes r) -> In x allowed) ->
  existsb (JsString.eqb (js c)) allowed = false ->
  has_code c r = false.
Proof.
  intros Hall Hc. unfold has_code.
  destruct (existsb (JsString.eqb (js c)) (codes r)) eqn:E; [|reflexivity].
  apply existsb_exists in E as (x & Hx & Heq).
  apply jseqb_eq in Heq. subst x.
  assert (existsb (JsString.eqb (js c)) allowed = true) as E'.
  { apply existsb_exists. exists (js c). split; [apply Hall; exact Hx | apply jseqb_refl]. }
  congruence.
Qed.

(** Whatever [validateMemoryEntry] returns, its error codes are zod's six
    issue codes of phase 1 or six codes of the field validators.  Three
    codes that the validators define never reach the caller: TOO_SHORT
    (the schema already requires a non-empty project and branch),
    INVALID_TYPE (the dispatch has a case for every type the envelope
    accepts, and the embedding is an array) and STRING_TOO_LONG. *)
Theorem reported_codes (rt : Runtime) (entry : value) (r : ValidationResult) :
  validateMemoryEntry rt entry = Normal r ->
  (forall c, In c (codes r) ->
     In c [js "invalid_type"; js "invalid_literal"; js "invalid_enum_value";
           js "invalid_string"; js "too_small"; js "too_big";
           js "TOO_LONG"; js "INVALID_FORMAT"; js "CONTENT_TOO_LARGE";
           js "EMPTY_EMBEDDING"; js "INVALID_DIMENSION"; js "INVALID_VALUE"])
  /\ has_code "TOO_SHORT" r = false
  /\ has_code "INVALID_TYPE" r = false
  /\ has_code "STRING_TOO_LONG" r = false.
Proof.
  intros H.
  match goal with |- ?A /\ _ => assert A as Hcodes end.
  { destruct (validateTyped_total rt entry) as (r1 & E1 & _).
    destruct (success r1) eqn:Es1.
    - destruct (validateTyped_success rt _ _ E1 Es1)
        as (props1 & T & out & issues1 & issues2 & _ & _ & _ & ->).
      destruct (ContentSizeValidator_validate rt (prop (js "content") out)) as [c|] eqn:Hc;
        [|rewrite (phase2 rt _ _ E1), Hc in H; discriminate].
      destruct (phase2_errors rt _ _ _ E1 Hc)
        as (project & branch & _ & _ & Hlp & Hlb & Hv).
      rewrite Hv in H. injection H as <-.
      unfold codes. rewrite errors_finish. intros x Hx.
      apply in_map_iff in Hx as (e & <- & He).
      apply in_app_or in He as [He|He].
      { destruct (project_codes _ _ Hlp He) as [-> | ->]; simpl; auto 15. }
      apply in_app_or in He as [He|He].
      { destruct (branch_codes _ _ Hlb He) as [-> | ->]; simpl; auto 15. }
      apply in_app_or in He as [He|He].
      { destruct (validated_content_object rt _ _ E1) as (cprops & Hcontent).
        rewrite Hcontent in Hc.
        destruct (content_size_on_object rt _ _ Hc) as (size & _ & -> & _).
        rewrite errors_finish in He.
        destruct (MAX_CONTENT_SIZE <? size); [|contradiction].
        destruct He as [<-|[]]. simpl; auto 15. }
      destruct (typed_embedding rt _ _ E1) as [E | (items & E & _)];
        rewrite E in He; cbn [is_undefined] in He; [contradiction|].
      destruct (embedding_errors_cases _ _ He) as [-> | [-> | (i & y & _ & _ & ->)]];
        simpl; auto 15.
    - rewrite (phase1_failure rt _ _ E1 Es1) in H. injection H as <-.
      destruct (validateTyped_failure_zod rt _ _ E1 Es1) as (i & issues & ->).
      unfold codes. cbn [errors_or_empty Failure errors]. intros x Hx.
      apply in_map_iff in Hx as (e & <- & He).
      apply in_map_iff in He as (iss & <- & _).
      cbn [issue_error Validation.code]. destruct (Zod.code iss); simpl; auto 15. }
  split; [exact Hcodes|].
  split; [|split]; apply (has_code_false _ _ _ Hcodes); reflexivity.
Qed.

Lemma reported_codes_example :
  (forall c, In c (codes (Failure [progress_error])) ->
     In c [js "invalid_type"; js "invalid_literal"; js "invalid_enum_value";
           js "invalid_string"; js "too_small"; js "too_big";
           js "TOO_LONG"; js "INVALID_FORMAT"; js "CONTENT_TOO_LARGE";
           js "EMPTY_EMBEDDING"; js "INVALID_DIMENSION"; js "INVALID_VALUE"])
  /\ has_code "TOO_SHORT" (Failure [progress_error]) = false
  /\ has_code "INVALID_TYPE" (Failure [progress_error]) = false
  /\ has_code "STRING_TOO_LONG" (Failure [progress_error]) = false.
Proof.
  apply (reported_codes zod3 (task_entry "bad project!" "feature/x" 150 [])).
  vm_compute. reflexivity.
Defined.

(** *** INVALID_VALUE *)

Lemma map_injective {A B : Type} (f : A -> B) :
  (forall x y, f x = f y -> x = y) ->
  forall l l', map f l = map f l' -> l = l'.
Proof.
  intros Hf l. induction l as [|x l IH]; intros [|y l'] H; try discriminate;
    [reflexivity|].
  injection H as H1 H2. f_equal; auto.
Qed.

Lemma js_injective (s s' : string) : js s = js s' -> s = s'.
Proof.
  unfold js. intros H.
  apply (map_injective N_of_ascii) in H.
  - rewrite <- (string_of_list_ascii_of_string s), H.
    apply string_of_list_ascii_of_string.
  - intros x y E. rewrite <- (ascii_N_embedding x), E. apply ascii_N_embedding.
Qed.

Lemma ofN_injective (n m : N) : ofN n = ofN m -> n = m.
Proof.
  unfold ofN. intros H. apply js_injective in H.
  apply (f_equal NilEmpty.uint_of_string) in H.
  rewrite !NilEmpty.usu in H. injection H as H.
  rewrite <- (Unsigned.of_to n), H. apply Unsigned.of_to.
Qed.

Lemma typed_bad_element (x : value) :
  (exists f, x = VNumber f /\ isNaN f = false) ->
  bad_element x = is_infinite x.
Proof. intros (f & -> & Hf). destruct f; simpl in *; congruence. Qed.

(** Within [validateMemoryEntry] the embedding validator sees numbers
    that are not NaN (phase 1 rejects the rest), so it reports
    INVALID_VALUE for the infinite elements and for nothing else: the error
    of index [i] is in the result exactly when element [i] of the embedding
    is plus or minus infinity. *)
Theorem invalid_value_iff_infinite (rt : Runtime) (entry d : value)
        (r : ValidationResult) (items : list value) :
  validateTyped rt entry = Normal (Success d) ->
  get d (js "embedding") = VArray items ->
  validateMemoryEntry rt entry = Normal r ->
  (forall i, In (invalid_value (N.of_nat i)) (errors_or_empty r)
             <-> exists x, nth_error items i = Some x /\ is_infinite x = true)
  /\ (has_code "INVALID_VALUE" r = true <-> existsb is_infinite items = true).
Proof.
  intros Ht Hemb H.
  destruct (validateTyped_success rt _ _ Ht eq_refl)
    as (props1 & T & out & issues1 & issues2 & _ & _ & _ & Heq).
  injection Heq as ->. cbn [get] in Hemb.
  destruct (ContentSizeValidator_validate rt (prop (js "content") out)) as [c|] eqn:Hc;
    [|rewrite (phase2 rt _ _ Ht), Hc in H; discriminate].
  destruct (phase2_errors rt _ _ _ Ht Hc) as (project & branch & _ & _ & Hlp & Hlb & Hv).
  rewrite Hv in H. injection H as <-. rewrite Hemb.
  cbn [is_undefined]. unfold has_code, codes. rewrite errors_finish.
  destruct (typed_embedding rt _ _ Ht) as [E | (items' & E & Hnum)];
    [congruence|].
  rewrite Hemb in E. injection E as <-.
  destruct (validated_content_object rt _ _ Ht) as (cprops & Hcontent).
  rewrite Hcontent in Hc.
  destruct (content_size_on_object rt _ _ Hc) as (size & _ & Hceq & _).
  (* an error with the code INVALID_VALUE comes from a bad element *)
  assert (forall e,
            In e (errors_or_empty (ProjectValidator_validate project)
                  ++ errors_or_empty (BranchValidator_validate branch)
                  ++ errors_or_empty c
                  ++ errors_or_empty (EmbeddingValidator_validate (VArray items))) ->
            Validation.code e = js "INVALID_VALUE" ->
            exists i x, nth_error items i = Some x /\ is_infinite x = true
                        /\ e = invalid_value (N.of_nat i)) as Hfrom.
  { intros e He Hcode.
    apply in_app_or in He as [He|He].
    { destruct (project_codes _ _ Hlp He) as [E | E]; rewrite E in Hcode; discriminate. }
    apply in_app_or in He as [He|He].
    { destruct (branch_codes _ _ Hlb He) as [E | E]; rewrite E in Hcode; discriminate. }
    apply in_app_or in He as [He|He].
    { rewrite Hceq, errors_finish in He.
      destruct (MAX_CONTENT_SIZE <? size); [|contradiction].
      destruct He as [<-|[]]. discriminate. }
    destruct (embedding_errors_cases _ _ He) as [-> | [-> | (i & x & Hn & Hb & ->)]];
      try discriminate.
    exists i, x. split; [exact Hn|]. split; [|reflexivity].
    rewrite <- (typed_bad_element x); [exact Hb|].
    apply Hnum. exact (nth_error_In _ _ Hn). }
  assert (forall i x, nth_error items i = Some x -> is_infinite x = true ->
            In (invalid_value (N.of_nat i))
               (errors_or_empty (ProjectValidator_validate project)
                ++ errors_or_empty (BranchValidator_validate branch)
                ++ errors_or_empty c
                ++ errors_or_empty (EmbeddingValidator_validate (VArray items)))) as Hto.
  { intros i x Hn Hinf. do 3 (apply in_or_app; right).
    pose proof (embedding_validator_accumulates items) as (_ & _ & Hbad & _).
    apply (Hbad i x Hn).
    rewrite (typed_bad_element x); [exact Hinf|].
    apply Hnum. exact (nth_error_In _ _ Hn). }
  split.
  - intros i. split.
    + intros Hin. destruct (Hfrom _ Hin eq_refl) as (j & x & Hn & Hinf & Heq).
      injection Heq as _ Heq. apply ofN_injective in Heq.
      apply Nat2N.inj in Heq. subst j. eauto.
    + intros (x & Hn & Hinf). exact (Hto i x Hn Hinf).
  - split.
    + intros Hex. apply existsb_exists in Hex as (cd & Hcd & Heq).
      apply jseqb_eq in Heq. subst cd.
      apply in_map_iff in Hcd as (e & Hcode & He).
      destruct (Hfrom _ He Hcode) as (j & x & Hn & Hinf & _).
      apply existsb_exists. exists x. split; [exact (nth_error_In _ _ Hn) | exact Hinf].
    + intros Hex. apply existsb_exists in Hex as (x & Hx & Hinf).
      apply In_nth_error in Hx as [i Hn].
      apply existsb_exists. exists (js "INVALID_VALUE"). split; [|apply jseqb_refl].
      apply in_map_iff. exists (invalid_value (N.of_nat i)).
      split; [reflexivity | exact (Hto i x Hn Hinf)].
Qed.

Lemma invalid_value_iff_infinite_example :
  (forall i, In (invalid_value (N.of_nat i))
                (errors_or_empty (Failure [invalid_dimension 2; invalid_value 1]))
             <-> exists x, nth_error [num 1; VNumber Infinity] i = Some x
                           /\ is_infinite x = true)
  /\ (has_code "INVALID_VALUE" (Failure [invalid_dimension 2; invalid_value 1]) = true
      <-> existsb is_infinite [num 1; VNumber Infinity] = true).
Proof.
  apply (invalid_value_iff_infinite zod3
           (task_entry "ucp" "main" 5
              [("embedding", VArray [num 1; VNumber Infinity])]%string)
           (task_entry "ucp" "main" 5
              [("embedding", VArray [num 1; VNumber Infinity])]%string));
    vm_compute; reflexivity.
Defined.


(* ------------------------------------------------------------------ *)
(** ** The type dispatch and the content *)

(** *** The path of an issue *)

Lemma in_concat_mapi {A B : Type} (f : N -> A -> list B) (l : list A) (start : N)
      (b : B) :
  In b (List.concat (mapi_from f start l)) -> exists i x, In x l /\ In b (f i x).
Proof.
  revert start. induction l as [|y l IH]; intros start H; [contradiction|].
  cbn [mapi_from List.concat] in H. apply in_app_or in H as [H|H].
  - exists start, y. split; [left; reflexivity | exact H].
  - destruct (IH _ H) as (i & x & Hx & Hb). exists i, x. split; [right; exact Hx | exact Hb].
Qed.

Lemma in_concat_zipi {A B C : Type} (f : N -> A -> B -> list C) (la : list A)
      (lb : list B) (start : N) (c : C) :
  In c (List.concat (zipi_from f start la lb)) ->
  exists i a b, In a la /\ In c (f i a b).
Proof.
  revert lb start. induction la as [|a la IH]; intros [|b lb] start H;
    try contradiction.
  cbn [zipi_from List.concat] in H. apply in_app_or in H as [H|H].
  - exists start, a, b. split; [left; reflexivity | exact H].
  - destruct (IH _ _ H) as (i & a' & b' & Ha & Hc).
    exists i, a', b'. split; [right; exact Ha | exact Hc].
Qed.

(** The path of every issue of a parse at path [p] starts with [p]. *)
Lemma parse_paths (rt : Runtime) (s : schema) :
  forall p v i, In i (snd (parse rt s p v)) -> exists q, Zod.path i = p ++ q.
Proof.
  induction s as [checks|checks| |lit|vals|vals|elt IH|items IH|vt IH|shape IH
                 |inner IH|inner IH] using schema_ind; intros p v i Hi.
  - cbn [parse] in Hi. destruct v; cbn [snd] in Hi;
      try (destruct Hi as [<-|[]]; exists []; rewrite app_nil_r; reflexivity).
    apply in_flat_map in Hi as (c & _ & Hc).
    destruct c; cbn [stringCheck] in Hc;
      match type of Hc with In _ (if ?b then _ else _) => destruct b end;
      try contradiction; destruct Hc as [<-|[]]; exists []; rewrite app_nil_r; reflexivity.
  - cbn [parse] in Hi. destruct v as [| | |x| | | |]; cbn [snd] in Hi;
      try (destruct Hi as [<-|[]]; exists []; rewrite app_nil_r; reflexivity).
    destruct (isNaN x); cbn [snd] in Hi;
      [destruct Hi as [<-|[]]; exists []; rewrite app_nil_r; reflexivity|].
    apply in_flat_map in Hi as (c & _ & Hc).
    destruct c; cbn [numberCheck] in Hc;
      match type of Hc with In _ (if ?b then _ else _) => destruct b end;
      try contradiction; destruct Hc as [<-|[]]; exists []; rewrite app_nil_r; reflexivity.
  - contradiction.
  - cbn [parse] in Hi. destruct v as [| | | | |t| |]; cbn [snd] in Hi;
      try (destruct Hi as [<-|[]]; exists []; rewrite app_nil_r; reflexivity).
    destruct (t =? lit)%js; cbn [snd] in Hi; [contradiction|].
    destruct Hi as [<-|[]]; exists []; rewrite app_nil_r; reflexivity.
  - cbn [parse] in Hi. destruct v as [| | | | |t| |]; cbn [snd] in Hi;
      try (destruct Hi as [<-|[]]; exists []; rewrite app_nil_r; reflexivity).
    destruct (existsb (JsString.eqb t) vals); cbn [snd] in Hi; [contradiction|].
    destruct Hi as [<-|[]]; exists []; rewrite app_nil_r; reflexivity.
  - cbn [parse] in Hi. destruct v as [| | |x| |t| |]; cbn [snd] in Hi;
      try (destruct Hi as [<-|[]]; exists []; rewrite app_nil_r; reflexivity).
    + destruct (isNaN x); cbn [snd] in Hi;
        destruct Hi as [<-|[]]; exists []; rewrite app_nil_r; reflexivity.
    + destruct (existsb (JsString.eqb t) vals); cbn [snd] in Hi; [contradiction|].
      destruct Hi as [<-|[]]; exists []; rewrite app_nil_r; reflexivity.
  - cbn [parse] in Hi. destruct v as [| | | | | |data|]; cbn [snd] in Hi;
      try (destruct Hi as [<-|[]]; exists []; rewrite app_nil_r; reflexivity).
    apply in_concat_mapi in Hi as (j & x & _ & Hi).
    destruct (IH _ _ _ Hi) as [q Hq]. exists (PIndex j :: q).
    rewrite Hq, <- app_assoc. reflexivity.
  - cbn [parse] in Hi. destruct v as [| | | | | |data|]; cbn [snd] in Hi;
      try (destruct Hi as [<-|[]]; exists []; rewrite app_nil_r; reflexivity).
    destruct (array_length data <? N.of_nat (List.length items)); cbn [snd] in Hi;
      [destruct Hi as [<-|[]]; exists []; rewrite app_nil_r; reflexivity|].
    apply in_app_or in Hi as [Hi|Hi].
    + destruct (N.of_nat (List.length items) <? array_length data); [|contradiction].
      destruct Hi as [<-|[]]; exists []; rewrite app_nil_r; reflexivity.
    + apply in_concat_zipi in Hi as (j & si & x & Hsi & Hi).
      rewrite Forall_forall in IH.
      destruct (IH si Hsi _ _ _ Hi) as [q Hq]. exists (PIndex j :: q).
      rewrite Hq, <- app_assoc. reflexivity.
  - cbn [parse] in Hi. destruct v as [| | | | | | |props]; cbn [snd] in Hi;
      try (destruct Hi as [<-|[]]; exists []; rewrite app_nil_r; reflexivity).
    apply in_flat_map in Hi as (kv & _ & Hi).
    destruct (IH _ _ _ Hi) as [q Hq]. exists (PKey (fst kv) :: q).
    rewrite Hq, <- app_assoc. reflexivity.
  - cbn [parse] in Hi. destruct v as [| | | | | | |props]; cbn [snd] in Hi;
      try (destruct Hi as [<-|[]]; exists []; rewrite app_nil_r; reflexivity).
    apply in_flat_map in Hi as (ks & Hks & Hi).
    rewrite Forall_forall in IH.
    destruct (IH ks Hks _ _ _ Hi) as [q Hq]. exists (PKey (fst ks) :: q).
    rewrite Hq, <- app_assoc. reflexivity.
  - cbn [parse] in Hi. destruct v; try (exact (IH _ _ _ Hi)). contradiction.
  - cbn [parse] in Hi. destruct v; try (exact (IH _ _ _ Hi)). contradiction.
Qed.

(** *** A failed dispatch *)

(** When the envelope is valid and [validateTyped] fails all the same, the
    failure is about the content: every error has a path that starts with
    [content].  [validateMemoryEntry] returns that failure. *)
Theorem dispatch_failure_is_content_error (rt : Runtime) (entry : value)
        (r : ValidationResult) :
  success_of (validate rt entry) = true ->
  validateTyped rt entry = Normal r ->
  success r = false ->
  validateMemoryEntry rt entry = Normal r
  /\ errors_or_empty r <> []
  /\ forall e, In e (errors_or_empty r) -> path_under "content" e = true.
Proof.
  intros Hv Ht Hs.
  split; [exact (phase1_failure rt _ _ Ht Hs)|].
  destruct (validate rt entry) as [r0|] eqn:E0; [|discriminate]. cbn [success_of] in Hv.
  destruct (validate_success rt _ _ E0 Hv) as (props1 & issues0 & _ & ->).
  destruct (dispatch_failure rt _ _ _ E0 Ht Hs)
    as (props0 & name & C & i & issues & issues1 & -> & Hp1 & Hname & HC & Hiss & ->).
  cbn [errors_or_empty Failure errors]. split; [discriminate|].
  intros e He. apply in_map_iff in He as (iss & <- & Hin).
  rewrite <- Hiss in Hin. cbn [parse snd] in Hin.
  apply in_flat_map in Hin as (ks & Hks & Hin).
  (* the fields that the variant shares with the envelope raise no issue *)
  assert (forall k s, In (k, s) MemoryEntryShape -> wf s = true ->
            snd (parse rt s ([] ++ [PKey k]) (prop k props1)) = []) as Hclean.
  { intros k s Hk Hwf.
    pose proof (envelope_field rt _ _ _ k s Hp1 Hk) as H1.
    apply fst_parse_OK in H1.
    change ([] ++ [PKey k]) with [PKey k].
    rewrite (parse_idempotent rt s Hwf _ _ _ _ H1). reflexivity. }
  unfold variant_shape in Hks. cbn [In] in Hks.
  destruct Hks as [<-|[<-|[<-|[<-|[<-|[<-|[<-|[<-|[<-|[<-|[<-|[]]]]]]]]]]]];
    cbn [fst snd] in Hin;
    try (rewrite Hclean in Hin by (first [reflexivity | simpl; auto 12]);
         contradiction).
  - rewrite Hname in Hin. cbn [parse] in Hin. rewrite jseqb_refl in Hin. contradiction.
  - destruct (parse_paths rt _ _ _ _ Hin) as [q Hq].
    unfold path_under. cbn [issue_error Validation.path]. rewrite Hq.
    cbn [app map String_of_path]. apply jseqb_refl.
Qed.

Lemma dispatch_failure_is_content_error_example :
  validateMemoryEntry zod3 (task_entry "bad project!" "feature/x" 150 [])
  = Normal (Failure [progress_error])
  /\ errors_or_empty (Failure [progress_error]) <> []
  /\ forall e, In e (errors_or_empty (Failure [progress_error])) ->
               path_under "content" e = true.
Proof.
  apply (dispatch_failure_is_content_error zod3
           (task_entry "bad project!" "feature/x" 150 []));
    vm_compute; reflexivity.
Defined.

(** *** The content of an accepted entry *)

(** The content of an accepted entry conforms to the content schema of the
    entry's type: that schema returns it unchanged and without an issue. *)
Theorem accepted_content_conforms (rt : Runtime) (entry d : value) :
  validateMemoryEntry rt entry = Normal (Success d) ->
  exists name C,
    get d (js "type") = VString name
    /\ In name MemoryEntryType
    /\ content_schema_of_type (VString name) = Some C
    /\ parse rt C [PKey (js "content")] (get d (js "content"))
       = (OK (get d (js "content")), []).
Proof.
  intros H. destruct (accepted_typed rt _ _ H) as (out & -> & Ht).
  destruct (typed_type rt _ _ Ht) as (_ & name & C & Htype & Hknown & HC & _ & Hcontent).
  exists name, C. cbn [get]. split; [exact Htype|]. split; [|split; assumption].
  apply existsb_exists in Hknown as (x & Hx & Heq).
  apply jseqb_eq in Heq. subst x. exact Hx.
Qed.

Lemma accepted_content_conforms_example :
  exists name C,
    get accepted_entry (js "type") = VString name
    /\ In name MemoryEntryType
    /\ content_schema_of_type (VString name) = Some C
    /\ parse zod3 C [PKey (js "content")] (get accepted_entry (js "content"))
       = (OK (get accepted_entry (js "content")), []).
Proof.
  apply (accepted_content_conforms zod3 entry_with_unknown_key accepted_entry).
  vm_compute. reflexivity.
Defined.

(** The progress of an accepted TaskState entry is a number that is not
    NaN, not below 0 and not above 100. *)
Theorem accepted_task_progress (rt : Runtime) (entry d : value) :
  validateMemoryEntry rt entry = Normal (Success d) ->
  get d (js "type") = VString TASK_STATE ->
  exists x,
    get (get d (js "content")) (js "progress") = VNumber x
    /\ isNaN x = false
    /\ SFltb x (number_of_Z 0) = false
    /\ SFltb (number_of_Z 100) x = false.
Proof.
  intros H Htask. destruct (accepted_typed rt _ _ H) as (out & -> & Ht).
  destruct (typed_type rt _ _ Ht) as (_ & name & C & Htype & _ & HC & _ & Hcontent).
  cbn [get] in Htask |- *. rewrite Htask in Htype. injection Htype as <-.
  assert (content_schema_of_type (VString TASK_STATE) = Some TaskStateContentSchema)
    as E by reflexivity.
  rewrite E in HC. injection HC as <-. clear E.
  unfold TaskStateContentSchema in Hcontent.
  destruct (parse_object_VObject rt _ _ _ _ _ Hcontent) as (cprops & cout & Hc & _).
  rewrite Hc in Hcontent |- *. cbn [get].
  pose proof Hcontent as Hissues. apply (f_equal snd) in Hissues.
  cbn [parse snd] in Hissues.
  pose proof (flat_map_nil _ _ Hissues
                (js "progress", ZNumber [NMin (number_of_Z 0); NMax (number_of_Z 100)]))
    as Hp.
  cbn [fst snd] in Hp. specialize (Hp (or_intror (or_intror (or_introl eq_refl)))).
  cbn [parse] in Hp.
  destruct (prop (js "progress") cprops) as [| | |x| | | |]; try discriminate.
  destruct (isNaN x) eqn:En; [discriminate|].
  exists x. split; [reflexivity|]. split; [exact En|].
  cbn [snd flat_map numberCheck] in Hp.
  destruct (SFltb x (number_of_Z 0)); [discriminate|].
  destruct (SFltb (number_of_Z 100) x); [discriminate|].
  split; reflexivity.
Qed.

Lemma accepted_task_progress_example :
  exists x,
    get (get accepted_entry (js "content")) (js "progress") = VNumber x
    /\ isNaN x = false
    /\ SFltb x (number_of_Z 0) = false
    /\ SFltb (number_of_Z 100) x = false.
Proof.
  apply (accepted_task_progress zod3 entry_with_unknown_key accepted_entry);
    vm_compute; reflexivity.
Defined.

(** *** Phase 1 on its own results *)

(** What [validate] returns, [validate] accepts again and returns
    unchanged; what [validateTyped] returns, both [validateTyped] and
    [validate] accept again and return unchanged. *)
Theorem phase1_revalidation (rt : Runtime) (entry d : value) :
  (validate rt entry = Normal (Success d) -> validate rt d = Normal (Success d))
  /\ (validateTyped rt entry = Normal (Success d) ->
      validateTyped rt d = Normal (Success d)
      /\ validate rt d = Normal (Success d)).
Proof.
  split.
  - rewrite !validate_eq. intros H.
    destruct (parse rt MemoryEntrySchema [] entry) as [[d'|d'|] issues] eqn:Hp;
      try (destruct issues; discriminate).
    injection H as ->.
    rewrite (parse_idempotent rt MemoryEntrySchema eq_refl _ _ _ _ Hp). reflexivity.
  - intros Ht.
    destruct (validateTyped_success rt _ _ Ht eq_refl)
      as (props1' & T & out & issues1' & issues2' & _ & _ & _ & Heq).
    injection Heq as ->.
    split; [exact (revalidateTyped rt _ _ Ht)|].
    destruct (typed_inv rt _ _ Ht)
      as (props0 & props1 & name & C & issues1 & issues2 & _ & _ & _ & Hknown & HC & _ & Hp2).
    destruct (content_schema_object _ _ HC) as [cshape ->].
    rewrite validate_eq. unfold MemoryEntrySchema.
    rewrite (carries_object rt _ _
               (proj1 (variant_shape_keys (ZLiteral name) (ZObject cshape)))
               (proj2 (variant_shape_keys (ZLiteral name) (ZObject cshape)))
               (variant_carries_envelope rt name cshape Hknown) _ _ _ _ Hp2).
    reflexivity.
Qed.

Lemma phase1_revalidation_example :
  validateTyped zod3 accepted_entry = Normal (Success accepted_entry)
  /\ validate zod3 accepted_entry = Normal (Success accepted_entry).
Proof.
  apply (proj2 (phase1_revalidation zod3 entry_with_unknown_key accepted_entry)).
  vm_compute. reflexivity.
Defined.


(* ------------------------------------------------------------------ *)
(** ** Declared and undeclared keys *)

Lemma rejects_undefined (rt : Runtime) (s : schema) (p : list PathElem) :
  accepts_undefined s = false -> fst (parse rt s p VUndefined) = INVALID.
Proof.
  induction s as [checks|checks| |lit|vals|vals|elt IH|items IH|vt IH|shape IH
                 |inner IH|inner IH] using schema_ind;
    intros Hs; try discriminate; try reflexivity.
  cbn [accepts_undefined] in Hs. cbn [parse]. auto.
Qed.

(** The content of an accepted entry is an object that holds keys of the
    content schema of its type only, each once and in the order of the
    schema (undeclared keys of the candidate's content are dropped), and
    it holds every key that the schema does not allow to be undefined. *)
Theorem accepted_content_keys (rt : Runtime) (entry d : value) :
  validateMemoryEntry rt entry = Normal (Success d) ->
  exists name cshape cprops,
    get d (js "type") = VString name
    /\ content_schema_of_type (VString name) = Some (ZObject cshape)
    /\ get d (js "content") = VObject cprops
    /\ map fst cprops = filter (fun k => has k cprops) (map fst cshape)
    /\ (forall k s, In (k, s) cshape -> accepts_undefined s = false ->
                    has k cprops = true /\ prop k cprops <> VUndefined).
Proof.
  intros H. destruct (accepted_typed rt _ _ H) as (out & -> & Ht).
  destruct (typed_type rt _ _ Ht) as (_ & name & C & Htype & _ & HC & Hwf & Hcontent).
  destruct (content_schema_object _ _ HC) as [cshape ->].
  destruct (parse_object_VObject rt _ _ _ _ _ Hcontent) as (cprops & cout & Hc & _).
  exists name, cshape, cprops. cbn [get].
  split; [exact Htype|]. split; [exact HC|]. split; [exact Hc|].
  rewrite Hc in Hcontent.
  destruct (wf_object_keys cshape Hwf) as (Hnd & Hproto & _).
  split; [exact (object_keys rt _ _ _ _ _ Hnd Hproto Hcontent)|].
  intros k s Hin Hreq.
  assert (prop k cprops <> VUndefined) as Hv.
  { intros E.
    pose proof (parse_object_field rt cshape _ _ _ _ k s Hnd Hproto Hcontent Hin) as Hf.
    rewrite E, (rejects_undefined rt s _ Hreq) in Hf. discriminate. }
  split; [apply prop_has; exact Hv | exact Hv].
Qed.

Lemma accepted_content_keys_example :
  exists name cshape cprops,
    get accepted_entry (js "type") = VString name
    /\ content_schema_of_type (VString name) = Some (ZObject cshape)
    /\ get accepted_entry (js "content") = VObject cprops
    /\ map fst cprops = filter (fun k => has k cprops) (map fst cshape)
    /\ (forall k s, In (k, s) cshape -> accepts_undefined s = false ->
                    has k cprops = true /\ prop k cprops <> VUndefined).
Proof.
  apply (accepted_content_keys zod3 entry_with_unknown_key accepted_entry).
  vm_compute. reflexivity.
Defined.

Lemma parse_object_ext (rt : Runtime) (S : list (jsstring * schema)) (p : list PathElem)
      (props props' : list (jsstring * value)) :
  (forall k, In k (map fst S) -> lookup k props' = lookup k props) ->
  parse rt (ZObject S) p (VObject props') = parse rt (ZObject S) p (VObject props).
Proof.
  intros H. cbn [parse].
  assert (forall ks, In ks S ->
            prop (fst ks) props' = prop (fst ks) props
            /\ has (fst ks) props' = has (fst ks) props) as Hks.
  { intros ks Hin. unfold prop, has. rewrite (H (fst ks)) by (apply in_map; exact Hin).
    split; reflexivity. }
  f_equal.
  - f_equal. apply map_ext_in. intros ks Hin.
    destruct (Hks ks Hin) as [-> ->]. reflexivity.
  - rewrite !flat_map_concat_map. f_equal. apply map_ext_in. intros ks Hin.
    destruct (Hks ks Hin) as [-> _]. reflexivity.
Qed.

(** Validation reads the eleven declared keys of a candidate and nothing
    else: two objects that agree on them get the same answer from
    [validate], [validateTyped] and [validateMemoryEntry], whatever else
    they hold. *)
Theorem undeclared_keys_ignored (rt : Runtime) (props props' : list (jsstring * value)) :
  (forall k, In k (map fst MemoryEntryShape) -> lookup k props' = lookup k props) ->
  validate rt (VObject props') = validate rt (VObject props)
  /\ validateTyped rt (VObject props') = validateTyped rt (VObject props)
  /\ validateMemoryEntry rt (VObject props') = validateMemoryEntry rt (VObject props).
Proof.
  intros H.
  assert (validate rt (VObject props') = validate rt (VObject props)) as Hv.
  { rewrite !validate_eq. unfold MemoryEntrySchema.
    rewrite (parse_object_ext rt _ _ _ _ H). reflexivity. }
  assert (validateTyped rt (VObject props') = validateTyped rt (VObject props)) as Ht
      by (unfold validateTyped; rewrite Hv; reflexivity).
  split; [exact Hv|]. split; [exact Ht|].
  unfold validateMemoryEntry. rewrite Ht. reflexivity.
Qed.

Lemma undeclared_keys_ignored_example :
  validate zod3 (VObject ((js "draft", VBigInt 1) :: unknown_key_props))
  = validate zod3 (VObject unknown_key_props)
  /\ validateTyped zod3 (VObject ((js "draft", VBigInt 1) :: unknown_key_props))
     = validateTyped zod3 (VObject unknown_key_props)
  /\ validateMemoryEntry zod3 (VObject ((js "draft", VBigInt 1) :: unknown_key_props))
     = validateMemoryEntry zod3 (VObject unknown_key_props).
Proof.
  apply (undeclared_keys_ignored zod3 unknown_key_props
           ((js "draft", VBigInt 1) :: unknown_key_props)).
  intros k Hk. simpl in Hk.
  repeat (destruct Hk as [<-|Hk]; [reflexivity|]). contradiction.
Defined.


(* ------------------------------------------------------------------ *)
(** ** The progress of a task *)

Lemma parse_object_not_OK (rt : Runtime) (S : list (jsstring * schema))
      (p : list PathElem) (props : list (jsstring * value)) (k : jsstring) (s : schema) :
  In (k, s) S ->
  (forall v, fst (parse rt s (p ++ [PKey k]) (prop k props)) <> OK v) ->
  forall v, fst (parse rt (ZObject S) p (VObject props)) <> OK v.
Proof.
  intros Hin Hk v H. cbn [parse fst] in H.
  apply mergeObjectSync_OK in H as [Hall _].
  rewrite Forall_forall in Hall.
  specialize (Hall (k, fst (parse rt s (p ++ [PKey k]) (prop k props)), has k props)).
  cbn [fst snd] in Hall.
  apply (Hk (value_of (fst (parse rt s (p ++ [PKey k]) (prop k props))))).
  apply Hall.
  apply (in_map (fun ks => (fst ks, fst (parse rt (snd ks) (p ++ [PKey (fst ks)])
                                                (prop (fst ks) props)),
                            has (fst ks) props)) S (k, s) Hin).
Qed.

Lemma lookup_without_proto (k : jsstring) (props : list (jsstring * value)) :
  k <> js "__proto__" ->
  prop k (filter (fun kv => negb (fst kv =? js "__proto__")%js) props) = prop k props.
Proof.
  intros Hk. unfold prop. induction props as [|[k' x] props IH]; [reflexivity|].
  cbn [filter fst]. destruct (k' =? js "__proto__")%js eqn:E; cbn [negb lookup].
  - apply jseqb_eq in E. subst k'.
    assert ((js "__proto__" =? k)%js = false) as ->
        by (apply jseqb_neq; congruence).
    exact IH.
  - destruct (k' =? k)%js; [reflexivity | exact IH].
Qed.

(** A TaskState candidate with a valid envelope whose progress is a
    number below 0 or above 100 is rejected, and the result holds zod's
    too_small (below 0) or too_big (above 100) at the path
    [content, progress]. *)
Theorem progress_out_of_range_rejected (rt : Runtime)
        (props cprops : list (jsstring * value)) (x : spec_float) :
  success_of (validate rt (VObject props)) = true ->
  prop (js "type") props = VString TASK_STATE ->
  prop (js "content") props = VObject cprops ->
  prop (js "progress") cprops = VNumber x ->
  (SFltb x (number_of_Z 0) || SFltb (number_of_Z 100) x) = true ->
  exists errs e,
    validateMemoryEntry rt (VObject props) = Normal (Failure errs)
    /\ In e errs
    /\ Validation.path e = Some [js "content"; js "progress"]
    /\ Validation.code e
       = if SFltb x (number_of_Z 0) then js "too_small" else js "too_big".
Proof.
  intros Hv Htype Hcontent Hprogress Hrange.
  assert (isNaN x = false) as Hnan by (destruct x; [| |discriminate|]; reflexivity).
  destruct (validate rt (VObject props)) as [r0|] eqn:E0; [|discriminate].
  cbn [success_of] in Hv.
  destruct (validate_success rt _ _ E0 Hv) as (props1 & issues1 & Hp1 & ->).
  (* what the envelope schema returns *)
  assert (prop (js "type") props1 = VString TASK_STATE) as Htype1.
  { pose proof (envelope_field rt _ _ _ (js "type") (ZNativeEnum MemoryEntryType) Hp1
                  (or_intror (or_introl eq_refl))) as Hf.
    apply nativeEnum_returns_input in Hf. rewrite Hf. exact Htype. }
  assert (prop (js "content") props1
          = VObject (filter (fun kv => negb (fst kv =? js "__proto__")%js) cprops))
    as Hcontent1.
  { pose proof (envelope_field rt _ _ _ (js "content") (ZRecord ZUnknown) Hp1) as Hf.
    specialize (Hf (or_intror (or_intror (or_intror (or_intror (or_intror
                     (or_intror (or_intror (or_introl eq_refl))))))))).
    apply record_returns_stripped in Hf. rewrite Hf, Hcontent. reflexivity. }
  (* the issue of the progress *)
  set (iss := if SFltb x (number_of_Z 0)
              then mkIssue too_small [PKey (js "content"); PKey (js "progress")]
                     VUndefined VUndefined
                     (SizeBound (js "number") (number_of_Z 0) true false)
              else mkIssue too_big [PKey (js "content"); PKey (js "progress")]
                     VUndefined VUndefined
                     (SizeBound (js "number") (number_of_Z 100) true false)).
  set (progress := ZNumber [NMin (number_of_Z 0); NMax (number_of_Z 100)]).
  assert (In iss (snd (parse rt progress [PKey (js "content"); PKey (js "progress")]
                             (VNumber x)))
          /\ forall v, fst (parse rt progress [PKey (js "content"); PKey (js "progress")]
                                  (VNumber x)) <> OK v) as [Hiss Hdirty].
  { unfold progress, iss. cbn [parse]. rewrite Hnan.
    cbn [flat_map numberCheck app fst snd].
    destruct (SFltb x (number_of_Z 0)); cbn [app is_nil negb with_status].
    - split; [left; reflexivity | discriminate].
    - cbn [orb] in Hrange. rewrite Hrange. cbn [app is_nil negb with_status].
      split; [left; reflexivity | discriminate]. }
  set (cprops1 := filter (fun kv => negb (fst kv =? js "__proto__")%js) cprops) in *.
  assert (prop (js "progress") cprops1 = VNumber x) as Hprogress1.
  { unfold cprops1. rewrite lookup_without_proto by discriminate. exact Hprogress. }
  assert (In (js "progress", progress)
             [ (js "description", z_string); (js "goals", ZArray z_string);
               (js "progress", progress); (js "context", ZRecord ZUnknown);
               (js "activeFiles", ZArray z_string); (js "workingDirectory", z_string);
               (js "dependencies", ZOptional (ZArray z_string));
               (js "blockers", ZOptional (ZArray z_string)) ]) as Hfield
      by (right; right; left; reflexivity).
  assert (In (js "content", TaskStateContentSchema)
             (variant_shape (ZLiteral TASK_STATE) TaskStateContentSchema)) as Hcfield
      by (do 7 right; left; reflexivity).
  assert (In iss (snd (parse rt TaskStateContentSchema [PKey (js "content")]
                             (VObject cprops1)))
          /\ forall v, fst (parse rt TaskStateContentSchema [PKey (js "content")]
                                  (VObject cprops1)) <> OK v) as [Hiss2 Hdirty2].
  { split.
    - apply (parse_object_issue rt _ [PKey (js "content")] cprops1 (js "progress") progress
               iss Hfield).
      rewrite Hprogress1. exact Hiss.
    - apply (parse_object_not_OK rt _ [PKey (js "content")] cprops1 (js "progress") progress
               Hfield).
      rewrite Hprogress1. exact Hdirty. }
  assert (In iss (snd (parse rt (ZObject (variant_shape (ZLiteral TASK_STATE)
                                                        TaskStateContentSchema))
                             [] (VObject props1)))
          /\ forall v, fst (parse rt (ZObject (variant_shape (ZLiteral TASK_STATE)
                                                             TaskStateContentSchema))
                                  [] (VObject props1)) <> OK v) as [Hiss3 Hdirty3].
  { split.
    - apply (parse_object_issue rt _ [] props1 (js "content") TaskStateContentSchema
               iss Hcfield).
      rewrite Hcontent1. exact Hiss2.
    - apply (parse_object_not_OK rt _ [] props1 (js "content") TaskStateContentSchema
               Hcfield).
      rewrite Hcontent1. exact Hdirty2. }
  (* the dispatch *)
  assert (validateTyped rt (VObject props)
          = Normal (Failure
              (map (issue_error rt)
                   (snd (parse rt (ZObject (variant_shape (ZLiteral TASK_STATE)
                                                          TaskStateContentSchema))
                               [] (VObject props1)))))) as Ht.
  { unfold validateTyped. rewrite E0. cbn [bind success Success data truthy negb orb].
    rewrite (validateByType_eq rt props1 TaskStateSchema)
      by (rewrite Htype1; reflexivity).
    change TaskStateSchema
      with (ZObject (variant_shape (ZLiteral TASK_STATE) TaskStateContentSchema)).
    destruct (parse rt (ZObject (variant_shape (ZLiteral TASK_STATE)
                                               TaskStateContentSchema))
                    [] (VObject props1)) as [[d|d|] [|i issues]];
      cbn [fst snd] in *; try contradiction; try reflexivity;
      exfalso; exact (Hdirty3 d eq_refl). }
  eexists. exists (issue_error rt iss).
  split; [exact (phase1_failure rt _ _ Ht eq_refl)|].
  split; [apply in_map; exact Hiss3|].
  unfold iss. destruct (SFltb x (number_of_Z 0)); split; reflexivity.
Qed.

Lemma progress_out_of_range_rejected_example :
  exists errs e,
    validateMemoryEntry zod3 (task_entry "bad project!" "feature/x" 150 [])
    = Normal (Failure errs)
    /\ In e errs
    /\ Validation.path e = Some [js "content"; js "progress"]
    /\ Validation.code e
       = if SFltb (number_of_Z 150) (number_of_Z 0) then js "too_small" else js "too_big".
Proof.
  apply (progress_out_of_range_rejected zod3
           (match task_entry "bad project!" "feature/x" 150 [] with
            | VObject props => props
            | _ => []
            end)
           (match task_content 150 with VObject props => props | _ => [] end)
           (number_of_Z 150));
    vm_compute; reflexivity.
Defined.


(* ------------------------------------------------------------------ *)
(** ** The envelope of an accepted entry *)

(** A field of the typed entry under a shared key, with its schema. *)
Lemma typed_shared_at (rt : Runtime) (entry : value) (out : list (jsstring * value))
      (k : jsstring) (s : schema) :
  validateTyped rt entry = Normal (Success (VObject out)) ->
  In k shared_keys ->
  In (k, s) MemoryEntryShape ->
  parse rt s [PKey k] (prop k out) = (OK (prop k out), []).
Proof.
  intros Ht Hk Hs.
  destruct (typed_shared rt _ _ k Ht Hk) as (s' & issues & Hin & _ & Hp).
  rewrite (shape_schema_unique k s' s Hin Hs) in Hp. exact Hp.
Qed.

Lemma strings_only (rt : Runtime) (p : list PathElem) (items : list value) (start : N) :
  Forall (fun r => r = OK (value_of r))
         (mapi_from (fun i x => fst (parse rt z_string (p ++ [PIndex i]) x)) start items) ->
  forall x, In x items -> exists s, x = VString s.
Proof.
  revert start. induction items as [|y items IH]; intros start Hall x Hx; [contradiction|].
  cbn [mapi_from] in Hall. inversion Hall as [|? ? Hy Hrest]; subst.
  destruct Hx as [<-|Hx]; [|exact (IH _ Hrest x Hx)].
  destruct y; try discriminate. eauto.
Qed.

(** What the consumer of an accepted entry can rely on: [id] is a string
    that the UUID expression matches, [timestamp] a string that the
    datetime expression matches, [status] one of the three status values,
    [taskId] null or a string, [tags] absent or an array of strings, and
    [metadata] absent or an object. *)
Theorem accepted_envelope_fields (rt : Runtime) (entry d : value) :
  validateMemoryEntry rt entry = Normal (Success d) ->
  (exists id, get d (js "id") = VString id /\ uuidRegex_test rt id = true)
  /\ (exists ts, get d (js "timestamp") = VString ts /\ datetimeRegex_test rt ts = true)
  /\ (exists st, get d (js "status") = VString st /\ In st MemoryEntryStatus)
  /\ (get d (js "taskId") = VNull \/ exists t, get d (js "taskId") = VString t)
  /\ (get d (js "tags") = VUndefined
      \/ exists items, get d (js "tags") = VArray items
                       /\ forall x, In x items -> exists s, x = VString s)
  /\ (get d (js "metadata") = VUndefined
      \/ exists m, get d (js "metadata") = VObject m).
Proof.
  intros H. destruct (accepted_typed rt _ _ H) as (out & -> & Ht). cbn [get].
  split.
  { pose proof (typed_shared_at rt _ _ (js "id") (ZString [SUuid]) Ht) as Hp.
    specialize (Hp ltac:(cbv; auto 12) ltac:(simpl; auto 12)).
    cbn [parse] in Hp.
    destruct (prop (js "id") out) as [| | | | |s| |]; try discriminate.
    exists s. split; [reflexivity|].
    cbn [flat_map stringCheck app] in Hp.
    destruct (uuidRegex_test rt s); [reflexivity | discriminate]. }
  split.
  { pose proof (typed_shared_at rt _ _ (js "timestamp") z_datetime Ht) as Hp.
    specialize (Hp ltac:(cbv; auto 12) ltac:(simpl; auto 12)).
    unfold z_datetime in Hp. cbn [parse] in Hp.
    destruct (prop (js "timestamp") out) as [| | | | |s| |]; try discriminate.
    exists s. split; [reflexivity|].
    cbn [flat_map stringCheck app] in Hp.
    destruct (datetimeRegex_test rt s); [reflexivity | discriminate]. }
  split.
  { pose proof (typed_shared_at rt _ _ (js "status") (ZNativeEnum MemoryEntryStatus) Ht)
      as Hp.
    specialize (Hp ltac:(cbv; auto 12) ltac:(simpl; auto 12)).
    cbn [parse] in Hp.
    destruct (prop (js "status") out) as [| | |x| |s| |]; try discriminate.
    - destruct (isNaN x); discriminate.
    - exists s. split; [reflexivity|].
      destruct (existsb (JsString.eqb s) MemoryEntryStatus) eqn:E; [|discriminate].
      apply existsb_exists in E as (y & Hy & Heq).
      apply jseqb_eq in Heq. subst y. exact Hy. }
  split.
  { pose proof (typed_shared_at rt _ _ (js "taskId") (ZNullable z_string) Ht) as Hp.
    specialize (Hp ltac:(cbv; auto 12) ltac:(simpl; auto 12)).
    unfold z_string in Hp. cbn [parse] in Hp.
    destruct (prop (js "taskId") out) as [| | | | |s| |]; try discriminate;
      [left; reflexivity | right; eauto]. }
  split.
  { pose proof (typed_shared_at rt _ _ (js "tags") (ZOptional (ZArray z_string)) Ht) as Hp.
    specialize (Hp ltac:(cbv; auto 12) ltac:(simpl; auto 12)).
    cbn [parse] in Hp.
    destruct (prop (js "tags") out) as [| | | | | |items|]; try discriminate;
      [left; reflexivity|].
    right. exists items. split; [reflexivity|].
    apply (f_equal fst) in Hp. cbn [fst] in Hp.
    apply mergeArray_OK in Hp as [Hall _].
    exact (strings_only rt _ items 0 Hall). }
  { pose proof (typed_shared_at rt _ _ (js "metadata") (ZOptional (ZRecord ZUnknown)) Ht)
      as Hp.
    specialize (Hp ltac:(cbv; auto 12) ltac:(simpl; auto 12)).
    cbn [parse] in Hp.
    destruct (prop (js "metadata") out) as [| | | | | | |m]; try discriminate;
      [left; reflexivity | right; eauto]. }
Qed.

Lemma accepted_envelope_fields_example :
  (exists id, get accepted_entry (js "id") = VString id /\ uuidRegex_test zod3 id = true)
  /\ (exists ts, get accepted_entry (js "timestamp") = VString ts
                 /\ datetimeRegex_test zod3 ts = true)
  /\ (exists st, get accepted_entry (js "status") = VString st /\ In st MemoryEntryStatus)
  /\ (get accepted_entry (js "taskId") = VNull
      \/ exists t, get accepted_entry (js "taskId") = VString t)
  /\ (get accepted_entry (js "tags") = VUndefined
      \/ exists items, get accepted_entry (js "tags") = VArray items
                       /\ forall x, In x items -> exists s, x = VString s)
  /\ (get accepted_entry (js "metadata") = VUndefined
      \/ exists m, get accepted_entry (js "metadata") = VObject m).
Proof.
  apply (accepted_envelope_fields zod3 entry_with_unknown_key accepted_entry).
  vm_compute. reflexivity.
Defined.


(* ------------------------------------------------------------------ *)
(** ** The branch and the embedding of an entry in phase 2 *)

(** The typed entry holds the candidate's own branch and embedding. *)
Lemma typed_branch_embedding (rt : Runtime) (entry : value)
      (out : list (jsstring * value)) :
  validateTyped rt entry = Normal (Success (VObject out)) ->
  prop (js "branch") out = get entry (js "branch")
  /\ prop (js "embedding") out = get entry (js "embedding").
Proof.
  intros Ht. split.
  - destruct (typed_shared rt _ _ (js "branch") Ht) as (s & issues & Hin & Hp & _);
      [cbv; auto 12|].
    rewrite (shape_schema_unique _ s (ZString [SMin 1]) Hin) in Hp by (simpl; auto 12).
    apply (string_returns_input rt [SMin 1] [PKey (js "branch")]).
    rewrite Hp. reflexivity.
  - destruct (typed_shared rt _ _ (js "embedding") Ht) as (s & issues & Hin & Hp & _);
      [cbv; auto 12|].
    rewrite (shape_schema_unique _ s (ZOptional (ZArray z_number)) Hin) in Hp
      by (simpl; auto 12).
    apply (optional_returns_input rt (ZArray z_number)) with (p := [PKey (js "embedding")]).
    + apply array_returns_input.
      intros p v v' H. apply (number_returns_input rt _ _ _ _ H).
    + rewrite Hp. reflexivity.
Qed.

(** After phase 1, [validateMemoryEntry] either returns the result of the
    merged errors or throws what the content-size validator throws. *)
Lemma phase2_outcome (rt : Runtime) (entry : value) :
  passes_phase1 rt entry = true ->
  exists out,
    validateTyped rt entry = Normal (Success (VObject out))
    /\ validated_entry rt entry = VObject out
    /\ ((exists c,
           ContentSizeValidator_validate rt (prop (js "content") out) = Normal c
           /\ validateMemoryEntry rt entry
              = Normal (finish (merged_errors (VObject out) c) (VObject out)))
        \/ (exists e,
              ContentSizeValidator_validate rt (prop (js "content") out) = Throw e
              /\ validateMemoryEntry rt entry = Throw e)).
Proof.
  intros Hp. destruct (passes_phase1_inv rt _ Hp) as (out & Ht & Hd).
  exists out. split; [exact Ht|]. split; [exact Hd|].
  rewrite (phase2 rt _ _ Ht).
  destruct (ContentSizeValidator_validate rt (prop (js "content") out)) as [c|e];
    [left; exists c | right; exists e]; auto.
Qed.

(* ------------------------------------------------------------------ *)
(** ** C7: the branch "/x//y/" *)

(** C7.  The entry with branch "/x//y/" whose [content.context] holds a
    BigInt passes phase 1, and [validateMemoryEntry] throws in the
    content-size step instead of returning the two branch errors.  That
    throw is the only way the errors are lost: for every entry that passes
    phase 1 with branch "/x//y/", either the result is a failure that
    holds both the error for the leading or trailing slash and the error
    for consecutive slashes, two different errors, or the content-size
    validator threw and [validateMemoryEntry] threw with it.  The branch
    validator itself reports every violated rule among too short, too
    long, bad format, leading or trailing slash and consecutive slashes,
    whatever the other rules say. *)
Theorem C7_branch_errors_lost_on_bigint_content :
  passes_phase1 zod3 (bigint_entry "/x//y/" []) = true
  /\ get (bigint_entry "/x//y/" []) (js "branch") = VString (js "/x//y/")
  /\ validateMemoryEntry zod3 (bigint_entry "/x//y/" []) = Throw bigint_error
  /\ (forall rt entry,
        passes_phase1 rt entry = true ->
        get entry (js "branch") = VString (js "/x//y/") ->
        (exists errs,
           validateMemoryEntry rt entry = Normal (Failure errs)
           /\ In branch_edge_slash errs /\ In branch_double_slash errs
           /\ branch_edge_slash <> branch_double_slash)
        \/ (exists e,
              ContentSizeValidator_validate
                rt (get (validated_entry rt entry) (js "content")) = Throw e
              /\ validateMemoryEntry rt entry = Throw e))
  /\ (forall b,
        let errs := failed_errors (BranchValidator_validate b) in
        ((JsString.length b <? BRANCH_MIN_LENGTH) = true -> In branch_too_short errs)
        /\ ((BRANCH_MAX_LENGTH <? JsString.length b) = true -> In branch_too_long errs)
        /\ (BRANCH_NAME_REGEX_test b = false -> In branch_bad_format errs)
        /\ ((startsWith b (js "/") || endsWith b (js "/")) = true ->
            In branch_edge_slash errs)
        /\ (includes b (js "//") = true -> In branch_double_slash errs)
        /\ (success (BranchValidator_validate b) = true <-> errs = [])).
Proof.
  split; [vm_compute; reflexivity|]. split; [vm_compute; reflexivity|].
  split; [vm_compute; reflexivity|]. split; [|exact branch_validator_reports_all].
  intros rt entry Hp Hb.
  destruct (phase2_outcome rt entry Hp) as (out & Ht & Hd & [(c & Hc & Hv) | (e & Hc & Hv)]).
  - left. exists (merged_errors (VObject out) c).
    rewrite <- (proj1 (typed_branch_embedding rt _ _ Ht)) in Hb.
    assert (In branch_edge_slash (merged_errors (VObject out) c)) as H1.
    { apply merged_branch. cbn [get]. rewrite Hb. vm_compute. auto. }
    assert (In branch_double_slash (merged_errors (VObject out) c)) as H2.
    { apply merged_branch. cbn [get]. rewrite Hb. vm_compute. auto. }
    split; [|split; [exact H1 | split; [exact H2 | discriminate]]].
    rewrite Hv. f_equal. apply finish_failure with (e := branch_edge_slash). exact H1.
  - right. exists e. rewrite Hd. cbn [get]. auto.
Qed.

(** The TaskState entry with branch "/x//y/" and a plain content gets both
    branch errors. *)
Lemma C7_branch_errors_witness :
  exists errs,
    validateMemoryEntry zod3 (task_entry "ucp" "/x//y/" 5 []) = Normal (Failure errs)
    /\ In branch_edge_slash errs /\ In branch_double_slash errs
    /\ branch_edge_slash <> branch_double_slash.
Proof.
  destruct (proj1 (proj2 (proj2 (proj2 C7_branch_errors_lost_on_bigint_content)))
              zod3 (task_entry "ucp" "/x//y/" 5 []) eq_refl eq_refl)
    as [H | (e & Hc & _)]; [exact H|].
  vm_compute in Hc. discriminate.
Defined.

(* ------------------------------------------------------------------ *)
(** ** C10: the empty embedding *)

(** C10.  The embedding validator answers the empty array with a failure
    that holds both EMPTY_EMBEDDING and INVALID_DIMENSION.  The entry with
    [embedding: []] whose [content.context] holds a BigInt passes phase 1,
    and [validateMemoryEntry] throws in the content-size step, before the
    embedding validator is reached.  That throw is the only way the errors
    are lost: for every entry that passes phase 1 with an empty embedding
    array, either the result is a failure that holds both errors (the
    empty array is truthy, so the embedding validator runs), or the
    content-size validator threw and [validateMemoryEntry] threw with
    it. *)
Theorem C10_empty_embedding_lost_on_bigint_content :
  EmbeddingValidator_validate (VArray [])
  = Failure [empty_embedding; invalid_dimension 0]
  /\ Validation.code empty_embedding = js "EMPTY_EMBEDDING"
  /\ Validation.code (invalid_dimension 0) = js "INVALID_DIMENSION"
  /\ passes_phase1 zod3 (bigint_entry "main" [("embedding", VArray [])]%string) = true
  /\ get (bigint_entry "main" [("embedding", VArray [])]%string) (js "embedding")
     = VArray []
  /\ validateMemoryEntry zod3 (bigint_entry "main" [("embedding", VArray [])]%string)
     = Throw bigint_error
  /\ (forall rt entry,
        passes_phase1 rt entry = true ->
        get entry (js "embedding") = VArray [] ->
        (exists errs,
           validateMemoryEntry rt entry = Normal (Failure errs)
           /\ In empty_embedding errs /\ In (invalid_dimension 0) errs)
        \/ (exists e,
              ContentSizeValidator_validate
                rt (get (validated_entry rt entry) (js "content")) = Throw e
              /\ validateMemoryEntry rt entry = Throw e)).
Proof.
  split; [vm_compute; reflexivity|].
  split; [reflexivity|]. split; [reflexivity|].
  split; [vm_compute; reflexivity|]. split; [vm_compute; reflexivity|].
  split; [vm_compute; reflexivity|].
  intros rt entry Hp He.
  destruct (phase2_outcome rt entry Hp) as (out & Ht & Hd & [(c & Hc & Hv) | (e & Hc & Hv)]).
  - left. exists (merged_errors (VObject out) c).
    rewrite <- (proj2 (typed_branch_embedding rt _ _ Ht)) in He.
    assert (In empty_embedding (merged_errors (VObject out) c)) as H1.
    { apply merged_embedding; cbn [get]; rewrite He; vm_compute; auto. }
    assert (In (invalid_dimension 0) (merged_errors (VObject out) c)) as H2.
    { apply merged_embedding; cbn [get]; rewrite He; vm_compute; auto. }
    split; [|split; assumption].
    rewrite Hv. f_equal. apply finish_failure with (e := empty_embedding). exact H1.
  - right. exists e. rewrite Hd. cbn [get]. auto.
Qed.

(** The TaskState entry with [embedding: []] and a plain content fails
    with both errors. *)
Lemma C10_empty_embedding_witness :
  exists errs,
    validateMemoryEntry zod3 (task_entry "ucp" "main" 5 [("embedding", VArray [])]%string)
    = Normal (Failure errs)
    /\ In empty_embedding errs /\ In (invalid_dimension 0) errs.
Proof.
  destruct (proj2 (proj2 (proj2 (proj2 (proj2 (proj2
              C10_empty_embedding_lost_on_bigint_content)))))
              zod3 (task_entry "ucp" "main" 5 [("embedding", VArray [])]%string)
              eq_refl eq_refl)
    as [H | (e & Hc & _)]; [exact H|].
  vm_compute in Hc. discriminate.
Defined.

(* ------------------------------------------------------------------ *)
(** ** C6: an embedding of unsupported length with a bad element *)




